(** * pynmd: fixed-width writers for SWAN and XBeach input files

    A shallow embedding of [pynmd/models/swan/pre/swan_pre.py] and
    [pynmd/models/xbeach/pre/xbeach_pre.py].

    - Python floats are IEEE-754 doubles: [spec_float] of the Standard
      Library (sign, mantissa, binary exponent, signed zeros, infinities and
      NaN).
    - ['%W.Pf' % v] is the correctly rounded (ties to even) decimal rendering
      of the exact binary value, right-justified with blanks to a MINIMUM
      width [W].
    - numpy arrays live in a store and are passed by reference; files are a
      finite map from paths to contents; open handles are a finite map from
      descriptors to paths; [print] appends to the console.
    - the writers run in a state-and-exception monad: an exception leaves the
      world as it was when it was raised. *)

From Stdlib Require Import ZArith List Ascii String Lia Bool SpecFloat.
From stdpp Require Import base option gmap strings list fin_maps.
Import ListNotations.

Local Open Scope Z_scope.

(* ===================================================================== *)
(** * Text *)
(* ===================================================================== *)

(** File contents and formatted fields are sequences of characters. *)
Abbreviation text := (list ascii).

(** A Python string literal. *)
Definition str (s : string) : text := list_ascii_of_string s.

(** The newline character. *)
Definition nl : ascii := "010"%char.
Definition sp : ascii := " "%char.

(** [t] occurs in [s] as a contiguous run of characters. *)
Definition occurs_in (t s : text) : Prop := exists a b, s = a ++ t ++ b.

(** Deciding occurrence. *)
Fixpoint prefixb (t s : text) : bool :=
  match t, s with
  | [], _ => true
  | a :: t', b :: s' => Ascii.eqb a b && prefixb t' s'
  | _ :: _, [] => false
  end.

Fixpoint occursb (t s : text) : bool :=
  prefixb t s || match s with [] => false | _ :: s' => occursb t s' end.

(** Lines, each terminated by a newline. *)
Definition unlines (ls : list text) : text :=
  concat (map (fun l => l ++ [nl]) ls).

(** Number of newline characters, i.e. of terminated lines. *)
Definition line_count (s : text) : nat := count_occ ascii_dec s nl.

(** Splitting a line into consecutive fields of [w] characters; a shorter
    last chunk is kept. [fuel] bounds the number of chunks. *)
Fixpoint chunks_fuel (fuel w : nat) (s : text) : list text :=
  match fuel with
  | O => []
  | S f =>
      match s with
      | [] => []
      | _ => firstn w s :: chunks_fuel f w (skipn w s)
      end
  end.

Definition chunks (w : nat) (s : text) : list text :=
  chunks_fuel (length s) w s.

(* ===================================================================== *)
(** * Decimal digits *)
(* ===================================================================== *)

Definition digit_char (d : Z) : ascii := ascii_of_nat (48 + Z.to_nat d).

Definition is_digit (c : ascii) : bool :=
  let n := nat_of_ascii c in (48 <=? n)%nat && (n <=? 57)%nat.

Definition digit_val (c : ascii) : Z := Z.of_nat (nat_of_ascii c) - 48.

(** Decimal digits of a non-negative integer, most significant first, no
    leading zero (["0"] for zero). *)
Fixpoint digits_fuel (fuel : nat) (n : Z) : text :=
  match fuel with
  | O => []
  | S f =>
      if n <? 10 then [digit_char n]
      else digits_fuel f (n / 10) ++ [digit_char (n mod 10)]
  end.

Definition digits (n : Z) : text :=
  digits_fuel (S (Z.to_nat (Z.log2 n))) n.

(** Exactly [p] decimal digits of [r], with leading zeros. *)
Fixpoint frac_digits (p : nat) (r : Z) : text :=
  match p with
  | O => []
  | S p' => frac_digits p' (r / 10) ++ [digit_char (r mod 10)]
  end.

(* ===================================================================== *)
(** * ['%W.Pf'] on doubles *)
(* ===================================================================== *)

(** [num / den] rounded to the nearest integer, ties to even. *)
Definition round_half_even (num den : Z) : Z :=
  let q := num / den in
  let r := num mod den in
  if 2 * r <? den then q
  else if den <? 2 * r then q + 1
  else if Z.even q then q else q + 1.

(** The magnitude [m * 2^e], scaled by [10^P] and rounded to an integer:
    the digits that ['%.Pf'] prints. *)
Definition scaled (P : nat) (m : positive) (e : Z) : Z :=
  if 0 <=? e then Z.pos m * 2 ^ e * 10 ^ Z.of_nat P
  else round_half_even (Z.pos m * 10 ^ Z.of_nat P) (2 ^ (- e)).

(** Integer part, and a point followed by [P] decimals unless [P = 0]. *)
Definition fixed (P : nat) (n : Z) : text :=
  digits (n / 10 ^ Z.of_nat P) ++
  match P with
  | O => []
  | S _ => "."%char :: frac_digits P (n mod 10 ^ Z.of_nat P)
  end.

Definition sign_text (s : bool) : text := if s then ["-"%char] else [].

Definition float_body (P : nat) (v : spec_float) : text :=
  match v with
  | S754_nan => str "nan"
  | S754_infinity s => sign_text s ++ str "inf"
  | S754_zero s => sign_text s ++ fixed P 0
  | S754_finite s m e => sign_text s ++ fixed P (scaled P m e)
  end.

(** Right-justify in a field of at least [W] characters. *)
Definition rjust (W : nat) (t : text) : text :=
  repeat sp (W - length t) ++ t.

Definition fmt_f (W P : nat) (v : spec_float) : text :=
  rjust W (float_body P v).

(** An array length as the double that ['%12.0f'] receives. The conversion
    is exact below [2^53], which bounds every length of an array in memory. *)
Definition float_of_count (n : nat) : spec_float :=
  match n with
  | O => S754_zero false
  | S _ => S754_finite false (Pos.of_nat n) 0
  end.

(** [str(i)] on a Python int. *)
Definition str_int (i : Z) : text :=
  if i <? 0 then "-"%char :: digits (- i) else digits i.

(** The signed integer [round (v * 10^P)] that a rendering with [P]
    decimals denotes; [None] for NaN and the infinities. *)
Definition decimal_round (P : nat) (v : spec_float) : option Z :=
  match v with
  | S754_zero _ => Some 0
  | S754_finite s m e => Some (if s then - scaled P m e else scaled P m e)
  | _ => None
  end.

(** The value is finite and its rendering with [P] decimals needs at most
    [W] characters: the rounded magnitude has at most [W - P - 1] integer
    digits ([W] when [P = 0], there is no point then), one less when the
    sign bit is set. *)
Definition int_room (W P : nat) (s : bool) : nat :=
  (W - P - (match P with O => 0 | S _ => 1 end) - (if s then 1 else 0))%nat.

Definition fits_field (W P : nat) (v : spec_float) : bool :=
  match v with
  | S754_zero s => (1 <=? int_room W P s)%nat
  | S754_finite s m e =>
      (1 <=? int_room W P s)%nat &&
      (scaled P m e <? 10 ^ Z.of_nat (P + int_room W P s))
  | _ => false
  end.

(** Reading a field as a decimal number: leading blanks, an optional minus
    sign, digits with at most one point. The result is the signed integer of
    all the digits together with the number [k] of digits after the point:
    the number read is that integer divided by [10^k]. *)
Fixpoint drop_blanks (s : text) : text :=
  match s with
  | c :: s' => if Ascii.eqb c sp then drop_blanks s' else s
  | [] => []
  end.

Fixpoint read_frac (acc : Z) (k : nat) (s : text) : option (Z * nat) :=
  match s with
  | [] => Some (acc, k)
  | c :: s' =>
      if is_digit c then read_frac (10 * acc + digit_val c) (S k) s'
      else None
  end.

Fixpoint read_int (acc : Z) (s : text) : option (Z * nat) :=
  match s with
  | [] => Some (acc, O)
  | c :: s' =>
      if is_digit c then read_int (10 * acc + digit_val c) s'
      else if Ascii.eqb c "."%char then read_frac acc O s'
      else None
  end.

Definition read_unsigned (s : text) : option (Z * nat) :=
  if existsb is_digit s then read_int 0 s else None.

Definition read_field (s : text) : option (Z * nat) :=
  match drop_blanks s with
  | c :: s' =>
      if Ascii.eqb c "-"%char then
        match read_unsigned s' with
        | Some (n, k) => Some (- n, k)
        | None => None
        end
      else read_unsigned (c :: s')
  | [] => None
  end.

(** Two decimal readings denote the same number. *)
Definition same_number (a b : Z * nat) : Prop :=
  fst a * 10 ^ Z.of_nat (snd b) = fst b * 10 ^ Z.of_nat (snd a).

(** The exact value of a double times [10^P], as a fraction [(num, den)]
    with [den > 0]; [None] for NaN and the infinities. *)
Definition exact_scaled (P : nat) (v : spec_float) : option (Z * Z) :=
  match v with
  | S754_zero _ => Some (0, 1)
  | S754_finite s m e =>
      let sg := if s then -1 else 1 in
      if 0 <=? e then Some (sg * (Z.pos m * 2 ^ e * 10 ^ Z.of_nat P), 1)
      else Some (sg * (Z.pos m * 10 ^ Z.of_nat P), 2 ^ (- e))
  | _ => None
  end.

(** Doubles used in the examples. *)
Definition f_zero : spec_float := S754_zero false.
Definition f_ten : spec_float := S754_finite false 5 1.          (* 10.0 *)
Definition f_sixteenth : spec_float := S754_finite false 1 (-4). (* 0.0625 *)
Definition f_1e5 : spec_float := S754_finite false 3125 5.       (* 100000.0 *)
Definition f_one : spec_float := S754_finite false 1 0.
Definition f_twenty : spec_float := S754_finite false 5 2.
(** The double nearest to 0.05 and the double nearest to 1.2345678901. *)
Definition f_0_05 : spec_float :=
  S754_finite false 7205759403792794 (-57).
Definition f_1_2345678901 : spec_float :=
  S754_finite false 5559999489817939 (-52).

(** Characters of a rendered number: blank, sign, point, digits, and the
    letters of [nan] and [inf]. *)
Definition numeric_char (c : ascii) : bool :=
  is_digit c || existsb (Ascii.eqb c) (str " -.nanif").

(* ===================================================================== *)
(** * numpy arrays *)
(* ===================================================================== *)

(** One- and two-dimensional arrays of doubles. A two-dimensional array
    carries its number of columns, so that an array of shape [(0, n)] has
    one. *)
Inductive ndarray : Type :=
  | Arr1 (v : list spec_float)
  | Arr2 (ncols : nat) (rows : list (list spec_float)).

(** numpy arrays are rectangular. *)
Definition wf_array (a : ndarray) : Prop :=
  match a with
  | Arr1 _ => True
  | Arr2 c rows => Forall (fun r => length r = c) rows
  end.

Definition shape (a : ndarray) : list nat :=
  match a with
  | Arr1 v => [length v]
  | Arr2 c rows => [length rows; c]
  end.

Inductive exn : Type :=
  | IndexError
  | TypeError
  | ValueError
  | KeyError
  | UnboundLocalError.

Inductive res (A : Type) : Type :=
  | Ok (a : A)
  | Raise (e : exn).
Arguments Ok {A} a.
Arguments Raise {A} e.

(** [t[k]] on a tuple, negative [k] counting from the end. *)
Definition tuple_index {A : Type} (t : list A) (k : Z) : res A :=
  let n := Z.of_nat (length t) in
  let k' := if k <? 0 then k + n else k in
  if (0 <=? k') && (k' <? n) then
    match nth_error t (Z.to_nat k') with
    | Some x => Ok x
    | None => Raise IndexError
    end
  else Raise IndexError.

(** What indexing an array yields: a scalar or a sub-array. *)
Inductive pyval : Type :=
  | PFloat (f : spec_float)
  | PArray (a : ndarray).

(** [a[i]] for [i >= 0]. *)
Definition getitem1 (a : ndarray) (i : nat) : res pyval :=
  match a with
  | Arr1 v =>
      match nth_error v i with
      | Some f => Ok (PFloat f)
      | None => Raise IndexError
      end
  | Arr2 _ rows =>
      match nth_error rows i with
      | Some r => Ok (PArray (Arr1 r))
      | None => Raise IndexError
      end
  end.

(** [a[i,j]] for [i, j >= 0]; too many indices for a vector. *)
Definition getitem2 (a : ndarray) (i j : nat) : res pyval :=
  match a with
  | Arr1 _ => Raise IndexError
  | Arr2 c rows =>
      match nth_error rows i with
      | Some r =>
          if (j <? c)%nat then
            match nth_error r j with
            | Some f => Ok (PFloat f)
            | None => Raise IndexError
            end
          else Raise IndexError
      | None => Raise IndexError
      end
  end.

(** The conversion to a double that ['%f'] performs: a scalar, or an array
    of exactly one element; any other array is a [TypeError]. *)
Definition to_float (x : pyval) : res spec_float :=
  match x with
  | PFloat f => Ok f
  | PArray (Arr1 [f]) => Ok f
  | PArray (Arr2 _ [[f]]) => Ok f
  | PArray _ => Raise TypeError
  end.

(** ['%W.Pf' % x]. *)
Definition pct_f (W P : nat) (x : pyval) : res text :=
  match to_float x with
  | Ok f => Ok (fmt_f W P f)
  | Raise e => Raise e
  end.

(* ===================================================================== *)
(** * The world: array store, file system, open handles, console *)
(* ===================================================================== *)

(** A netCDF variable and dataset, as far as [write_bathy] fills them. *)
Record ncvar : Type := {
  v_name : string;
  v_type : string;
  v_dims : list string;
  v_attrs : list (string * text);
  v_data : option ndarray
}.

Record dataset : Type := {
  nc_attrs : list (string * text);
  nc_dims : list (string * nat);
  nc_vars : list ncvar
}.

Inductive content : Type :=
  | Text (t : text)
  | NetCDF (d : dataset).

(** What the process environment answers: [getpass.getuser()],
    [time.ctime()], [sys.version], [netCDF4.getlibversion()] and
    [os.path.realpath(__file__)]. *)
Record environ : Type := {
  e_user : text;
  e_ctime : text;
  e_version : text;
  e_nclib : text;
  e_script : text
}.

Record world : Type := {
  w_arrays : nat -> ndarray;
  w_files : gmap string content;
  w_open : gmap nat string;
  w_console : list text;
  w_env : environ
}.

Definition set_files (f : gmap string content) (w : world) : world :=
  {| w_arrays := w_arrays w; w_files := f; w_open := w_open w;
     w_console := w_console w; w_env := w_env w |}.

Definition set_open (o : gmap nat string) (w : world) : world :=
  {| w_arrays := w_arrays w; w_files := w_files w; w_open := o;
     w_console := w_console w; w_env := w_env w |}.

Definition set_console (c : list text) (w : world) : world :=
  {| w_arrays := w_arrays w; w_files := w_files w; w_open := w_open w;
     w_console := c; w_env := w_env w |}.

(** The file at [p] holds [c]. *)
Definition put_file (p : string) (c : content) (w : world) : world :=
  set_files (<[p := c]> (w_files w)) w.

(* ===================================================================== *)
(** * The monad of the writers *)
(* ===================================================================== *)

Definition M (A : Type) : Type := world -> world * res A.

Definition ret {A : Type} (a : A) : M A := fun w => (w, Ok a).

Definition bind {A B : Type} (m : M A) (k : A -> M B) : M B :=
  fun w =>
    match m w with
    | (w', Ok a) => k a w'
    | (w', Raise e) => (w', Raise e)
    end.

Definition lift {A : Type} (r : res A) : M A := fun w => (w, r).

Declare Scope py_scope.
Delimit Scope py_scope with py.
Notation "'let*' x ':=' m 'in' k" := (bind m (fun x => k))
  (at level 10, x name, m at level 100, k at level 200) : py_scope.
Notation "m ;; k" := (bind m (fun _ => k))
  (at level 100, k at level 200, right associativity) : py_scope.
Local Open Scope py_scope.

(** [for x in l: body x]. *)
Fixpoint for_each {A : Type} (l : list A) (body : A -> M unit) : M unit :=
  match l with
  | [] => ret tt
  | x :: l' => body x ;; for_each l' body
  end.

(** [for aa in range(n): body aa]. *)
Definition for_range (n : nat) (body : nat -> M unit) : M unit :=
  for_each (seq 0 n) body.

(** ** Arrays, read through their reference *)

Definition shape_at (r : nat) (k : Z) : M nat :=
  fun w => (w, tuple_index (shape (w_arrays w r)) k).

(** [len(a)] is [a.shape[0]]. *)
Definition len (r : nat) : M nat := shape_at r 0.

Definition item1 (r : nat) (i : nat) : M pyval :=
  fun w => (w, getitem1 (w_arrays w r) i).

Definition item2 (r : nat) (i j : nat) : M pyval :=
  fun w => (w, getitem2 (w_arrays w r) i j).

(** ** Files *)

(** [open(path, 'w')]: the file is created or truncated, the handle is a
    descriptor not in use. *)
Definition open_w (path : string) : M nat :=
  fun w =>
    let fd := fresh (dom (w_open w)) in
    (set_open (<[fd := path]> (w_open w)) (put_file path (Text []) w), Ok fd).

(** [fid.write(t)]: appends to the file of the handle; writing through a
    closed handle is a [ValueError]. *)
Definition fwrite (fd : nat) (t : text) : M unit :=
  fun w =>
    match w_open w !! fd with
    | Some path =>
        match w_files w !! path with
        | Some (Text c) => (put_file path (Text (c ++ t)) w, Ok tt)
        | _ => (w, Raise ValueError)
        end
    | None => (w, Raise ValueError)
    end.

(** [fid.close()]. *)
Definition fclose (fd : nat) : M unit :=
  fun w => (set_open (delete fd (w_open w)) w, Ok tt).

(** [print(t)]. *)
Definition print (t : text) : M unit :=
  fun w => (set_console (w_console w ++ [t]) w, Ok tt).

Definition getenv : M environ := fun w => (w, Ok (w_env w)).

(** Reading a local variable that may not have been assigned. *)
Definition load_local {A : Type} (v : option A) : M A :=
  match v with
  | Some a => ret a
  | None => lift (Raise UnboundLocalError)
  end.

(** ** netCDF4 datasets, through their handle *)

Definition nc_empty : dataset :=
  {| nc_attrs := []; nc_dims := []; nc_vars := [] |}.

(** [netCDF4.Dataset(path, 'w', format='NETCDF4')]. *)
Definition nc_open (path : string) : M nat :=
  fun w =>
    let fd := fresh (dom (w_open w)) in
    (set_open (<[fd := path]> (w_open w)) (put_file path (NetCDF nc_empty) w),
     Ok fd).

Definition nc_modify (fd : nat) (f : dataset -> res dataset) : M unit :=
  fun w =>
    match w_open w !! fd with
    | Some path =>
        match w_files w !! path with
        | Some (NetCDF d) =>
            match f d with
            | Ok d' => (put_file path (NetCDF d') w, Ok tt)
            | Raise e => (w, Raise e)
            end
        | _ => (w, Raise ValueError)
        end
    | None => (w, Raise ValueError)
    end.

(** [nc.name = val]. *)
Definition nc_setattr (fd : nat) (name : string) (val : text) : M unit :=
  nc_modify fd (fun d =>
    Ok {| nc_attrs := nc_attrs d ++ [(name, val)]; nc_dims := nc_dims d;
          nc_vars := nc_vars d |}).

(** [nc.createDimension(name, size)]. *)
Definition nc_createDimension (fd : nat) (name : string) (size : nat)
  : M unit :=
  nc_modify fd (fun d =>
    Ok {| nc_attrs := nc_attrs d; nc_dims := nc_dims d ++ [(name, size)];
          nc_vars := nc_vars d |}).

Definition dim_size (d : dataset) (name : string) : option nat :=
  snd <$> find (fun p => String.eqb (fst p) name) (nc_dims d).

(** [nc.createVariable(name, type, dims)]: every dimension must exist. *)
Definition nc_createVariable (fd : nat) (name type : string)
    (dims : list string) : M unit :=
  nc_modify fd (fun d =>
    if forallb (fun n => bool_decide (is_Some (dim_size d n))) dims then
      Ok {| nc_attrs := nc_attrs d; nc_dims := nc_dims d;
            nc_vars := nc_vars d ++
              [{| v_name := name; v_type := type; v_dims := dims;
                  v_attrs := []; v_data := None |}] |}
    else Raise ValueError).

(** Updating the variable called [name]; a [KeyError] when there is none. *)
Fixpoint update_var (name : string) (f : ncvar -> res ncvar)
    (vs : list ncvar) : res (list ncvar) :=
  match vs with
  | [] => Raise KeyError
  | v :: vs' =>
      if String.eqb (v_name v) name then
        match f v with
        | Ok v' => Ok (v' :: vs')
        | Raise e => Raise e
        end
      else
        match update_var name f vs' with
        | Ok vs'' => Ok (v :: vs'')
        | Raise e => Raise e
        end
  end.

Definition nc_update_var (fd : nat) (name : string)
    (f : dataset -> ncvar -> res ncvar) : M unit :=
  nc_modify fd (fun d =>
    match update_var name (f d) (nc_vars d) with
    | Ok vs => Ok {| nc_attrs := nc_attrs d; nc_dims := nc_dims d;
                     nc_vars := vs |}
    | Raise e => Raise e
    end).

(** [nc.variables[name].attr = val]. *)
Definition nc_setvarattr (fd : nat) (name attr : string) (val : text)
  : M unit :=
  nc_update_var fd name (fun _ v =>
    Ok {| v_name := v_name v; v_type := v_type v; v_dims := v_dims v;
          v_attrs := v_attrs v ++ [(attr, val)]; v_data := v_data v |}).

(** [nc.variables[name][:] = a]: the array is copied into the dataset; its
    shape must be the sizes of the variable's dimensions. *)
Definition nc_assign (fd : nat) (name : string) (a : nat) : M unit :=
  fun w =>
    let arr := w_arrays w a in
    nc_update_var fd name (fun d v =>
      if bool_decide (map (dim_size d) (v_dims v) = map Some (shape arr))
      then
        Ok {| v_name := v_name v; v_type := v_type v; v_dims := v_dims v;
              v_attrs := v_attrs v; v_data := Some arr |}
      else Raise ValueError) w.

(* ===================================================================== *)
(** * pynmd.models.swan.pre *)
(* ===================================================================== *)

Module Swan.

(** [write_boundary_spec(freq,spec,locations,outfile,waveTime=None,
    sdir=None)]; the arrays are given by reference. *)
Definition write_boundary_spec (freq spec locations : nat)
    (outfile : string) (waveTime sdir : option nat) : M unit :=
  (* Open the output file *)
  let* fid := open_w outfile in
  (* Write file header *)
  fwrite fid (str "SWAN 1" ++ [nl]) ;;
  (* File locations *)
  fwrite fid (str "LOCATIONS" ++ [nl]) ;;
  let* nloc := shape_at locations 0 in
  fwrite fid (fmt_f 12 0 (float_of_count nloc) ++ [nl]) ;;
  let* nloc := shape_at locations 0 in
  for_range nloc (fun aa =>
    let* lx := item2 locations aa 0 in
    let* sx := lift (pct_f 16 4 lx) in
    let* ly := item2 locations aa 1 in
    let* sy := lift (pct_f 16 4 ly) in
    fwrite fid (sx ++ [sp] ++ sy ++ [nl])) ;;
  (* Frequencies *)
  fwrite fid (str "RFREQ" ++ [nl]) ;;
  let* nf := shape_at freq 0 in
  fwrite fid (fmt_f 12 0 (float_of_count nf) ++ [nl]) ;;
  let* nf := shape_at freq 0 in
  for_range nf (fun aa =>
    let* f := item1 freq aa in
    let* s := lift (pct_f 12 8 f) in
    fwrite fid (s ++ [nl])) ;;
  (* Directions *)
  match sdir with
  | Some sdir =>
      fwrite fid (str "NDIR" ++ [nl]) ;;
      let* nd := shape_at sdir 0 in
      fwrite fid (fmt_f 12 0 (float_of_count nd) ++ [nl]) ;;
      let* nd := shape_at sdir 0 in
      for_range nd (fun aa =>
        let* d := item1 sdir aa in
        let* s := lift (pct_f 16 4 d) in
        fwrite fid (s ++ [nl]))
  | None => ret tt
  end ;;
  (* Number of quantities in table *)
  fwrite fid (str "QUANT" ++ [nl]) ;;
  fwrite fid (str "1" ++ [nl]) ;;
  (* Variance density *)
  fwrite fid (str "VaDens" ++ [nl]) ;;
  fwrite fid (str "m2/Hz/degr" ++ [nl]) ;;
  (* Exception value *)
  fwrite fid (str "-99" ++ [nl]) ;;
  (* Scale factor *)
  fwrite fid (str "FACTOR" ++ [nl]) ;;
  fwrite fid (str "1" ++ [nl]) ;;
  (* Print the spectrum: frequency loop, direction loop *)
  let* n2 := shape_at spec (-2) in
  for_range n2 (fun aa =>
    let* n1 := shape_at spec (-1) in
    for_range n1 (fun bb =>
      let* v := item2 spec aa bb in
      let* s := lift (pct_f 16 10 v) in
      fwrite fid s) ;;
    (* One row per frequency with all directions *)
    fwrite fid [nl]) ;;
  (* Close the file *)
  fclose fid.

End Swan.

(* ===================================================================== *)
(** * pynmd.models.xbeach.pre *)
(* ===================================================================== *)

Module Xbeach.

Definition rule : text :=
  str "===================================================================".

(** [write_bathy(x,z,outfld,y=None,ncsave=True)], block by block as the
    source marks them. First block: "Output the text file". *)
Definition write_bathy_text (x z : nat) (outfld : string) (y : option nat)
  : M unit :=
  match y with
  | Some y =>
      print (str "Writing 2D grids") ;;
      let* fidx := open_w (outfld +:+ "x.grd") in
      let* fidy := open_w (outfld +:+ "y.grd") in
      let* fidz := open_w (outfld +:+ "z.dep") in
      let* n0 := shape_at z 0 in
      for_range n0 (fun aa =>
        let* n1 := shape_at z 1 in
        for_range n1 (fun bb =>
          let* vx := item2 x aa bb in
          let* sx := lift (pct_f 16 4 vx) in
          fwrite fidx sx ;;
          let* vy := item2 y aa bb in
          let* sy := lift (pct_f 16 4 vy) in
          fwrite fidy sy ;;
          let* vz := item2 z aa bb in
          let* sz := lift (pct_f 16 4 vz) in
          fwrite fidz sz) ;;
        fwrite fidx [nl] ;;
        fwrite fidy [nl] ;;
        fwrite fidz [nl]) ;;
      fclose fidx ;;
      fclose fidy ;;
      fclose fidz
  | None =>
      print (str "Writing 1D grids") ;;
      (* Water depth *)
      let* fid := open_w (outfld +:+ "z.dep") in
      let* nz := len z in
      for_range nz (fun aa =>
        let* v := item1 z aa in
        let* s := lift (pct_f 16 4 v) in
        fwrite fid s) ;;
      fwrite fid [nl] ;;
      fclose fid ;;
      (* Coordinates *)
      let* fid := open_w (outfld +:+ "x.grd") in
      let* nx := len x in
      for_range nx (fun aa =>
        let* v := item1 x aa in
        let* s := lift (pct_f 16 4 v) in
        fwrite fid s) ;;
      fwrite fid [nl] ;;
      fclose fid
  end.

(** Second block: "NetCDF File". It is the only place where the locals
    [xi_rho] and [eta_rho] are assigned; the block returns them, [None]
    standing for a local that was not assigned. *)
Definition write_bathy_netcdf (x z : nat) (outfld : string)
    (y : option nat) (ncsave : bool) : M (option nat * option nat) :=
  if ncsave then
    (* Global attributes *)
    let* nc := nc_open (outfld +:+ "depth.nc") in
    let* env := getenv in
    nc_setattr nc "Description" (str "Xbeach Bathymetry") ;;
    nc_setattr nc "Author" (e_user env) ;;
    nc_setattr nc "Created" (e_ctime env) ;;
    nc_setattr nc "Owner"
      (str "Nearshore Modeling Group (http://ozkan.oce.orst.edu/nmg)") ;;
    nc_setattr nc "Software"
      (str "Created with Python " ++ e_version env) ;;
    nc_setattr nc "NetCDF_Lib" (e_nclib env) ;;
    nc_setattr nc "Script" (e_script env) ;;
    (* Create dimensions *)
    let* dims :=
      match y with
      | Some _ =>
          let* xi_rho := shape_at z 1 in
          let* eta_rho := shape_at z 0 in
          nc_createDimension nc "eta_rho" eta_rho ;;
          ret (["eta_rho"; "xi_rho"]%string, xi_rho, Some eta_rho)
      | None =>
          let* xi_rho := shape_at z (-1) in
          ret (["xi_rho"]%string, xi_rho, None)
      end in
    let tmpDims := fst (fst dims) in
    let xi_rho := snd (fst dims) in
    let eta_rho := snd dims in
    nc_createDimension nc "xi_rho" xi_rho ;;
    (* Write coordinates and depth to netcdf file *)
    nc_createVariable nc "x_rho" "f8" tmpDims ;;
    nc_setvarattr nc "x_rho" "units" (str "meter") ;;
    nc_setvarattr nc "x_rho" "long_name"
      (str "x-locations of RHO-points") ;;
    nc_assign nc "x_rho" x ;;
    nc_createVariable nc "h" "f8" tmpDims ;;
    nc_setvarattr nc "h" "units" (str "meter") ;;
    nc_setvarattr nc "h" "long_name" (str "bathymetry at RHO-points") ;;
    nc_assign nc "h" z ;;
    match y with
    | Some y =>
        nc_createVariable nc "y_rho" "f8" tmpDims ;;
        nc_setvarattr nc "y_rho" "units" (str "meter") ;;
        nc_setvarattr nc "y_rho" "long_name"
          (str "y-locations of RHO-points") ;;
        nc_assign nc "y_rho" y
    | None => ret tt
    end ;;
    (* Close NetCDF file *)
    fclose nc ;;
    ret (Some xi_rho, eta_rho)
  else ret (None, None).

(** Third block: "Print input file options", reading [xi_rho] and
    [eta_rho]. *)
Definition write_bathy_report (y : option nat)
    (xi_rho eta_rho : option nat) : M unit :=
  print (str " ") ;;
  print rule ;;
  print (str "In your params.txt:") ;;
  let* xi := load_local xi_rho in
  print (str "  nx = " ++ str_int (Z.of_nat xi - 1)) ;;
  match y with
  | Some _ =>
      let* eta := load_local eta_rho in
      print (str "  ny = " ++ str_int (Z.of_nat eta - 1))
  | None => print (str "  ny = 0")
  end ;;
  print rule.

Definition write_bathy (x z : nat) (outfld : string) (y : option nat)
    (ncsave : bool) : M unit :=
  write_bathy_text x z outfld y ;;
  let* locals := write_bathy_netcdf x z outfld y ncsave in
  write_bathy_report y (fst locals) (snd locals).

(** [write_boundary_spec(freq,spec,locations,outfile,waveTime=None,
    sdir=None,swan=True)]. *)
Definition write_boundary_spec (freq spec locations : nat)
    (outfile : string) (waveTime sdir : option nat) (swan : bool)
  : M unit :=
  if swan then
    print (str "Writting swan formatted input, Instat = 5") ;;
    Swan.write_boundary_spec freq spec locations outfile waveTime sdir
  else
    (* Generic xbeach spectrum *)
    print (str "Writing 2D spectrum for Instat = 6") ;;
    (* Open the output file *)
    let* fid := open_w outfile in
    (* Frequencies *)
    let* nf := shape_at freq 0 in
    fwrite fid (fmt_f 12 0 (float_of_count nf) ++ [nl]) ;;
    let* nf := shape_at freq 0 in
    for_range nf (fun aa =>
      let* f := item1 freq aa in
      let* s := lift (pct_f 12 8 f) in
      fwrite fid (s ++ [nl])) ;;
    (* Directions *)
    match sdir with
    | Some sdir =>
        let* nd := shape_at sdir 0 in
        fwrite fid (fmt_f 12 0 (float_of_count nd) ++ [nl]) ;;
        let* nd := shape_at sdir 0 in
        for_range nd (fun aa =>
          let* d := item1 sdir aa in
          let* s := lift (pct_f 16 4 d) in
          fwrite fid (s ++ [nl]))
    | None => ret tt
    end ;;
    (* Frequency loop, direction loop *)
    let* n2 := shape_at spec (-2) in
    for_range n2 (fun aa =>
      let* n1 := shape_at spec (-1) in
      for_range n1 (fun bb =>
        let* v := item2 spec aa bb in
        let* s := lift (pct_f 16 10 v) in
        fwrite fid s) ;;
      (* One row per frequency with all directions *)
      fwrite fid [nl]) ;;
    (* Close the file *)
    fclose fid.

End Xbeach.

(* ===================================================================== *)
(** * The layouts, in the words of the specification *)
(* ===================================================================== *)

(** A count line: the count as a 12-character field with no decimals. *)
Definition count_line (n : nat) : text :=
  fmt_f 12 0 (float_of_count n) ++ [nl].

(** One line per location: the first two columns as 16-character,
    4-decimal fields with one blank between them. *)
Definition loc_fields (r : list spec_float) : text :=
  match r with
  | x :: y :: _ => fmt_f 16 4 x ++ [sp] ++ fmt_f 16 4 y
  | _ => []
  end.

Definition loc_line (r : list spec_float) : text := loc_fields r ++ [nl].

Definition freq_line (f : spec_float) : text := fmt_f 12 8 f ++ [nl].
Definition dir_line (d : spec_float) : text := fmt_f 16 4 d ++ [nl].

(** One line per frequency: the fields of all directions back to back. *)
Definition data_fields (row : list spec_float) : text :=
  concat (map (fmt_f 16 10) row).

Definition data_line (row : list spec_float) : text :=
  data_fields row ++ [nl].

Definition header_section : text := str "SWAN 1" ++ [nl].

Definition locations_section (locs : list (list spec_float)) : text :=
  str "LOCATIONS" ++ [nl] ++ count_line (length locs) ++
  concat (map loc_line locs).

Definition freq_block (fv : list spec_float) : text :=
  count_line (length fv) ++ concat (map freq_line fv).

Definition rfreq_section (fv : list spec_float) : text :=
  str "RFREQ" ++ [nl] ++ freq_block fv.

Definition dir_block (dv : list spec_float) : text :=
  count_line (length dv) ++ concat (map dir_line dv).

(** Present only when a direction vector is supplied. *)
Definition ndir_section (dv : option (list spec_float)) : text :=
  match dv with
  | Some d => str "NDIR" ++ [nl] ++ dir_block d
  | None => []
  end.

Definition quant_section : text :=
  str "QUANT" ++ [nl] ++ str "1" ++ [nl] ++
  str "VaDens" ++ [nl] ++ str "m2/Hz/degr" ++ [nl] ++
  str "-99" ++ [nl] ++
  str "FACTOR" ++ [nl] ++ str "1" ++ [nl].

Definition data_block (grid : list (list spec_float)) : text :=
  concat (map data_line grid).

(** The standard boundary-spectrum file. *)
Definition swan_layout (fv : list spec_float) (dv : option (list spec_float))
    (locs grid : list (list spec_float)) : text :=
  header_section ++ locations_section locs ++ rfreq_section fv ++
  ndir_section dv ++ quant_section ++ data_block grid.

(** The reduced file of the alternate writer. *)
Definition xbeach_layout (fv : list spec_float)
    (dv : option (list spec_float)) (grid : list (list spec_float)) : text :=
  freq_block fv ++
  match dv with Some d => dir_block d | None => [] end ++
  data_block grid.

(** The same files, line by line. *)
Definition quant_lines : list text :=
  [str "QUANT"; str "1"; str "VaDens"; str "m2/Hz/degr"; str "-99";
   str "FACTOR"; str "1"].

Definition count_field (n : nat) : text := fmt_f 12 0 (float_of_count n).

Definition swan_lines (fv : list spec_float) (dv : option (list spec_float))
    (locs grid : list (list spec_float)) : list text :=
  [str "SWAN 1"; str "LOCATIONS"; count_field (length locs)] ++
  map loc_fields locs ++
  [str "RFREQ"; count_field (length fv)] ++ map (fmt_f 12 8) fv ++
  match dv with
  | Some d => [str "NDIR"; count_field (length d)] ++ map (fmt_f 16 4) d
  | None => []
  end ++
  quant_lines ++ map data_fields grid.

Definition xbeach_lines (fv : list spec_float)
    (dv : option (list spec_float)) (grid : list (list spec_float))
  : list text :=
  [count_field (length fv)] ++ map (fmt_f 12 8) fv ++
  match dv with
  | Some d => [count_field (length d)] ++ map (fmt_f 16 4) d
  | None => []
  end ++
  map data_fields grid.

(** The optional direction argument denotes the vector [dv]. *)
Definition dirs_at (w : world) (sdir : option nat)
    (dv : option (list spec_float)) : Prop :=
  match sdir, dv with
  | Some r, Some d => w_arrays w r = Arr1 d
  | None, None => True
  | _, _ => False
  end.

(** The world in which handle [fd] is open on [p], which holds [c]. *)
Definition wr (fd : nat) (p : string) (c : text) (w : world) : world :=
  set_open (<[fd := p]> (w_open w)) (put_file p (Text c) w).

(** A field read back as a number with [P] decimals that is within half a
    unit in the last place of the exact value of [v]. *)
Definition reads_back (P : nat) (field : text) (v : spec_float) : Prop :=
  exists n num den,
    read_field field = Some (n, P) /\
    exact_scaled P v = Some (num, den) /\
    0 < den /\ 2 * Z.abs (n * den - num) <= den.

(* ===================================================================== *)
(** * Example worlds *)
(* ===================================================================== *)

Definition env0 : environ :=
  {| e_user := str "user"; e_ctime := str "Thu Jan  1 00:00:00 1970";
     e_version := str "3"; e_nclib := str "4"; e_script := str "xbeach_pre.py" |}.

(** A world with the given arrays at references 0, 1, 2, ..., no file and
    no open handle. *)
Definition world_of (arrs : list ndarray) : world :=
  {| w_arrays := fun r => nth r arrs (Arr1 []);
     w_files := ∅; w_open := ∅; w_console := []; w_env := env0 |}.

(** The double nearest to 0.10. *)
Definition f_0_10 : spec_float :=
  S754_finite false 7205759403792794 (-56).

(** [freq=[0.05,0.10]], a 2 x 3 grid of 1.2345678901, one location
    (0, 10), directions [0, 10, 20] at reference 3. *)
Definition ex_freq : list spec_float := [f_0_05; f_0_10].
Definition ex_grid : list (list spec_float) :=
  [[f_1_2345678901; f_1_2345678901; f_1_2345678901];
   [f_1_2345678901; f_1_2345678901; f_1_2345678901]].
Definition ex_locs : list (list spec_float) := [[f_zero; f_ten]].
Definition ex_dirs : list spec_float := [f_zero; f_ten; f_twenty].

Definition ex_world : world :=
  world_of [Arr1 ex_freq; Arr2 3 ex_grid; Arr2 2 ex_locs; Arr1 ex_dirs].

(** A grid holding 100000.0, which needs 17 characters. *)
Definition big_world : world :=
  world_of [Arr1 [f_0_05]; Arr2 1 [[f_1e5]]; Arr2 2 ex_locs].

(** A location whose second coordinate is 0.0625. *)
Definition fine_world : world :=
  world_of [Arr1 [f_0_05]; Arr2 1 [[f_one]]; Arr2 2 [[f_zero; f_sixteenth]]].

(** A location table with a single column. *)
Definition narrow_world : world :=
  world_of [Arr1 [f_0_05]; Arr2 1 [[f_one]]; Arr2 1 [[f_zero]]].

(** Coordinates [0, 10] and depths [1, 20] for the 1-D bathymetry; 2 x 2
    grids at references 2, 3, 4 for the 2-D one. *)
Definition bathy_world : world :=
  world_of [Arr1 [f_zero; f_ten]; Arr1 [f_one; f_twenty];
            Arr2 2 [[f_zero; f_ten]; [f_zero; f_ten]];
            Arr2 2 [[f_zero; f_zero]; [f_ten; f_ten]];
            Arr2 2 [[f_one; f_one]; [f_twenty; f_twenty]]].

(* ===================================================================== *)
(** * Frame conditions and handle discipline *)
(* ===================================================================== *)

(** [m] keeps the invariant [Inv] of the world, whatever it returns. *)
Definition keeps (Inv : world -> Prop) {A : Type} (m : M A) : Prop :=
  forall w, Inv w -> Inv (fst (m w)).

(** Relative to the world [w0] of the call: the arrays and the environment
    are those of [w0], the files outside the paths [P] are those of [w0],
    and the handles [F] that the call has opened are on paths of [P]. *)
Definition within (P : list string) (F : list nat) (w0 w : world) : Prop :=
  (w_arrays w = w_arrays w0 /\ w_env w = w_env w0) /\
  (forall q, ~ In q P -> w_files w !! q = w_files w0 !! q) /\
  (forall fd q, In fd F -> w_open w !! fd = Some q -> In q P).

(** The file at [q] is a netCDF dataset. *)
Definition is_nc (q : string) (w : world) : Prop :=
  exists d, w_files w !! q = Some (NetCDF d).

(** When [m] returns normally, the open handles are those of before less
    the handles [fds]. *)
Definition closes (fds : list nat) {A : Type} (m : M A) : Prop :=
  forall w w' a, m w = (w', Ok a) ->
                 w_open w' = foldr delete (w_open w) fds.

(** The files that [write_bathy] may write. *)
Definition bathy_paths (outfld : string) : list string :=
  [outfld +:+ "x.grd"; outfld +:+ "y.grd"; outfld +:+ "z.dep";
   outfld +:+ "depth.nc"]%string.

(** A call of one of the writers, and the files that it may write. *)
Inductive writer_call : Type :=
  | SwanSpec (freq spec locations : nat) (outfile : string)
      (waveTime sdir : option nat)
  | XbeachSpec (freq spec locations : nat) (outfile : string)
      (waveTime sdir : option nat) (swan : bool)
  | Bathy (x z : nat) (outfld : string) (y : option nat) (ncsave : bool).

Definition run_call (c : writer_call) : M unit :=
  match c with
  | SwanSpec freq spec locations outfile waveTime sdir =>
      Swan.write_boundary_spec freq spec locations outfile waveTime sdir
  | XbeachSpec freq spec locations outfile waveTime sdir swan =>
      Xbeach.write_boundary_spec freq spec locations outfile waveTime sdir
        swan
  | Bathy x z outfld y ncsave => Xbeach.write_bathy x z outfld y ncsave
  end.

Definition call_paths (c : writer_call) : list string :=
  match c with
  | SwanSpec _ _ _ outfile _ _ => [outfile]
  | XbeachSpec _ _ _ outfile _ _ _ => [outfile]
  | Bathy _ _ outfld _ _ => bathy_paths outfld
  end.

(* ===================================================================== *)
(** * The grid files, in the words of the specification *)
(* ===================================================================== *)

(** One row of a grid: its ['%16.4f'] fields back to back. *)
Definition bathy_row (row : list spec_float) : text :=
  concat (map (fmt_f 16 4) row).

(** The rows that a grid file holds: the whole vector as a single row in
    1-D mode, the rows of the array in 2-D mode. *)
Definition grid_rows (a : ndarray) : list (list spec_float) :=
  match a with
  | Arr1 v => [v]
  | Arr2 _ rows => rows
  end.

(** One text line per row. *)
Definition grid_text (a : ndarray) : text :=
  unlines (map bathy_row (grid_rows a)).

(** What [write_bathy] expects: vectors in 1-D mode ([y] omitted),
    rectangular arrays of one common shape in 2-D mode. *)
Definition bathy_input (w : world) (x z : nat) (y : option nat) : Prop :=
  match y with
  | None =>
      exists xv zv, w_arrays w x = Arr1 xv /\ w_arrays w z = Arr1 zv
  | Some y =>
      exists nc xr yr zr,
        w_arrays w x = Arr2 nc xr /\ w_arrays w y = Arr2 nc yr /\
        w_arrays w z = Arr2 nc zr /\
        wf_array (Arr2 nc xr) /\ wf_array (Arr2 nc yr) /\
        wf_array (Arr2 nc zr) /\
        length xr = length zr /\ length yr = length zr
  end.

(** The world in which three handles are open on three files. *)
Definition wr3 (fx fy fz : nat) (px py pz : string) (c : text * text * text)
    (w : world) : world :=
  set_open (<[fz := pz]> (<[fy := py]> (<[fx := px]> (w_open w))))
    (set_files
       (<[pz := Text (snd c)]>
          (<[py := Text (snd (fst c))]>
             (<[px := Text (fst (fst c))]> (w_files w)))) w).

(** Characters of the numeric lines of a file: those of a rendered number,
    and the newline. *)
Definition plain_char (c : ascii) : bool :=
  numeric_char c || Ascii.eqb c nl.

(** The text [c] holds no occurrence of [tok] and does not end with a
    character of [tok]: whatever is appended, no occurrence can straddle
    the junction. *)
Definition clean (tok c : text) : Prop :=
  ~ occurs_in tok c /\
  (c = [] \/ exists c' x, c = c' ++ [x] /\ ~ In x tok).

Definition cleanb (tok c : text) : bool :=
  negb (occursb tok c) &&
  match rev c with
  | [] => true
  | x :: _ => negb (existsb (Ascii.eqb x) tok)
  end.

(** Whenever the file at [p] is a text file, its content satisfies [Q]. *)
Definition file_sat (Q : text -> Prop) (p : string) (w : world) : Prop :=
  forall c, w_files w !! p = Some (Text c) -> Q c.

(** [m] does not look at the console and does not print: run with another
    console, it does the same and leaves that console as it is. *)
Definition console_blind {A : Type} (m : M A) : Prop :=
  forall c w, m (set_console c w) = (set_console c (fst (m w)), snd (m w)).

(** [a.shape[0]]. *)
Definition shape0 (a : ndarray) : nat :=
  match a with
  | Arr1 v => length v
  | Arr2 _ rows => length rows
  end.

(** A non-empty location argument that is not a table of (x, y) pairs: a
    vector, or a table of fewer than two columns. *)
Definition bad_locations (a : ndarray) : Prop :=
  (0 < shape0 a)%nat /\
  match a with
  | Arr1 _ => True
  | Arr2 lc rows => (lc < 2)%nat /\ wf_array (Arr2 lc rows)
  end.

(** Zeros and finite numbers, the doubles that ['%f'] renders in digits. *)
Definition is_finite (v : spec_float) : bool :=
  match v with
  | S754_zero _ | S754_finite _ _ _ => true
  | _ => false
  end.

(** What the standard writer expects: a frequency vector, a rectangular
    grid, a location table of at least two columns and, when given, a
    direction vector. *)
Definition spectrum_input (w : world) (freq spec locations : nat)
    (sdir : option nat) : Prop :=
  exists fv dv lc gc locs grid,
    w_arrays w freq = Arr1 fv /\
    w_arrays w spec = Arr2 gc grid /\ wf_array (Arr2 gc grid) /\
    w_arrays w locations = Arr2 lc locs /\ wf_array (Arr2 lc locs) /\
    (2 <= lc)%nat /\
    dirs_at w sdir dv.

(** A frequency of 100000 Hz, which needs 15 characters with 8 decimals. *)
Definition wide_world : world :=
  world_of [Arr1 [f_1e5]; Arr2 1 [[f_one]]; Arr2 2 ex_locs].

(** The world in which the dataset handle [fd] is open on [p], which holds
    [d]. *)
Definition wrn (fd : nat) (p : string) (d : dataset) (w : world) : world :=
  set_open (<[fd := p]> (w_open w)) (put_file p (NetCDF d) w).

(* ===================================================================== *)
(** * The netCDF mirror and the report, in the words of the specification *)
(* ===================================================================== *)

(** The global descriptive attributes. *)
Definition mirror_attrs (env : environ) : list (string * text) :=
  [("Description"%string, str "Xbeach Bathymetry");
   ("Author"%string, e_user env);
   ("Created"%string, e_ctime env);
   ("Owner"%string,
    str "Nearshore Modeling Group (http://ozkan.oce.orst.edu/nmg)");
   ("Software"%string, str "Created with Python " ++ e_version env);
   ("NetCDF_Lib"%string, e_nclib env);
   ("Script"%string, e_script env)].

(** A variable of doubles in meters, holding the array [a]. *)
Definition mirror_var (name : string) (long_name : text)
    (dims : list string) (a : ndarray) : ncvar :=
  {| v_name := name; v_type := "f8"; v_dims := dims;
     v_attrs := [("units"%string, str "meter");
                 ("long_name"%string, long_name)];
     v_data := Some a |}.

Definition mirror_dims (y : option nat) : list string :=
  match y with
  | Some _ => ["eta_rho"; "xi_rho"]%string
  | None => ["xi_rho"]%string
  end.

(** The dataset: the dimensions named after the axes of [z], the variables
    [x_rho] and [h], and [y_rho] in 2-D mode. *)
Definition bathy_mirror (w : world) (x z : nat) (y : option nat) : dataset :=
  {| nc_attrs := mirror_attrs (w_env w);
     nc_dims := combine (mirror_dims y) (shape (w_arrays w z));
     nc_vars :=
       [mirror_var "x_rho" (str "x-locations of RHO-points") (mirror_dims y)
          (w_arrays w x);
        mirror_var "h" (str "bathymetry at RHO-points") (mirror_dims y)
          (w_arrays w z)] ++
       match y with
       | Some yr =>
           [mirror_var "y_rho" (str "y-locations of RHO-points")
              (mirror_dims y) (w_arrays w yr)]
       | None => []
       end |}.

(** The report: the number of columns less one, and the number of rows
    less one in 2-D mode, 0 in 1-D mode. *)
Definition report_lines (nx ny : Z) : list text :=
  [str " "; Xbeach.rule; str "In your params.txt:";
   str "  nx = " ++ str_int nx; str "  ny = " ++ str_int ny; Xbeach.rule].

Definition bathy_console (a : ndarray) (y : option nat) : list text :=
  match y, a with
  | None, _ =>
      str "Writing 1D grids" :: report_lines (Z.of_nat (shape0 a) - 1) 0
  | Some _, Arr2 nc rows =>
      str "Writing 2D grids" ::
      report_lines (Z.of_nat nc - 1) (Z.of_nat (length rows) - 1)
  | Some _, Arr1 _ => []
  end.

(** The text files of a call and the argument that each one renders. *)
Definition bathy_outputs (x z : nat) (y : option nat)
  : list (string * nat) :=
  [("x.grd"%string, x); ("z.dep"%string, z)] ++
  match y with
  | Some yr => [("y.grd"%string, yr)]
  | None => []
  end.

(** The first console line of [write_bathy]. *)
Definition mode_line (y : option nat) : text :=
  match y with
  | Some _ => str "Writing 2D grids"
  | None => str "Writing 1D grids"
  end.

(** A 2 x 2 depth grid passed in 1-D mode, and a depth vector passed in
    2-D mode. *)
Definition mismatch_world : world :=
  world_of [Arr1 [f_zero; f_ten];
            Arr2 2 [[f_one; f_one]; [f_twenty; f_twenty]];
            Arr1 [f_one; f_twenty]].

(** A grid row holding NaN and minus infinity. *)
Definition nan_world : world :=
  world_of [Arr1 [f_0_05]; Arr2 2 [[S754_nan; S754_infinity true]];
            Arr2 2 ex_locs].

(** The lines of the sections that precede the data block. *)
Definition section_lines (fv : list spec_float)
    (dv : option (list spec_float)) (locs : list (list spec_float))
  : list text :=
  [str "SWAN 1"; str "LOCATIONS"; count_field (length locs)] ++
  map loc_fields locs ++
  [str "RFREQ"; count_field (length fv)] ++ map (fmt_f 12 8) fv ++
  match dv with
  | Some d => [str "NDIR"; count_field (length d)] ++ map (fmt_f 16 4) d
  | None => []
  end ++
  quant_lines.

(** The same grid with a direction vector of one entry at reference 3. *)
Definition big_dirs_world : world :=
  world_of [Arr1 [f_0_05]; Arr2 1 [[f_1e5]]; Arr2 2 ex_locs; Arr1 [f_zero]].

(* ===================================================================== *)
(** * Properties of the formatting *)
(* ===================================================================== *)

Example fmt_ex1 : fmt_f 16 4 f_ten = str "         10.0000".
Proof. reflexivity. Qed.
Example fmt_ex2 : fmt_f 12 8 f_0_05 = str "  0.05000000".
Proof. vm_compute. reflexivity. Qed.
Example fmt_ex3 : fmt_f 16 10 f_1_2345678901 = str "    1.2345678901".
Proof. vm_compute. reflexivity. Qed.
Example fmt_ex4 : fmt_f 12 0 (float_of_count 3) = str "           3".
Proof. vm_compute. reflexivity. Qed.
Example fmt_ex5 : fmt_f 16 10 f_1e5 = str "100000.0000000000".
Proof. vm_compute. reflexivity. Qed.
Example fmt_ex6 : fmt_f 16 4 (S754_finite true 1 (-20)) = str "         -0.0000".
Proof. vm_compute. reflexivity. Qed.
Example read_ex1 : read_field (fmt_f 16 4 f_sixteenth) = Some (625, 4%nat).
Proof. vm_compute. reflexivity. Qed.

Section Digits.

Lemma digit_char_is_digit (d : Z) : d < 10 -> is_digit (digit_char d) = true.
Proof.
  intros Hd. unfold digit_char.
  assert (Hk : (Z.to_nat d < 10)%nat) by lia.
  revert Hk. generalize (Z.to_nat d). intros k Hk.
  do 10 (destruct k as [|k]; [reflexivity|]). lia.
Qed.

Lemma digit_val_char (d : Z) : 0 <= d < 10 -> digit_val (digit_char d) = d.
Proof.
  intros Hd. unfold digit_char, digit_val.
  rewrite nat_ascii_embedding by lia. lia.
Qed.

Lemma mod10_lt (n : Z) : n mod 10 < 10.
Proof. pose proof (Z.mod_pos_bound n 10). lia. Qed.

Lemma digits_fuel_all_digits (f : nat) (n : Z) :
  Forall (fun c => is_digit c = true) (digits_fuel f n).
Proof.
  revert n. induction f as [|f IH]; intros n; simpl; [constructor|].
  destruct (Z.ltb_spec n 10).
  - constructor; [now apply digit_char_is_digit | constructor].
  - apply Forall_app. split; [apply IH|].
    constructor; [apply digit_char_is_digit, mod10_lt | constructor].
Qed.

Lemma digits_all_digits (n : Z) : Forall (fun c => is_digit c = true) (digits n).
Proof. apply digits_fuel_all_digits. Qed.

Lemma frac_digits_all_digits (p : nat) (r : Z) :
  Forall (fun c => is_digit c = true) (frac_digits p r).
Proof.
  revert r. induction p as [|p IH]; intros r; simpl; [constructor|].
  apply Forall_app. split; [apply IH|].
  constructor; [apply digit_char_is_digit, mod10_lt | constructor].
Qed.

Lemma frac_digits_length (p : nat) (r : Z) : length (frac_digits p r) = p.
Proof.
  revert r. induction p as [|p IH]; intros r; simpl; [reflexivity|].
  rewrite length_app, IH. simpl. lia.
Qed.

(** A number below [10^k] has at most [k] digits. *)
Lemma digits_fuel_length_le (f : nat) (n : Z) (k : nat) :
  (1 <= k)%nat -> n < 10 ^ Z.of_nat k -> (length (digits_fuel f n) <= k)%nat.
Proof.
  revert n k. induction f as [|f IH]; intros n k Hk Hn; simpl; [lia|].
  destruct (Z.ltb_spec n 10) as [Hlt|Hge]; simpl; [lia|].
  rewrite length_app. simpl.
  destruct k as [|[|k]]; [lia| simpl in Hn; lia |].
  assert (n / 10 < 10 ^ Z.of_nat (S k)).
  { apply Z.div_lt_upper_bound; [lia|].
    replace (Z.of_nat (S (S k))) with (Z.of_nat (S k) + 1) in Hn by lia.
    rewrite Z.pow_add_r in Hn by lia. lia. }
  specialize (IH (n / 10) (S k)). lia.
Qed.

Lemma digits_length_le (n : Z) (k : nat) :
  (1 <= k)%nat -> n < 10 ^ Z.of_nat k -> (length (digits n) <= k)%nat.
Proof. apply digits_fuel_length_le. Qed.

(** With enough fuel, a number of at least [10^k] has more than [k] digits. *)
Lemma digits_fuel_length_gt (f : nat) (n : Z) (k : nat) :
  0 <= n < 2 ^ Z.of_nat f -> 10 ^ Z.of_nat k <= n ->
  (k < length (digits_fuel f n))%nat.
Proof.
  revert n k. induction f as [|f IH]; intros n k Hf Hn.
  - simpl in Hf. assert (0 < 10 ^ Z.of_nat k) by (apply Z.pow_pos_nonneg; lia). lia.
  - simpl. destruct (Z.ltb_spec n 10) as [Hlt|Hge]; simpl.
    + destruct k as [|k]; [lia|].
      replace (Z.of_nat (S k)) with (Z.of_nat k + 1) in Hn by lia.
      rewrite Z.pow_add_r in Hn by lia.
      assert (0 < 10 ^ Z.of_nat k) by (apply Z.pow_pos_nonneg; lia). lia.
    + rewrite length_app. simpl.
      destruct k as [|k]; [lia|].
      assert (k < length (digits_fuel f (n / 10)))%nat; [|lia].
      apply IH.
      * replace (Z.of_nat (S f)) with (Z.of_nat f + 1) in Hf by lia.
        rewrite Z.pow_add_r in Hf by lia.
        split; [apply Z.div_pos; lia|].
        apply Z.div_lt_upper_bound; lia.
      * replace (Z.of_nat (S k)) with (Z.of_nat k + 1) in Hn by lia.
        rewrite Z.pow_add_r in Hn by lia.
        apply Z.div_le_lower_bound; lia.
Qed.

Lemma digits_fuel_enough (n : Z) :
  0 <= n -> 0 <= n < 2 ^ Z.of_nat (S (Z.to_nat (Z.log2 n))).
Proof.
  intros Hn. split; [lia|].
  destruct (Z.eq_dec n 0) as [->|Hne]; [reflexivity|].
  pose proof (Z.log2_spec n ltac:(lia)) as [_ H].
  pose proof (Z.log2_nonneg n).
  replace (Z.of_nat (S (Z.to_nat (Z.log2 n)))) with (Z.succ (Z.log2 n)) by lia.
  exact H.
Qed.

Lemma digits_length_gt (n : Z) (k : nat) :
  0 <= n -> 10 ^ Z.of_nat k <= n -> (k < length (digits n))%nat.
Proof.
  intros H0 Hn. apply digits_fuel_length_gt; [now apply digits_fuel_enough | exact Hn].
Qed.

Lemma digits_fuel_head (f : nat) (n : Z) :
  exists c t, digits_fuel (S f) n = c :: t /\ is_digit c = true.
Proof.
  revert n. induction f as [|f IH]; intros n.
  - simpl. destruct (Z.ltb_spec n 10).
    + eexists _, _. split; [reflexivity|]. now apply digit_char_is_digit.
    + eexists _, _. split; [reflexivity|]. apply digit_char_is_digit, mod10_lt.
  - change (digits_fuel (S (S f)) n) with
      (if n <? 10 then [digit_char n]
       else digits_fuel (S f) (n / 10) ++ [digit_char (n mod 10)]).
    destruct (Z.ltb_spec n 10).
    + eexists _, _. split; [reflexivity|]. now apply digit_char_is_digit.
    + destruct (IH (n / 10)) as (c & t & -> & Hc).
      eexists _, _. split; [reflexivity|]. exact Hc.
Qed.

Lemma digits_head (n : Z) :
  exists c t, digits n = c :: t /\ is_digit c = true.
Proof. apply digits_fuel_head. Qed.

Lemma read_int_digit (d acc : Z) (rest : text) :
  0 <= d < 10 ->
  read_int acc (digit_char d :: rest) = read_int (10 * acc + d) rest.
Proof.
  intros Hd. cbn [read_int].
  rewrite digit_char_is_digit by lia. now rewrite digit_val_char.
Qed.

Lemma read_frac_digit (d acc : Z) (k : nat) (rest : text) :
  0 <= d < 10 ->
  read_frac acc k (digit_char d :: rest) = read_frac (10 * acc + d) (S k) rest.
Proof.
  intros Hd. cbn [read_frac].
  rewrite digit_char_is_digit by lia. now rewrite digit_val_char.
Qed.

Lemma pow_succ_nat (b : Z) (k : nat) : b ^ Z.of_nat (S k) = b * b ^ Z.of_nat k.
Proof. rewrite Nat2Z.inj_succ. apply Z.pow_succ_r. lia. Qed.

Lemma read_int_digits_fuel (f : nat) (n acc : Z) (rest : text) :
  0 <= n < 2 ^ Z.of_nat f ->
  read_int acc (digits_fuel f n ++ rest) =
  read_int (acc * 10 ^ Z.of_nat (length (digits_fuel f n)) + n) rest.
Proof.
  revert n acc rest. induction f as [|f IH]; intros n acc rest Hn.
  - cbn [digits_fuel app length]. change (2 ^ Z.of_nat 0) with 1 in Hn.
    f_equal. change (10 ^ Z.of_nat 0) with 1. lia.
  - cbn [digits_fuel]. destruct (Z.ltb_spec n 10) as [Hlt|Hge].
    + cbn [app length]. rewrite read_int_digit by lia.
      f_equal. change (10 ^ Z.of_nat 1) with 10. lia.
    + rewrite <- app_assoc. cbn [app].
      assert (Hq : 0 <= n / 10 < 2 ^ Z.of_nat f).
      { rewrite pow_succ_nat in Hn.
        split; [apply Z.div_pos; lia|].
        apply Z.div_lt_upper_bound; lia. }
      rewrite IH by exact Hq.
      rewrite read_int_digit by (apply Z.mod_pos_bound; lia).
      f_equal. rewrite length_app. cbn [length].
      rewrite Nat.add_1_r, pow_succ_nat.
      pose proof (Z.div_mod n 10 ltac:(lia)). lia.
Qed.

Lemma read_int_digits (n acc : Z) (rest : text) :
  0 <= n ->
  read_int acc (digits n ++ rest) =
  read_int (acc * 10 ^ Z.of_nat (length (digits n)) + n) rest.
Proof.
  intros Hn. apply read_int_digits_fuel. now apply digits_fuel_enough.
Qed.

Lemma read_frac_digits (p : nat) (r acc : Z) (k : nat) (rest : text) :
  0 <= r ->
  read_frac acc k (frac_digits p r ++ rest) =
  read_frac (acc * 10 ^ Z.of_nat p + r mod 10 ^ Z.of_nat p) (k + p) rest.
Proof.
  revert r acc k rest. induction p as [|p IH]; intros r acc k rest Hr.
  - cbn [frac_digits app]. change (10 ^ Z.of_nat 0) with 1.
    rewrite Z.mod_1_r. f_equal; lia.
  - cbn [frac_digits]. rewrite <- app_assoc. cbn [app].
    rewrite IH by (apply Z.div_pos; lia).
    rewrite read_frac_digit by (apply Z.mod_pos_bound; lia).
    f_equal; [|lia].
    rewrite pow_succ_nat.
    assert (Hp : 0 < 10 ^ Z.of_nat p) by (apply Z.pow_pos_nonneg; lia).
    rewrite (Z.rem_mul_r r 10 (10 ^ Z.of_nat p)) by lia. lia.
Qed.

End Digits.

Section Formatting.

Lemma pow10_pos (k : nat) : 0 < 10 ^ Z.of_nat k.
Proof. apply Z.pow_pos_nonneg; lia. Qed.

Lemma round_half_even_nonneg (num den : Z) :
  0 <= num -> 0 < den -> 0 <= round_half_even num den.
Proof.
  intros Hn Hd. unfold round_half_even.
  assert (0 <= num / den) by (apply Z.div_pos; lia).
  destruct (2 * (num mod den) <? den); [lia|].
  destruct (den <? 2 * (num mod den)); [lia|].
  destruct (Z.even (num / den)); lia.
Qed.

(** The rounded quotient is within half a unit of the exact one. *)
Lemma round_half_even_close (num den : Z) :
  0 < den -> 2 * Z.abs (round_half_even num den * den - num) <= den.
Proof.
  intros Hd. unfold round_half_even.
  pose proof (Z.div_mod num den ltac:(lia)) as E.
  pose proof (Z.mod_pos_bound num den Hd) as B.
  set (q := num / den) in *. set (r := num mod den) in *.
  assert (E1 : q * den - num = - r) by lia.
  assert (E2 : (q + 1) * den - num = den - r) by lia.
  destruct (Z.ltb_spec (2 * r) den).
  - rewrite E1. lia.
  - destruct (Z.ltb_spec den (2 * r)).
    + rewrite E2. lia.
    + destruct (Z.even q); [rewrite E1 | rewrite E2]; lia.
Qed.

Lemma scaled_nonneg (P : nat) (m : positive) (e : Z) : 0 <= scaled P m e.
Proof.
  unfold scaled. pose proof (pow10_pos P).
  destruct (Z.leb_spec 0 e).
  - assert (0 < 2 ^ e) by (apply Z.pow_pos_nonneg; lia).
    apply Z.mul_nonneg_nonneg; [apply Z.mul_nonneg_nonneg|]; lia.
  - apply round_half_even_nonneg.
    + apply Z.mul_nonneg_nonneg; lia.
    + apply Z.pow_pos_nonneg; lia.
Qed.

Lemma rjust_length (W : nat) (t : text) :
  length (rjust W t) = Nat.max W (length t).
Proof. unfold rjust. rewrite length_app, repeat_length. lia. Qed.

Lemma fmt_f_length_ge (W P : nat) (v : spec_float) :
  (W <= length (fmt_f W P v))%nat.
Proof. unfold fmt_f. rewrite rjust_length. lia. Qed.

Lemma fixed_length (P : nat) (n : Z) :
  length (fixed P n) =
  (length (digits (n / 10 ^ Z.of_nat P)) +
   match P with O => 0 | S _ => 1 + P end)%nat.
Proof.
  unfold fixed. rewrite length_app. destruct P as [|P]; [reflexivity|].
  cbn [length]. now rewrite frac_digits_length.
Qed.

Lemma fixed_length_le (P k : nat) (n : Z) :
  (1 <= k)%nat -> 0 <= n -> n < 10 ^ Z.of_nat (P + k) ->
  (length (fixed P n) <= k + match P with O => 0 | S _ => 1 + P end)%nat.
Proof.
  intros Hk H0 Hn. rewrite fixed_length.
  assert (length (digits (n / 10 ^ Z.of_nat P)) <= k)%nat; [|lia].
  apply digits_length_le; [exact Hk|].
  apply Z.div_lt_upper_bound; [apply pow10_pos|].
  rewrite Nat2Z.inj_add, Z.pow_add_r in Hn by lia. exact Hn.
Qed.

(** A value that fits is rendered in exactly [W] characters. *)
Lemma fmt_f_length_fits (W P : nat) (v : spec_float) :
  fits_field W P v = true -> length (fmt_f W P v) = W.
Proof.
  intros Hfit. unfold fmt_f. rewrite rjust_length.
  assert (length (float_body P v) <= W)%nat; [|lia].
  destruct v as [s|s| |s m e]; cbn [fits_field] in Hfit; try discriminate;
    cbn [float_body]; rewrite length_app.
  - apply Nat.leb_le in Hfit.
    pose proof (fixed_length_le P (int_room W P s) 0 Hfit ltac:(lia)
                  (pow10_pos _)) as HL.
    unfold int_room in *. destruct s, P; cbn [sign_text length] in *; lia.
  - apply andb_true_iff in Hfit as [Hroom Hlt].
    apply Nat.leb_le in Hroom. apply Z.ltb_lt in Hlt.
    pose proof (fixed_length_le P (int_room W P s) _ Hroom
                  (scaled_nonneg P m e) Hlt) as HL.
    unfold int_room in *. destruct s, P; cbn [sign_text length] in *; lia.
Qed.

Lemma digits_length_pos (n : Z) : (1 <= length (digits n))%nat.
Proof. destruct (digits_head n) as (c & t & -> & _). cbn [length]. lia. Qed.

(** A finite value that does not fit is rendered in more than [W]
    characters: [fits_field] is exactly the condition under which the
    width is kept. *)
Lemma fmt_f_length_overflow (W P : nat) (v : spec_float) (n : Z) :
  decimal_round P v = Some n -> fits_field W P v = false ->
  (W < length (fmt_f W P v))%nat.
Proof.
  intros Hfin Hfit. unfold fmt_f. rewrite rjust_length.
  assert (W < length (float_body P v))%nat; [|lia].
  destruct v as [s|s| |s m e]; cbn [decimal_round] in Hfin;
    try discriminate; cbn [fits_field] in Hfit; cbn [float_body];
    rewrite length_app, fixed_length.
  - apply Nat.leb_gt in Hfit.
    pose proof (digits_length_pos (0 / 10 ^ Z.of_nat P)).
    unfold int_room in Hfit. destruct s, P; cbn [sign_text length] in *; lia.
  - pose proof (digits_length_pos (scaled P m e / 10 ^ Z.of_nat P)) as Hpos.
    apply andb_false_iff in Hfit as [Hroom | Hbig].
    + apply Nat.leb_gt in Hroom. unfold int_room in Hroom.
      destruct s, P; cbn [sign_text length] in *; lia.
    + apply Z.ltb_ge in Hbig.
      destruct (Nat.leb_spec 1 (int_room W P s)) as [Hroom|Hroom].
      * assert (Hd : (int_room W P s <
                      length (digits (scaled P m e / 10 ^ Z.of_nat P)))%nat).
        { apply digits_length_gt.
          - apply Z.div_pos; [apply scaled_nonneg | apply pow10_pos].
          - apply Z.div_le_lower_bound; [apply pow10_pos|].
            rewrite <- Z.pow_add_r, <- Nat2Z.inj_add by lia. exact Hbig. }
        unfold int_room in *.
        destruct s, P; cbn [sign_text length] in *; lia.
      * unfold int_room in Hroom.
        destruct s, P; cbn [sign_text length] in *; lia.
Qed.

Lemma digit_numeric (c : ascii) : is_digit c = true -> numeric_char c = true.
Proof. intros H. unfold numeric_char. now rewrite H. Qed.

Lemma fixed_numeric (P : nat) (n : Z) :
  Forall (fun c => numeric_char c = true) (fixed P n).
Proof.
  unfold fixed. apply Forall_app. split.
  - eapply Forall_impl; [apply digits_all_digits | apply digit_numeric].
  - destruct P as [|P]; [constructor|].
    constructor; [reflexivity|].
    eapply Forall_impl; [apply frac_digits_all_digits | apply digit_numeric].
Qed.

Lemma sign_numeric (s : bool) :
  Forall (fun c => numeric_char c = true) (sign_text s).
Proof. destruct s; repeat constructor. Qed.

Lemma fmt_f_numeric (W P : nat) (v : spec_float) :
  Forall (fun c => numeric_char c = true) (fmt_f W P v).
Proof.
  unfold fmt_f, rjust. apply Forall_app. split.
  - apply List.Forall_forall. intros c Hc. apply repeat_spec in Hc. now subst.
  - destruct v as [s|s| |s m e]; cbn [float_body].
    + apply Forall_app. split; [apply sign_numeric | apply fixed_numeric].
    + apply Forall_app. split; [apply sign_numeric | repeat constructor].
    + repeat constructor.
    + apply Forall_app. split; [apply sign_numeric | apply fixed_numeric].
Qed.

Lemma existsb_digit_head (c : ascii) (t : text) :
  is_digit c = true -> existsb is_digit (c :: t) = true.
Proof. intros H. cbn [existsb]. now rewrite H. Qed.

(** Reading the digits of [fixed P n] gives [n] back, with [P] decimals. *)
Lemma read_unsigned_fixed (P : nat) (n : Z) :
  0 <= n -> read_unsigned (fixed P n) = Some (n, P).
Proof.
  intros Hn. unfold read_unsigned, fixed.
  pose proof (pow10_pos P) as Hp.
  assert (Hq : 0 <= n / 10 ^ Z.of_nat P) by (apply Z.div_pos; lia).
  destruct (digits_head (n / 10 ^ Z.of_nat P)) as (c & t & E & Hc).
  replace (existsb is_digit _) with true
    by (rewrite E; cbn [app existsb]; now rewrite Hc).
  rewrite read_int_digits by exact Hq.
  destruct P as [|P].
  - cbn [read_int]. change (10 ^ Z.of_nat 0) with 1.
    rewrite Z.div_1_r. f_equal; f_equal; lia.
  - cbn [read_int]. change (is_digit ".") with false.
    change (Ascii.eqb "." ".") with true. cbv iota.
    rewrite <- (app_nil_r (frac_digits _ _)).
    rewrite read_frac_digits by (apply Z.mod_pos_bound; lia).
    cbn [read_frac]. rewrite Z.mod_mod by lia.
    pose proof (Z.div_mod n (10 ^ Z.of_nat (S P)) ltac:(lia)).
    f_equal; f_equal; lia.
Qed.

Lemma drop_blanks_repeat (k : nat) (t : text) :
  drop_blanks (repeat sp k ++ t) = drop_blanks t.
Proof. induction k as [|k IH]; [reflexivity|]. cbn. exact IH. Qed.

Lemma is_digit_not_blank (c : ascii) :
  is_digit c = true -> Ascii.eqb c sp = false.
Proof.
  intros H. destruct (Ascii.eqb_spec c sp) as [->|]; [discriminate H|reflexivity].
Qed.

Lemma is_digit_not_minus (c : ascii) :
  is_digit c = true -> Ascii.eqb c "-"%char = false.
Proof.
  intros H. destruct (Ascii.eqb_spec c "-"%char) as [->|]; [discriminate H|reflexivity].
Qed.

Lemma fixed_head (P : nat) (n : Z) :
  exists c t, fixed P n = c :: t /\ is_digit c = true.
Proof.
  unfold fixed. destruct (digits_head (n / 10 ^ Z.of_nat P)) as (c & t & -> & Hc).
  now exists c, (t ++ match P with O => [] | S _ => "."%char :: frac_digits P (n mod 10 ^ Z.of_nat P) end).
Qed.

Lemma read_field_signed (W P : nat) (s : bool) (n : Z) :
  0 <= n ->
  read_field (rjust W (sign_text s ++ fixed P n)) =
  Some (if s then - n else n, P).
Proof.
  intros Hn. unfold read_field, rjust. rewrite drop_blanks_repeat.
  pose proof (read_unsigned_fixed P n Hn) as R.
  destruct (fixed_head P n) as (c & t & E & Hc).
  destruct s; cbn [sign_text app].
  - cbn [drop_blanks]. change (Ascii.eqb "-" sp) with false. cbv iota.
    change (Ascii.eqb "-" "-") with true. cbv iota. now rewrite R.
  - rewrite E in *. cbn [drop_blanks].
    rewrite (is_digit_not_blank c Hc), (is_digit_not_minus c Hc). exact R.
Qed.

(** Reading a rendered finite double gives its rounded decimal. *)
Lemma read_field_fmt_f (W P : nat) (v : spec_float) (n : Z) :
  decimal_round P v = Some n -> read_field (fmt_f W P v) = Some (n, P).
Proof.
  intros Hv. unfold fmt_f.
  destruct v as [s|s| |s m e]; cbn [decimal_round] in Hv; try discriminate;
    injection Hv as <-; cbn [float_body].
  - rewrite read_field_signed by lia. now destruct s.
  - apply read_field_signed, scaled_nonneg.
Qed.

(** The rounded decimal is within half a unit in the last place of the
    exact value. *)
Lemma decimal_round_close (P : nat) (v : spec_float) (n num den : Z) :
  decimal_round P v = Some n -> exact_scaled P v = Some (num, den) ->
  0 < den /\ 2 * Z.abs (n * den - num) <= den.
Proof.
  intros Hn Hx.
  destruct v as [s|s| |s m e]; cbn [decimal_round exact_scaled] in *;
    try discriminate.
  - injection Hn as <-. injection Hx as <- <-. lia.
  - injection Hn as <-. unfold scaled.
    destruct (Z.leb_spec 0 e).
    + injection Hx as <- <-. destruct s; lia.
    + injection Hx as <- <-.
      assert (Hd : 0 < 2 ^ (- e)) by (apply Z.pow_pos_nonneg; lia).
      split; [exact Hd|].
      pose proof (round_half_even_close (Z.pos m * 10 ^ Z.of_nat P) _ Hd) as C.
      set (R := round_half_even _ _) in *. set (X := Z.pos m * _) in *.
      set (D := 2 ^ (- e)) in *.
      destruct s; [rewrite Z.mul_opp_l|]; lia.
Qed.

End Formatting.

(* ===================================================================== *)
(** * Running the monad *)
(* ===================================================================== *)

Section Running.

Lemma bind_ok {A B : Type} (m : M A) (k : A -> M B) (w w' : world) (a : A) :
  m w = (w', Ok a) -> bind m k w = k a w'.
Proof. intros H. unfold bind. now rewrite H. Qed.

Lemma bind_ret {A B : Type} (a : A) (k : A -> M B) (w : world) :
  bind (ret a) k w = k a w.
Proof. reflexivity. Qed.

Lemma bind_lift_ok {A B : Type} (a : A) (k : A -> M B) (w : world) :
  bind (lift (Ok a)) k w = k a w.
Proof. reflexivity. Qed.

Lemma bind_assoc {A B C : Type} (m : M A) (k : A -> M B) (h : B -> M C)
    (w : world) :
  bind (bind m k) h w = bind m (fun a => bind (k a) h) w.
Proof. unfold bind. destruct (m w) as [w' [a|e]]; reflexivity. Qed.

Lemma bind_ext {A B : Type} (m : M A) (k k' : A -> M B) (w : world) :
  (forall a w', k a w' = k' a w') -> bind m k w = bind m k' w.
Proof.
  intros H. unfold bind. destruct (m w) as [w' [a|e]]; [apply H | reflexivity].
Qed.

Lemma for_each_app {A : Type} (l1 l2 : list A) (body : A -> M unit)
    (w : world) :
  for_each (l1 ++ l2) body w = bind (for_each l1 body) (fun _ => for_each l2 body) w.
Proof.
  revert w. induction l1 as [|x l1 IH]; intros w; [reflexivity|].
  cbn [app for_each]. rewrite bind_assoc.
  apply bind_ext. intros _ w'. apply IH.
Qed.

(** A loop over the indices of [items] whose body, at index [i], takes the
    state [st s] to [st (step s x)] for the item [x] at [i]: the loop folds
    [step] over the items. *)
Lemma for_range_fold {A S : Type} (items : list A) (st : S -> world)
    (step : S -> A -> S) (body : nat -> M unit) :
  (forall i x s, nth_error items i = Some x ->
                 body i (st s) = (st (step s x), Ok tt)) ->
  forall s, for_range (length items) body (st s) =
            (st (fold_left step items s), Ok tt).
Proof.
  unfold for_range.
  induction items as [|x items IH] using rev_ind; intros Hbody s;
    [reflexivity|].
  rewrite length_app, Nat.add_1_r, seq_S, for_each_app. cbn [Nat.add].
  assert (Hpre : forall i y s', nth_error items i = Some y ->
                   body i (st s') = (st (step s' y), Ok tt)).
  { intros i y s' Hi. apply Hbody. rewrite nth_error_app1; [exact Hi|].
    apply nth_error_Some. congruence. }
  rewrite (bind_ok _ _ _ _ _ (IH Hpre s)).
  cbn [for_each]. rewrite fold_left_app. cbn [fold_left].
  erewrite bind_ok; [reflexivity|].
  apply Hbody. rewrite nth_error_app2, Nat.sub_diag by lia. reflexivity.
Qed.

Lemma fold_left_append {A : Type} (g : A -> text) (items : list A)
    (c : text) :
  fold_left (fun c x => c ++ g x) items c = c ++ concat (map g items).
Proof.
  revert c. induction items as [|x items IH]; intros c; cbn [fold_left map concat].
  - now rewrite app_nil_r.
  - rewrite IH. now rewrite <- app_assoc.
Qed.

(** ** One writing handle *)

Lemma open_w_run (p : string) (w : world) :
  open_w p w = (wr (fresh (dom (w_open w))) p [] w, Ok (fresh (dom (w_open w)))).
Proof. reflexivity. Qed.

Lemma fwrite_wr (fd : nat) (p : string) (c t : text) (w : world) :
  fwrite fd t (wr fd p c w) = (wr fd p (c ++ t) w, Ok tt).
Proof.
  unfold fwrite, wr, put_file, set_open, set_files. cbn.
  rewrite !lookup_insert_eq. cbn. now rewrite insert_insert_eq.
Qed.

Lemma fclose_wr_fresh (p : string) (c : text) (w : world) :
  fclose (fresh (dom (w_open w))) (wr (fresh (dom (w_open w))) p c w) =
  (put_file p (Text c) w, Ok tt).
Proof.
  unfold fclose, wr, put_file, set_open, set_files. cbn.
  rewrite delete_insert_id; [reflexivity|].
  apply not_elem_of_dom, is_fresh.
Qed.

Lemma arrays_wr (fd : nat) (p : string) (c : text) (w : world) :
  w_arrays (wr fd p c w) = w_arrays w.
Proof. reflexivity. Qed.

Lemma fwrite_wr_bind {B : Type} (fd : nat) (p : string) (c t : text)
    (w : world) (k : unit -> M B) :
  bind (fwrite fd t) k (wr fd p c w) = k tt (wr fd p (c ++ t) w).
Proof. apply bind_ok, fwrite_wr. Qed.

Lemma shape_at_bind {B : Type} (r : nat) (z : Z) (n : nat) (w : world)
    (k : nat -> M B) :
  tuple_index (shape (w_arrays w r)) z = Ok n ->
  bind (shape_at r z) k w = k n w.
Proof. intros H. apply bind_ok. unfold shape_at. now rewrite H. Qed.

(** A loop that renders one item per iteration through the handle. *)
Lemma for_range_wr {A : Type} (items : list A) (g : A -> text)
    (fd : nat) (p : string) (w : world) (body : nat -> M unit) :
  (forall i x c, nth_error items i = Some x ->
                 body i (wr fd p c w) = (wr fd p (c ++ g x) w, Ok tt)) ->
  forall c, for_range (length items) body (wr fd p c w) =
            (wr fd p (c ++ concat (map g items)) w, Ok tt).
Proof.
  intros Hbody c.
  rewrite (for_range_fold items (fun c => wr fd p c w) (fun c x => c ++ g x))
    by exact Hbody.
  now rewrite fold_left_append.
Qed.

(** The loop bodies of the writers. *)
Lemma line1_body (W P : nat) (suffix : text) (r : nat) (v : list spec_float)
    (fd : nat) (p : string) (w : world) (i : nat) (x : spec_float)
    (c : text) :
  w_arrays w r = Arr1 v -> nth_error v i = Some x ->
  (let* f := item1 r i in
   let* s := lift (pct_f W P f) in
   fwrite fd (s ++ suffix)) (wr fd p c w) =
  (wr fd p (c ++ fmt_f W P x ++ suffix) w, Ok tt).
Proof.
  intros Ha Hi.
  erewrite bind_ok; [|unfold item1; rewrite arrays_wr, Ha; cbn [getitem1];
                      rewrite Hi; reflexivity].
  cbn [pct_f to_float]. rewrite bind_lift_ok. apply fwrite_wr.
Qed.

Lemma item2_wr_bind {B : Type} (r i j : nat) (nc : nat)
    (rows : list (list spec_float)) (row : list spec_float)
    (x : spec_float) (fd : nat) (p : string) (c : text) (w : world)
    (k : pyval -> M B) :
  w_arrays w r = Arr2 nc rows -> nth_error rows i = Some row ->
  (j < nc)%nat -> nth_error row j = Some x ->
  bind (item2 r i j) k (wr fd p c w) = k (PFloat x) (wr fd p c w).
Proof.
  intros Ha Hi Hj Hx. apply bind_ok. unfold item2.
  rewrite arrays_wr, Ha. cbn [getitem2]. rewrite Hi.
  apply Nat.ltb_lt in Hj. now rewrite Hj, Hx.
Qed.

End Running.

(* ===================================================================== *)
(** * The boundary-spectrum writers on well-formed input *)
(* ===================================================================== *)

Section BoundarySpec.

Lemma print_run (t : text) (w : world) :
  print t w = (set_console (w_console w ++ [t]) w, Ok tt).
Proof. reflexivity. Qed.

Lemma loc_loop (locations lc : nat) (locs : list (list spec_float))
    (fd : nat) (p : string) (w : world) (c : text) :
  w_arrays w locations = Arr2 lc locs -> wf_array (Arr2 lc locs) ->
  (2 <= lc)%nat ->
  for_range (length locs) (fun aa =>
    let* lx := item2 locations aa 0 in
    let* sx := lift (pct_f 16 4 lx) in
    let* ly := item2 locations aa 1 in
    let* sy := lift (pct_f 16 4 ly) in
    fwrite fd (sx ++ [sp] ++ sy ++ [nl])) (wr fd p c w) =
  (wr fd p (c ++ concat (map loc_line locs)) w, Ok tt).
Proof.
  intros Ha Hwf Hlc. apply for_range_wr. intros i row c' Hi.
  cbn [wf_array] in Hwf.
  assert (Hrow : length row = lc).
  { rewrite List.Forall_forall in Hwf. apply Hwf. eapply nth_error_In, Hi. }
  destruct row as [|x [|y row]]; cbn [length] in Hrow; try lia.
  rewrite (item2_wr_bind _ _ _ _ _ _ x _ _ _ _ _ Ha Hi) by (lia || reflexivity).
  cbn [pct_f to_float]. rewrite bind_lift_ok.
  rewrite (item2_wr_bind _ _ _ _ _ _ y _ _ _ _ _ Ha Hi) by (lia || reflexivity).
  cbn [pct_f to_float]. rewrite bind_lift_ok.
  rewrite fwrite_wr. unfold loc_line, loc_fields.
  now rewrite <- !app_assoc.
Qed.

Lemma line1_loop (W P : nat) (suffix : text) (r : nat)
    (v : list spec_float) (fd : nat) (p : string) (w : world) (c : text) :
  w_arrays w r = Arr1 v ->
  for_range (length v) (fun aa =>
    let* f := item1 r aa in
    let* s := lift (pct_f W P f) in
    fwrite fd (s ++ suffix)) (wr fd p c w) =
  (wr fd p (c ++ concat (map (fun x => fmt_f W P x ++ suffix) v)) w, Ok tt).
Proof.
  intros Ha. apply for_range_wr. intros i x c' Hi.
  now apply line1_body with (v := v).
Qed.

Lemma row_loop (spec gc : nat) (grid : list (list spec_float)) (aa : nat)
    (row : list spec_float) (fd : nat) (p : string) (w : world) (c : text) :
  w_arrays w spec = Arr2 gc grid -> nth_error grid aa = Some row ->
  length row = gc ->
  for_range (length row) (fun bb =>
    let* v := item2 spec aa bb in
    let* s := lift (pct_f 16 10 v) in
    fwrite fd s) (wr fd p c w) =
  (wr fd p (c ++ concat (map (fmt_f 16 10) row)) w, Ok tt).
Proof.
  intros Ha Hrow Hlen. apply for_range_wr. intros j x c' Hj.
  rewrite (item2_wr_bind _ _ _ _ _ _ x _ _ _ _ _ Ha Hrow);
    [|subst gc; apply nth_error_Some; congruence | exact Hj].
  cbn [pct_f to_float]. rewrite bind_lift_ok. apply fwrite_wr.
Qed.

Lemma grid_loop (spec gc : nat) (grid : list (list spec_float))
    (fd : nat) (p : string) (w : world) (c : text) :
  w_arrays w spec = Arr2 gc grid -> wf_array (Arr2 gc grid) ->
  for_range (length grid) (fun aa =>
    let* n1 := shape_at spec (-1) in
    for_range n1 (fun bb =>
      let* v := item2 spec aa bb in
      let* s := lift (pct_f 16 10 v) in
      fwrite fd s) ;;
    fwrite fd [nl]) (wr fd p c w) =
  (wr fd p (c ++ data_block grid) w, Ok tt).
Proof.
  intros Ha Hwf. apply for_range_wr. intros i row c' Hi.
  cbn [wf_array] in Hwf.
  assert (Hrow : length row = gc).
  { rewrite List.Forall_forall in Hwf. apply Hwf. eapply nth_error_In, Hi. }
  rewrite (shape_at_bind _ _ gc) by (rewrite arrays_wr, Ha; reflexivity).
  rewrite <- Hrow.
  rewrite (bind_ok _ _ _ _ _ (row_loop _ _ _ _ _ _ _ _ _ Ha Hi Hrow)).
  unfold data_line, data_fields. rewrite app_assoc. apply fwrite_wr.
Qed.

Lemma dir_loop_opt (sdir : option nat) (dv : option (list spec_float))
    (tag : text) (fd : nat) (p : string) (w : world) (c : text) :
  dirs_at w sdir dv ->
  match sdir with
  | Some sdir =>
      fwrite fd tag ;;
      let* nd := shape_at sdir 0 in
      fwrite fd (fmt_f 12 0 (float_of_count nd) ++ [nl]) ;;
      let* nd := shape_at sdir 0 in
      for_range nd (fun aa =>
        let* d := item1 sdir aa in
        let* s := lift (pct_f 16 4 d) in
        fwrite fd (s ++ [nl]))
  | None => ret tt
  end (wr fd p c w) =
  (wr fd p (c ++ match dv with Some d => tag ++ dir_block d | None => [] end)
      w, Ok tt).
Proof.
  intros Hd. destruct sdir as [r|], dv as [d|]; cbn [dirs_at] in Hd;
    try contradiction.
  - rewrite fwrite_wr_bind.
    rewrite (shape_at_bind _ _ (length d)) by (rewrite arrays_wr, Hd; reflexivity).
    rewrite fwrite_wr_bind.
    rewrite (shape_at_bind _ _ (length d)) by (rewrite arrays_wr, Hd; reflexivity).
    rewrite line1_loop by exact Hd.
    unfold dir_block, count_line, dir_line. now rewrite <- !app_assoc.
  - unfold ret. now rewrite app_nil_r.
Qed.

Lemma dir_loop_plain (sdir : option nat) (dv : option (list spec_float))
    (fd : nat) (p : string) (w : world) (c : text) :
  dirs_at w sdir dv ->
  match sdir with
  | Some sdir =>
      let* nd := shape_at sdir 0 in
      fwrite fd (fmt_f 12 0 (float_of_count nd) ++ [nl]) ;;
      let* nd := shape_at sdir 0 in
      for_range nd (fun aa =>
        let* d := item1 sdir aa in
        let* s := lift (pct_f 16 4 d) in
        fwrite fd (s ++ [nl]))
  | None => ret tt
  end (wr fd p c w) =
  (wr fd p (c ++ match dv with Some d => dir_block d | None => [] end)
      w, Ok tt).
Proof.
  intros Hd. destruct sdir as [r|], dv as [d|]; cbn [dirs_at] in Hd;
    try contradiction.
  - rewrite (shape_at_bind _ _ (length d)) by (rewrite arrays_wr, Hd; reflexivity).
    rewrite fwrite_wr_bind.
    rewrite (shape_at_bind _ _ (length d)) by (rewrite arrays_wr, Hd; reflexivity).
    rewrite line1_loop by exact Hd.
    unfold dir_block, count_line, dir_line. now rewrite <- !app_assoc.
  - unfold ret. now rewrite app_nil_r.
Qed.

(** The standard writer on a frequency vector, a rectangular grid, a
    location table of at least two columns and an optional direction
    vector: it returns, and the file holds the standard layout. *)
Lemma swan_run (w : world) (freq spec locations : nat) (outfile : string)
    (waveTime sdir : option nat) (fv : list spec_float)
    (dv : option (list spec_float)) (lc gc : nat)
    (locs grid : list (list spec_float)) :
  w_arrays w freq = Arr1 fv ->
  w_arrays w spec = Arr2 gc grid -> wf_array (Arr2 gc grid) ->
  w_arrays w locations = Arr2 lc locs -> wf_array (Arr2 lc locs) ->
  (2 <= lc)%nat ->
  dirs_at w sdir dv ->
  Swan.write_boundary_spec freq spec locations outfile waveTime sdir w =
  (put_file outfile (Text (swan_layout fv dv locs grid)) w, Ok tt).
Proof.
  intros Hf Hg Hgwf Hl Hlwf Hlc Hd. unfold Swan.write_boundary_spec.
  rewrite (bind_ok _ _ _ _ _ (open_w_run outfile w)).
  set (fd := fresh (dom (w_open w))).
  rewrite !fwrite_wr_bind.
  rewrite (shape_at_bind _ _ (length locs)) by (rewrite arrays_wr, Hl; reflexivity).
  rewrite fwrite_wr_bind.
  rewrite (shape_at_bind _ _ (length locs)) by (rewrite arrays_wr, Hl; reflexivity).
  rewrite (bind_ok _ _ _ _ _ (loc_loop _ _ _ _ _ _ _ Hl Hlwf Hlc)).
  rewrite fwrite_wr_bind.
  rewrite (shape_at_bind _ _ (length fv)) by (rewrite arrays_wr, Hf; reflexivity).
  rewrite fwrite_wr_bind.
  rewrite (shape_at_bind _ _ (length fv)) by (rewrite arrays_wr, Hf; reflexivity).
  rewrite (bind_ok _ _ _ _ _ (line1_loop _ _ _ _ _ _ _ _ _ Hf)).
  rewrite (bind_ok _ _ _ _ _ (dir_loop_opt _ _ _ _ _ _ _ Hd)).
  rewrite !fwrite_wr_bind.
  rewrite (shape_at_bind _ _ (length grid)) by (rewrite arrays_wr, Hg; reflexivity).
  rewrite (bind_ok _ _ _ _ _ (grid_loop _ _ _ _ _ _ _ Hg Hgwf)).
  unfold fd. rewrite fclose_wr_fresh. f_equal. f_equal. f_equal.
  unfold swan_layout, header_section, locations_section, rfreq_section,
    freq_block, ndir_section, quant_section, dir_block, count_line,
    freq_line, dir_line.
  destruct dv; rewrite <- ?app_assoc; reflexivity.
Qed.

(** The alternate writer ([swan=False]) on the same input. *)
Lemma xbeach_run (w : world) (freq spec locations : nat) (outfile : string)
    (waveTime sdir : option nat) (fv : list spec_float)
    (dv : option (list spec_float)) (gc : nat)
    (grid : list (list spec_float)) :
  w_arrays w freq = Arr1 fv ->
  w_arrays w spec = Arr2 gc grid -> wf_array (Arr2 gc grid) ->
  dirs_at w sdir dv ->
  Xbeach.write_boundary_spec freq spec locations outfile waveTime sdir false
    w =
  (put_file outfile (Text (xbeach_layout fv dv grid))
     (set_console
        (w_console w ++ [str "Writing 2D spectrum for Instat = 6"]) w),
   Ok tt).
Proof.
  intros Hf Hg Hgwf Hd. unfold Xbeach.write_boundary_spec.
  cbv iota.
  rewrite (bind_ok _ _ _ _ _ (print_run _ w)).
  set (w1 := set_console _ w).
  assert (Hd1 : dirs_at w1 sdir dv) by exact Hd.
  change (w_arrays w freq) with (w_arrays w1 freq) in Hf.
  change (w_arrays w spec) with (w_arrays w1 spec) in Hg.
  rewrite (bind_ok _ _ _ _ _ (open_w_run outfile w1)).
  set (fd := fresh (dom (w_open w1))).
  rewrite (shape_at_bind _ _ (length fv)) by (rewrite arrays_wr, Hf; reflexivity).
  rewrite fwrite_wr_bind.
  rewrite (shape_at_bind _ _ (length fv)) by (rewrite arrays_wr, Hf; reflexivity).
  rewrite (bind_ok _ _ _ _ _ (line1_loop _ _ _ _ _ _ _ _ _ Hf)).
  rewrite (bind_ok _ _ _ _ _ (dir_loop_plain _ _ _ _ _ _ Hd1)).
  rewrite (shape_at_bind _ _ (length grid)) by (rewrite arrays_wr, Hg; reflexivity).
  rewrite (bind_ok _ _ _ _ _ (grid_loop _ _ _ _ _ _ _ Hg Hgwf)).
  unfold fd. rewrite fclose_wr_fresh. f_equal. f_equal. f_equal.
  unfold xbeach_layout, freq_block, dir_block, count_line, freq_line, dir_line.
  destruct dv; rewrite <- ?app_assoc; reflexivity.
Qed.

End BoundarySpec.

(* ===================================================================== *)
(** * Occurrences, lines and fixed-width fields *)
(* ===================================================================== *)

Section TextFacts.

Lemma prefixb_app (t b : text) : prefixb t (t ++ b) = true.
Proof.
  induction t as [|c t IH]; [reflexivity|].
  cbn [app prefixb]. now rewrite Ascii.eqb_refl, IH.
Qed.

Lemma occurs_in_occursb (t s : text) : occurs_in t s -> occursb t s = true.
Proof.
  intros (a & b & ->). induction a as [|c a IH].
  - cbn [app]. destruct (t ++ b) eqn:E; cbn [occursb];
      rewrite <- E, prefixb_app; reflexivity.
  - cbn [app occursb]. rewrite IH. apply orb_true_r.
Qed.

Lemma occurs_in_Forall (P : ascii -> Prop) (t s : text) :
  occurs_in t s -> List.Forall P s -> List.Forall P t.
Proof.
  intros (a & b & ->) H.
  apply List.Forall_app in H as [_ H]. now apply List.Forall_app in H as [H _].
Qed.

(** A token free of [c] that occurs in [x ++ c :: y] occurs in [x] or in
    [y]. *)
Lemma occurs_in_split_at (c : ascii) (t x y : text) :
  ~ In c t -> occurs_in t (x ++ c :: y) -> occurs_in t x \/ occurs_in t y.
Proof.
  intros Hc (a & b & E).
  apply app_eq_app in E as (l & [[-> E] | [-> E]]).
  - (* the token starts inside [x] *)
    apply app_eq_app in E as (l' & [[-> E] | [-> E]]).
    + destruct l' as [|d l'].
      * left. exists a, []. now rewrite !app_nil_r.
      * cbn [app] in E. injection E as -> _. exfalso. apply Hc.
        apply in_or_app. right. now left.
    + left. now exists a, l'.
  - (* the token starts at or after the cut *)
    destruct l as [|d l].
    + cbn [app] in E. destruct t as [|d t].
      * left. exists x, []. now rewrite !app_nil_r.
      * injection E as -> _. exfalso. apply Hc. now left.
    + cbn [app] in E. injection E as _ ->. right. now exists l, b.
Qed.

Lemma unlines_app (l1 l2 : list text) :
  unlines (l1 ++ l2) = unlines l1 ++ unlines l2.
Proof. unfold unlines. now rewrite map_app, concat_app. Qed.

Lemma unlines_cons (l : text) (ls : list text) :
  unlines (l :: ls) = l ++ nl :: unlines ls.
Proof. unfold unlines. cbn [map concat]. now rewrite <- app_assoc. Qed.

Lemma unlines_map {A : Type} (g : A -> text) (items : list A) :
  concat (map (fun x => g x ++ [nl]) items) = unlines (map g items).
Proof. unfold unlines. now rewrite map_map. Qed.

(** A non-empty token free of newlines that occurs in a file occurs in one
    of its lines. *)
Lemma occurs_in_unlines (t : text) (ls : list text) :
  t <> [] -> ~ In nl t -> occurs_in t (unlines ls) ->
  exists l, In l ls /\ occurs_in t l.
Proof.
  intros Hne Hnl. induction ls as [|l ls IH]; intros H.
  - destruct H as (a & b & E). unfold unlines in E. cbn in E.
    destruct a, t; try discriminate. contradiction.
  - rewrite unlines_cons in H.
    apply occurs_in_split_at in H as [H|H]; [| |exact Hnl].
    + exists l. split; [now left | exact H].
    + destruct (IH H) as (l' & Hin & Ho). exists l'. split; [now right | exact Ho].
Qed.

Lemma unlines_nil : unlines [] = [].
Proof. reflexivity. Qed.

Lemma unlines_cons' (l : text) (ls : list text) :
  unlines (l :: ls) = l ++ [nl] ++ unlines ls.
Proof. apply unlines_cons. Qed.

Ltac lines_norm :=
  rewrite ?unlines_app, ?unlines_cons', ?unlines_nil;
  rewrite <- ?app_assoc, ?app_nil_r; cbn [app]; reflexivity.

Lemma swan_layout_lines (fv : list spec_float)
    (dv : option (list spec_float)) (locs grid : list (list spec_float)) :
  swan_layout fv dv locs grid = unlines (swan_lines fv dv locs grid).
Proof.
  unfold swan_layout, header_section, locations_section,
    rfreq_section, freq_block, ndir_section, dir_block, quant_section,
    data_block, count_line.
  unfold loc_line, freq_line, dir_line, data_line.
  unfold swan_lines, quant_lines, count_field.
  destruct dv; rewrite !unlines_map; lines_norm.
Qed.

Lemma xbeach_layout_lines (fv : list spec_float)
    (dv : option (list spec_float)) (grid : list (list spec_float)) :
  xbeach_layout fv dv grid = unlines (xbeach_lines fv dv grid).
Proof.
  unfold xbeach_layout, freq_block, dir_block, data_block, count_line.
  unfold freq_line, dir_line, data_line.
  unfold xbeach_lines, count_field.
  destruct dv; rewrite !unlines_map; lines_norm.
Qed.

Lemma data_block_lines (grid : list (list spec_float)) :
  data_block grid = unlines (map data_fields grid).
Proof. unfold data_block, data_line. apply unlines_map. Qed.

Lemma numeric_not_nl (l : text) :
  List.Forall (fun c => numeric_char c = true) l -> ~ In nl l.
Proof.
  intros H Hin. rewrite List.Forall_forall in H. now specialize (H _ Hin).
Qed.

Lemma concat_numeric {A : Type} (g : A -> text) (items : list A) :
  (forall x, List.Forall (fun c => numeric_char c = true) (g x)) ->
  List.Forall (fun c => numeric_char c = true) (concat (map g items)).
Proof.
  intros Hg. induction items as [|x items IH]; cbn [map concat];
    [constructor|].
  apply List.Forall_app. split; [apply Hg | exact IH].
Qed.

Lemma data_fields_numeric (row : list spec_float) :
  List.Forall (fun c => numeric_char c = true) (data_fields row).
Proof. apply concat_numeric. intros x. apply fmt_f_numeric. Qed.

Lemma loc_fields_numeric (row : list spec_float) :
  List.Forall (fun c => numeric_char c = true) (loc_fields row).
Proof.
  destruct row as [|x [|y row]]; cbn [loc_fields]; try constructor.
  apply List.Forall_app. split; [apply fmt_f_numeric|].
  apply List.Forall_app. split; [repeat constructor | apply fmt_f_numeric].
Qed.

(** A file of newline-free lines has as many newlines as lines. *)
Lemma line_count_unlines (ls : list text) :
  List.Forall (fun l => ~ In nl l) ls -> line_count (unlines ls) = length ls.
Proof.
  unfold line_count. induction 1 as [|l ls Hl _ IH]; [reflexivity|].
  rewrite unlines_cons, count_occ_app. cbn [count_occ length].
  destruct (ascii_dec nl nl) as [_|N]; [|contradiction].
  rewrite IH. apply (count_occ_not_In ascii_dec) in Hl. rewrite Hl. reflexivity.
Qed.

(** Cutting back-to-back fields of [w] characters at every [w] columns
    gives the fields back. *)
Lemma chunks_fuel_concat (w : nat) (fs : list text) (fuel : nat) :
  (0 < w)%nat -> List.Forall (fun f => length f = w) fs ->
  (length fs <= fuel)%nat ->
  chunks_fuel fuel w (concat fs) = fs.
Proof.
  intros Hw Hfs. revert fuel.
  induction Hfs as [|f fs Hf _ IH]; intros fuel Hfuel.
  - destruct fuel; reflexivity.
  - destruct fuel as [|fuel]; [cbn [length] in Hfuel; lia|].
    cbn [concat chunks_fuel].
    destruct (f ++ concat fs) as [|c r] eqn:E.
    { destruct f; [cbn in Hf; lia | discriminate E]. }
    rewrite <- E.
    rewrite (take_app_length' f (concat fs) w) by now symmetry.
    rewrite (drop_app_length' f (concat fs) w) by now symmetry.
    f_equal. apply IH. cbn [length] in Hfuel. lia.
Qed.

Lemma chunks_concat (w : nat) (fs : list text) :
  (0 < w)%nat -> List.Forall (fun f => length f = w) fs ->
  chunks w (concat fs) = fs.
Proof.
  intros Hw Hfs. apply chunks_fuel_concat; [exact Hw | exact Hfs |].
  clear -Hw Hfs. induction Hfs as [|f fs Hf _ IH]; [reflexivity|].
  cbn [concat length]. rewrite length_app. lia.
Qed.

End TextFacts.

(* ===================================================================== *)
(** * The boundary-spectrum file *)
(* ===================================================================== *)

Section BoundaryFile.

Lemma reads_back_fmt (W P : nat) (v : spec_float) :
  fits_field W P v = true -> reads_back P (fmt_f W P v) v.
Proof.
  intros Hfit.
  assert (exists n, decimal_round P v = Some n) as [n Hn].
  { destruct v; try discriminate Hfit; eexists; reflexivity. }
  assert (exists num den, exact_scaled P v = Some (num, den))
    as (num & den & Hx).
  { destruct v as [s|s| |s m e]; try discriminate Hfit;
      cbn [exact_scaled]; [|destruct (0 <=? e)]; eexists _, _; reflexivity. }
  exists n, num, den. split; [now apply read_field_fmt_f|].
  split; [exact Hx|]. eapply decimal_round_close; eassumption.
Qed.

Lemma fields_length_fits (W P : nat) (row : list spec_float) :
  List.Forall (fun v => fits_field W P v = true) row ->
  List.Forall (fun f => length f = W) (map (fmt_f W P) row).
Proof.
  induction 1 as [|v row Hv _ IH]; cbn [map]; constructor;
    [now apply fmt_f_length_fits | exact IH].
Qed.

Lemma fields_read_back (W P : nat) (row : list spec_float) :
  List.Forall (fun v => fits_field W P v = true) row ->
  List.Forall2 (reads_back P) (map (fmt_f W P) row) row.
Proof.
  induction 1 as [|v row Hv _ IH]; cbn [map]; constructor;
    [now apply reads_back_fmt | exact IH].
Qed.

End BoundaryFile.

(* ===================================================================== *)
(** * Claims on the boundary-spectrum writers *)
(* ===================================================================== *)



Section FieldFacts.

Lemma files_put_file (p : string) (c : content) (w : world) :
  w_files (put_file p c w) !! p = Some c.
Proof. apply lookup_insert_eq. Qed.

Lemma files_put_file_ne (p q : string) (c : content) (w : world) :
  p <> q -> w_files (put_file p c w) !! q = w_files w !! q.
Proof. intros H. now apply lookup_insert_ne. Qed.

Lemma in_rows_length (gc : nat) (grid : list (list spec_float))
    (row : list spec_float) :
  wf_array (Arr2 gc grid) -> In row grid -> length row = gc.
Proof.
  cbn [wf_array]. rewrite List.Forall_forall. intros H Hin. now apply H.
Qed.

Lemma data_fields_length_fits (row : list spec_float) :
  List.Forall (fun v => fits_field 16 10 v = true) row ->
  length (data_fields row) = (16 * length row)%nat.
Proof.
  unfold data_fields. induction 1 as [|v row Hv _ IH]; [reflexivity|].
  cbn [map concat length]. rewrite length_app, IH.
  rewrite (fmt_f_length_fits 16 10 v Hv). lia.
Qed.

Lemma data_fields_chunks (row : list spec_float) :
  List.Forall (fun v => fits_field 16 10 v = true) row ->
  chunks 16 (data_fields row) = map (fmt_f 16 10) row.
Proof.
  intros H. unfold data_fields. apply chunks_concat; [lia|].
  now apply fields_length_fits.
Qed.

Lemma chunks_single (w : nat) (f : text) :
  (0 < w)%nat -> length f = w -> chunks w f = [f].
Proof.
  intros Hw Hf.
  assert (E : chunks w (concat [f]) = [f])
    by (apply chunks_concat; [exact Hw | now constructor]).
  cbn [concat] in E. now rewrite app_nil_r in E.
Qed.

Lemma data_lines_numeric (grid : list (list spec_float)) :
  List.Forall (fun l => ~ In nl l) (map data_fields grid).
Proof.
  apply List.Forall_forall. intros l Hin.
  apply in_map_iff in Hin as (row & <- & _).
  apply numeric_not_nl, data_fields_numeric.
Qed.

End FieldFacts.

Section DataBlockFacts.

Lemma swan_lines_split (fv : list spec_float)
    (dv : option (list spec_float)) (locs grid : list (list spec_float)) :
  swan_lines fv dv locs grid =
  section_lines fv dv locs ++ map data_fields grid.
Proof.
  unfold swan_lines, section_lines. now rewrite <- !app_assoc.
Qed.

Lemma no_nl_b (l : text) :
  forallb (fun c => negb (Ascii.eqb c nl)) l = true -> ~ In nl l.
Proof.
  intros H Hin. rewrite forallb_forall in H. specialize (H nl Hin).
  now rewrite Ascii.eqb_refl in H.
Qed.

Lemma fields_no_nl (W P : nat) (vs : list spec_float) :
  List.Forall (fun l => ~ In nl l) (map (fmt_f W P) vs).
Proof.
  apply List.Forall_forall. intros l Hin.
  apply in_map_iff in Hin as (v & <- & _).
  apply numeric_not_nl, fmt_f_numeric.
Qed.

Lemma count_field_no_nl (n : nat) : ~ In nl (count_field n).
Proof. apply numeric_not_nl, fmt_f_numeric. Qed.

Lemma section_lines_no_nl (fv : list spec_float)
    (dv : option (list spec_float)) (locs : list (list spec_float)) :
  List.Forall (fun l => ~ In nl l) (section_lines fv dv locs).
Proof.
  unfold section_lines, quant_lines.
  apply List.Forall_app. split.
  { apply List.Forall_cons; [now apply no_nl_b|].
    apply List.Forall_cons; [now apply no_nl_b|].
    apply List.Forall_cons; [apply count_field_no_nl | apply List.Forall_nil]. }
  apply List.Forall_app. split.
  { apply List.Forall_forall. intros l Hin.
    apply in_map_iff in Hin as (r & <- & _).
    apply numeric_not_nl, loc_fields_numeric. }
  apply List.Forall_app. split.
  { apply List.Forall_cons; [now apply no_nl_b|].
    apply List.Forall_cons; [apply count_field_no_nl | apply List.Forall_nil]. }
  apply List.Forall_app. split; [apply fields_no_nl|].
  apply List.Forall_app. split.
  { destruct dv as [d|]; [|apply List.Forall_nil].
    apply List.Forall_app. split; [|apply fields_no_nl].
    apply List.Forall_cons; [now apply no_nl_b|].
    apply List.Forall_cons; [apply count_field_no_nl | apply List.Forall_nil]. }
  repeat (apply List.Forall_cons; [now apply no_nl_b|]).
  apply List.Forall_nil.
Qed.

Lemma section_lines_length (fv : list spec_float)
    (dv : option (list spec_float)) (locs : list (list spec_float)) :
  length (section_lines fv dv locs) =
  (3 + length locs + (2 + length fv) +
   match dv with Some d => 2 + length d | None => 0 end + 7)%nat.
Proof.
  unfold section_lines, quant_lines.
  destruct dv; repeat (rewrite ?length_app, ?length_map; cbn [length]); lia.
Qed.

Lemma section_lines_last (fv : list spec_float)
    (dv : option (list spec_float)) (locs : list (list spec_float)) :
  exists pre,
    section_lines fv dv locs = pre ++ [str "FACTOR"; str "1"].
Proof.
  unfold section_lines, quant_lines.
  eexists.
  rewrite !app_assoc.
  change [str "QUANT"; str "1"; str "VaDens"; str "m2/Hz/degr"; str "-99";
          str "FACTOR"; str "1"]
    with ([str "QUANT"; str "1"; str "VaDens"; str "m2/Hz/degr"; str "-99"]
          ++ [str "FACTOR"; str "1"]).
  rewrite app_assoc. reflexivity.
Qed.

(** A finite value is rendered with its [P] decimals, whatever the
    width. *)
Lemma finite_decimals (W P : nat) (v : spec_float) :
  is_finite v = true -> exists n, read_field (fmt_f W P v) = Some (n, P).
Proof.
  intros Hv.
  assert (exists n, decimal_round P v = Some n) as [n Hn]
    by (destruct v; try discriminate Hv; eexists; reflexivity).
  exists n. now apply read_field_fmt_f.
Qed.

Lemma fits_is_finite (W P : nat) (v : spec_float) :
  fits_field W P v = true -> is_finite v = true.
Proof. destruct v; try discriminate; reflexivity. Qed.

Lemma finite_width_fits (W P : nat) (v : spec_float) :
  is_finite v = true -> length (fmt_f W P v) = W -> fits_field W P v = true.
Proof.
  intros Hfin Hlen.
  assert (exists n, decimal_round P v = Some n) as [n Hn]
    by (destruct v; try discriminate Hfin; eexists; reflexivity).
  destruct (fits_field W P v) eqn:E; [reflexivity|].
  pose proof (fmt_f_length_overflow W P v n Hn E). lia.
Qed.

(** What fitting a ['%16.10f'] field means: the rounded magnitude is below
    [10^5], below [10^4] when the sign bit is set. *)
Lemma fits_16_10 (s : bool) (m : positive) (e : Z) :
  fits_field 16 10 (S754_finite s m e) = true <->
  scaled 10 m e < (if s then 10 ^ 4 else 10 ^ 5) * 10 ^ 10.
Proof.
  unfold fits_field.
  destruct s.
  - change (int_room 16 10 true) with 4%nat.
    change (1 <=? 4)%nat with true. cbv iota. rewrite andb_true_l.
    change (Z.of_nat (10 + 4)) with 14.
    replace (10 ^ 4 * 10 ^ 10) with (10 ^ 14) by (vm_compute; reflexivity).
    apply Z.ltb_lt.
  - change (int_room 16 10 false) with 5%nat.
    change (1 <=? 5)%nat with true. cbv iota. rewrite andb_true_l.
    change (Z.of_nat (10 + 5)) with 15.
    replace (10 ^ 5 * 10 ^ 10) with (10 ^ 15) by (vm_compute; reflexivity).
    apply Z.ltb_lt.
Qed.

End DataBlockFacts.

(** C2 (as stated, refuted). A frequency vector of length 1, a direction
    vector of length 1 and the grid [[100000.0]], of shape (1, 1): the
    writer returns, the file has 18 lines, and its single data line, the
    last one, is ["100000.0000000000"], 17 characters: it is not one
    field of 16 characters. *)
Lemma data_field_wider_than_16 :
  length [f_0_05] = 1%nat /\ length [f_zero] = 1%nat /\
  shape (Arr2 1 [[f_1e5]]) = [1%nat; 1%nat] /\
  w_arrays big_dirs_world 0 = Arr1 [f_0_05] /\
  w_arrays big_dirs_world 1 = Arr2 1 [[f_1e5]] /\
  w_arrays big_dirs_world 3 = Arr1 [f_zero] /\
  exists w',
    Swan.write_boundary_spec 0 1 2 "out.spc" None (Some 3%nat)
      big_dirs_world = (w', Ok tt) /\
    w_files w' !! "out.spc"%string =
      Some (Text (unlines (section_lines [f_0_05] (Some [f_zero]) ex_locs ++
                           [str "100000.0000000000"]))) /\
    data_fields [f_1e5] = str "100000.0000000000" /\
    length (str "100000.0000000000") = 17%nat /\
    ~ (exists fields : list text,
         str "100000.0000000000" = concat fields /\
         length fields = 1%nat /\
         List.Forall (fun f => length f = 16%nat) fields).
Proof.
  repeat (split; [reflexivity|]).
  eexists. split.
  { apply (swan_run big_dirs_world 0 1 2 "out.spc" None (Some 3%nat)
             [f_0_05] (Some [f_zero]) 2 1 ex_locs [[f_1e5]]);
      try reflexivity; try (repeat constructor). }
  assert (E : data_fields [f_1e5] = str "100000.0000000000")
    by (vm_compute; reflexivity).
  split.
  { rewrite files_put_file, swan_layout_lines, swan_lines_split.
    cbn [map]. now rewrite E. }
  split; [exact E|].
  split; [reflexivity|].
  intros (fields & Ef & Hlen & Hall).
  destruct fields as [|f [|g fields]]; try discriminate Hlen.
  cbn [concat] in Ef. rewrite app_nil_r in Ef. subst f.
  inversion Hall as [|? ? H16 _]. discriminate H16.
Qed.

(** C2 (amended). On a frequency vector of length [N_f] and a grid of
    shape [(N_f, N_d)], with or without a direction vector, the writer
    returns and the file is, line by line, the lines of the sections up to
    [FACTOR] and its [1], followed by the data block and nothing else: the
    data block has exactly [N_f] lines, one per row of the grid, so the
    file has [N_f] lines more than its sections. Each data line is
    exactly [N_d] fields back to back with no delimiter, each the
    ['%16.10f'] rendering of its value and at least 16 characters wide.
    Field by field: a finite value is written with 10 decimals; a value
    that fits ([fits_field 16 10]: it is finite and its rounded magnitude
    is below [10^5], below [10^4] when negative) has a field of exactly 16
    characters that reads back to 10 decimals, and a finite value whose
    field has 16 characters fits. Where all the values of a line fit,
    the line has [16 * N_d] characters and cutting it every 16 columns
    gives the fields back. *)
Theorem data_block_shape (w : world) (freq spec locations : nat)
    (outfile : string) (waveTime sdir : option nat) (fv : list spec_float)
    (dv : option (list spec_float)) (lc gc : nat)
    (locs grid : list (list spec_float)) (N_f N_d : nat) :
  w_arrays w freq = Arr1 fv ->
  w_arrays w spec = Arr2 gc grid -> wf_array (Arr2 gc grid) ->
  w_arrays w locations = Arr2 lc locs -> wf_array (Arr2 lc locs) ->
  (2 <= lc)%nat ->
  dirs_at w sdir dv ->
  length fv = N_f -> shape (Arr2 gc grid) = [N_f; N_d] ->
  exists w',
    Swan.write_boundary_spec freq spec locations outfile waveTime sdir w =
      (w', Ok tt) /\
    w_files w' !! outfile =
      Some (Text (unlines (section_lines fv dv locs ++
                           map data_fields grid))) /\
    (exists pre,
       section_lines fv dv locs = pre ++ [str "FACTOR"; str "1"]) /\
    List.Forall (fun l => ~ In nl l)
      (section_lines fv dv locs ++ map data_fields grid) /\
    length (map data_fields grid) = N_f /\
    line_count (unlines (section_lines fv dv locs ++ map data_fields grid)) =
      (length (section_lines fv dv locs) + N_f)%nat /\
    length (section_lines fv dv locs) =
      (3 + length locs + (2 + N_f) +
       match dv with Some d => 2 + length d | None => 0 end + 7)%nat /\
    List.Forall (fun row =>
      length row = N_d /\
      data_fields row = concat (map (fmt_f 16 10) row) /\
      length (map (fmt_f 16 10) row) = N_d /\
      List.Forall (fun v =>
        (16 <= length (fmt_f 16 10 v))%nat /\
        (is_finite v = true ->
         exists n, read_field (fmt_f 16 10 v) = Some (n, 10%nat)) /\
        (fits_field 16 10 v = true ->
         is_finite v = true /\
         length (fmt_f 16 10 v) = 16%nat /\
         reads_back 10 (fmt_f 16 10 v) v) /\
        (is_finite v = true -> length (fmt_f 16 10 v) = 16%nat ->
         fits_field 16 10 v = true)) row /\
      (List.Forall (fun v => fits_field 16 10 v = true) row ->
       length (data_fields row) = (16 * N_d)%nat /\
       chunks 16 (data_fields row) = map (fmt_f 16 10) row /\
       List.Forall (fun v =>
         length (fmt_f 16 10 v) = 16%nat /\
         exists n, read_field (fmt_f 16 10 v) = Some (n, 10%nat)) row))
      grid /\
    (forall s m e,
       fits_field 16 10 (S754_finite s m e) = true <->
       scaled 10 m e < (if s then 10 ^ 4 else 10 ^ 5) * 10 ^ 10) /\
    (forall s, fits_field 16 10 (S754_zero s) = true).
Proof.
  intros Hf Hg Hgwf Hl Hlwf Hlc Hd HNf Hshape.
  cbn [shape] in Hshape. injection Hshape as HNf' HNd.
  assert (Hnl : List.Forall (fun l => ~ In nl l)
                  (section_lines fv dv locs ++ map data_fields grid))
    by (apply List.Forall_app; split;
        [apply section_lines_no_nl | apply data_lines_numeric]).
  exists (put_file outfile (Text (swan_layout fv dv locs grid)) w).
  split; [apply (swan_run w freq spec locations outfile waveTime sdir fv dv
            lc gc locs grid); assumption|].
  split; [rewrite files_put_file, swan_layout_lines, swan_lines_split;
          reflexivity|].
  split; [apply section_lines_last|].
  split; [exact Hnl|].
  split; [now rewrite length_map|].
  split.
  { rewrite line_count_unlines by exact Hnl.
    rewrite length_app, length_map. lia. }
  split; [rewrite section_lines_length, HNf; reflexivity|].
  split; [|split; [apply fits_16_10 | intros []; reflexivity]].
  apply List.Forall_forall. intros row Hrow.
  pose proof (in_rows_length gc grid row Hgwf Hrow) as Hlen.
  split; [now rewrite <- HNd|].
  split; [reflexivity|].
  split; [now rewrite length_map, <- HNd|].
  split.
  { apply List.Forall_forall. intros v _.
    split; [apply fmt_f_length_ge|].
    split; [apply finite_decimals|].
    split; [|apply finite_width_fits].
    intros Hv. split; [now apply (fits_is_finite 16 10)|].
    split; [now apply fmt_f_length_fits | now apply reads_back_fmt]. }
  intros Hfit.
  split; [rewrite data_fields_length_fits by exact Hfit;
          rewrite <- HNd, Hlen; reflexivity|].
  split; [now apply data_fields_chunks|].
  eapply Forall_impl; [exact Hfit|]. intros v Hv. cbv beta in Hv.
  split; [now apply fmt_f_length_fits|].
  destruct (reads_back_fmt 16 10 v Hv) as (n & _ & _ & Hr & _).
  now exists n.
Qed.

Lemma data_block_shape_witness :
  exists w',
    Swan.write_boundary_spec 0 1 2 "out.spc" None (Some 3%nat) ex_world =
      (w', Ok tt) /\
    w_files w' !! "out.spc"%string =
      Some (Text (unlines (section_lines ex_freq (Some ex_dirs) ex_locs ++
                           map data_fields ex_grid))) /\
    (exists pre,
       section_lines ex_freq (Some ex_dirs) ex_locs =
       pre ++ [str "FACTOR"; str "1"]) /\
    List.Forall (fun l => ~ In nl l)
      (section_lines ex_freq (Some ex_dirs) ex_locs ++
       map data_fields ex_grid) /\
    length (map data_fields ex_grid) = 2%nat /\
    line_count (unlines (section_lines ex_freq (Some ex_dirs) ex_locs ++
                         map data_fields ex_grid)) =
      (length (section_lines ex_freq (Some ex_dirs) ex_locs) + 2)%nat /\
    length (section_lines ex_freq (Some ex_dirs) ex_locs) =
      (3 + length ex_locs + (2 + 2) + (2 + length ex_dirs) + 7)%nat /\
    List.Forall (fun row =>
      length row = 3%nat /\
      data_fields row = concat (map (fmt_f 16 10) row) /\
      length (map (fmt_f 16 10) row) = 3%nat /\
      List.Forall (fun v =>
        (16 <= length (fmt_f 16 10 v))%nat /\
        (is_finite v = true ->
         exists n, read_field (fmt_f 16 10 v) = Some (n, 10%nat)) /\
        (fits_field 16 10 v = true ->
         is_finite v = true /\
         length (fmt_f 16 10 v) = 16%nat /\
         reads_back 10 (fmt_f 16 10 v) v) /\
        (is_finite v = true -> length (fmt_f 16 10 v) = 16%nat ->
         fits_field 16 10 v = true)) row /\
      (List.Forall (fun v => fits_field 16 10 v = true) row ->
       length (data_fields row) = (16 * 3)%nat /\
       chunks 16 (data_fields row) = map (fmt_f 16 10) row /\
       List.Forall (fun v =>
         length (fmt_f 16 10 v) = 16%nat /\
         exists n, read_field (fmt_f 16 10 v) = Some (n, 10%nat)) row))
      ex_grid /\
    (forall s m e,
       fits_field 16 10 (S754_finite s m e) = true <->
       scaled 10 m e < (if s then 10 ^ 4 else 10 ^ 5) * 10 ^ 10) /\
    (forall s, fits_field 16 10 (S754_zero s) = true).
Proof.
  apply (data_block_shape ex_world 0 1 2 "out.spc" None (Some 3%nat)
           ex_freq (Some ex_dirs) 2 3 ex_locs ex_grid 2 3);
    try reflexivity; try (repeat constructor); lia.
Defined.

(** C6 (as stated, refuted). The LOCATIONS line written for the location
    (0, 10) is 33 characters long: the two 16-character fields are
    separated by a blank that the writer puts between them, it is not the
    two fields back to back. *)
Lemma location_line_has_separator :
  exists w',
    Swan.write_boundary_spec 0 1 2 "out.spc" None None ex_world =
      (w', Ok tt) /\
    w_files w' !! "out.spc"%string =
      Some (Text (unlines (swan_lines ex_freq None ex_locs ex_grid))) /\
    nth_error (swan_lines ex_freq None ex_locs ex_grid) 3 =
      Some (str "          0.0000          10.0000") /\
    fmt_f 16 4 f_zero ++ fmt_f 16 4 f_ten =
      str "          0.0000         10.0000" /\
    str "          0.0000          10.0000" <>
      fmt_f 16 4 f_zero ++ fmt_f 16 4 f_ten.
Proof.
  eexists. split.
  { apply (swan_run ex_world 0 1 2 "out.spc" None None ex_freq None 2 3
             ex_locs ex_grid); try reflexivity; try (repeat constructor). }
  split; [rewrite files_put_file; now rewrite swan_layout_lines|].
  split; [vm_compute; reflexivity|].
  split; [vm_compute; reflexivity|].
  vm_compute. discriminate.
Qed.

(** C6 (amended). Every LOCATIONS line is two ['%16.4f'] fields separated
    by exactly one blank (columns 0-15 and 17-32 when the values fit);
    every data-block line is its ['%16.10f'] fields back to back with no
    delimiter; every other line holds a single field or a keyword. *)
Theorem swan_line_fields (w : world) (freq spec locations : nat)
    (outfile : string) (waveTime sdir : option nat) (fv : list spec_float)
    (dv : option (list spec_float)) (lc gc : nat)
    (locs grid : list (list spec_float)) :
  w_arrays w freq = Arr1 fv ->
  w_arrays w spec = Arr2 gc grid -> wf_array (Arr2 gc grid) ->
  w_arrays w locations = Arr2 lc locs -> wf_array (Arr2 lc locs) ->
  (2 <= lc)%nat ->
  dirs_at w sdir dv ->
  exists w',
    Swan.write_boundary_spec freq spec locations outfile waveTime sdir w =
      (w', Ok tt) /\
    w_files w' !! outfile =
      Some (Text (unlines (swan_lines fv dv locs grid))) /\
    List.Forall (fun row =>
      exists x y rest,
        row = x :: y :: rest /\
        loc_fields row = fmt_f 16 4 x ++ [sp] ++ fmt_f 16 4 y /\
        (fits_field 16 4 x = true -> fits_field 16 4 y = true ->
         length (loc_fields row) = 33%nat /\
         firstn 16 (loc_fields row) = fmt_f 16 4 x /\
         nth_error (loc_fields row) 16 = Some sp /\
         skipn 17 (loc_fields row) = fmt_f 16 4 y)) locs /\
    List.Forall (fun row =>
      data_fields row = concat (map (fmt_f 16 10) row)) grid.
Proof.
  intros Hf Hg Hgwf Hl Hlwf Hlc Hd.
  eexists.
  split; [apply (swan_run w freq spec locations outfile waveTime sdir fv dv
            lc gc locs grid); assumption|].
  split; [rewrite files_put_file; now rewrite swan_layout_lines|].
  split; [|apply List.Forall_forall; reflexivity].
  apply List.Forall_forall. intros row Hrow.
  pose proof (in_rows_length lc locs row Hlwf Hrow) as Hlen.
  destruct row as [|x [|y rest]]; cbn [length] in Hlen; try lia.
  exists x, y, rest. split; [reflexivity|]. split; [reflexivity|].
  intros Hx Hy. cbn [loc_fields].
  pose proof (fmt_f_length_fits 16 4 x Hx) as Lx.
  pose proof (fmt_f_length_fits 16 4 y Hy) as Ly.
  split; [rewrite !length_app, Lx, Ly; reflexivity|].
  split; [now apply take_app_length'|].
  split.
  - rewrite nth_error_app2 by lia. now rewrite Lx.
  - rewrite app_assoc. apply drop_app_length'.
    rewrite length_app, Lx. reflexivity.
Qed.

Lemma swan_line_fields_witness :
  exists w',
    Swan.write_boundary_spec 0 1 2 "out.spc" None (Some 3%nat) ex_world =
      (w', Ok tt) /\
    w_files w' !! "out.spc"%string =
      Some (Text (unlines (swan_lines ex_freq (Some ex_dirs) ex_locs
                             ex_grid))) /\
    List.Forall (fun row =>
      exists x y rest,
        row = x :: y :: rest /\
        loc_fields row = fmt_f 16 4 x ++ [sp] ++ fmt_f 16 4 y /\
        (fits_field 16 4 x = true -> fits_field 16 4 y = true ->
         length (loc_fields row) = 33%nat /\
         firstn 16 (loc_fields row) = fmt_f 16 4 x /\
         nth_error (loc_fields row) 16 = Some sp /\
         skipn 17 (loc_fields row) = fmt_f 16 4 y)) ex_locs /\
    List.Forall (fun row =>
      data_fields row = concat (map (fmt_f 16 10) row)) ex_grid.
Proof.
  apply (swan_line_fields ex_world 0 1 2 "out.spc" None (Some 3%nat)
           ex_freq (Some ex_dirs) 2 3 ex_locs ex_grid);
    try reflexivity; try (repeat constructor); lia.
Defined.

(** C5 (as stated, refuted). The location (0, 0.0625) fits its fields, yet
    cutting its LOCATIONS line every 16 columns yields the three fields
    0.0000, 0.062 and 5: the second coordinate, 0.0625 to four decimals, is
    not recovered. *)
Lemma location_line_misread_in_16_columns :
  exists w',
    Swan.write_boundary_spec 0 1 2 "out.spc" None None fine_world =
      (w', Ok tt) /\
    w_files w' !! "out.spc"%string =
      Some (Text (unlines (swan_lines [f_0_05] None [[f_zero; f_sixteenth]]
                             [[f_one]]))) /\
    nth_error (swan_lines [f_0_05] None [[f_zero; f_sixteenth]] [[f_one]]) 3
      = Some (loc_fields [f_zero; f_sixteenth]) /\
    fits_field 16 4 f_zero = true /\ fits_field 16 4 f_sixteenth = true /\
    decimal_round 4 f_sixteenth = Some 625 /\
    map read_field (chunks 16 (loc_fields [f_zero; f_sixteenth])) =
      [Some (0, 4%nat); Some (62, 3%nat); Some (5, 0%nat)] /\
    ~ same_number (62, 3%nat) (625, 4%nat).
Proof.
  eexists. split.
  { apply (swan_run fine_world 0 1 2 "out.spc" None None [f_0_05] None 2 1
             [[f_zero; f_sixteenth]] [[f_one]]);
      try reflexivity; try (repeat constructor). }
  split; [rewrite files_put_file; now rewrite swan_layout_lines|].
  repeat (split; [vm_compute; reflexivity|]).
  vm_compute. discriminate.
Qed.

(** C5 (amended). For values that fit their fields, the written file reads
    back to the written precision when each data-block line and each
    direction line is cut into consecutive 16-character fields (10 and 4
    decimals), each frequency line is read as one 12-character field
    (8 decimals), and each LOCATIONS line is read at columns 0-15 and
    17-32 (4 decimals): every field read is within half a unit in the last
    written decimal of the input value. *)
Theorem swan_round_trip (w : world) (freq spec locations : nat)
    (outfile : string) (waveTime sdir : option nat) (fv : list spec_float)
    (dv : option (list spec_float)) (lc gc : nat)
    (locs grid : list (list spec_float)) :
  w_arrays w freq = Arr1 fv ->
  w_arrays w spec = Arr2 gc grid -> wf_array (Arr2 gc grid) ->
  w_arrays w locations = Arr2 lc locs -> wf_array (Arr2 lc locs) ->
  (2 <= lc)%nat ->
  dirs_at w sdir dv ->
  List.Forall (fun f => fits_field 12 8 f = true) fv ->
  (forall d, dv = Some d ->
     List.Forall (fun x => fits_field 16 4 x = true) d) ->
  List.Forall (List.Forall (fun x => fits_field 16 4 x = true)) locs ->
  List.Forall (List.Forall (fun v => fits_field 16 10 v = true)) grid ->
  exists w',
    Swan.write_boundary_spec freq spec locations outfile waveTime sdir w =
      (w', Ok tt) /\
    w_files w' !! outfile =
      Some (Text (unlines (swan_lines fv dv locs grid))) /\
    List.Forall (fun row =>
      List.Forall2 (reads_back 10) (chunks 16 (data_fields row)) row) grid /\
    (forall d, dv = Some d ->
       List.Forall (fun x =>
         List.Forall2 (reads_back 4) (chunks 16 (fmt_f 16 4 x)) [x]) d) /\
    List.Forall (fun f =>
      List.Forall2 (reads_back 8) (chunks 12 (fmt_f 12 8 f)) [f]) fv /\
    List.Forall (fun row =>
      exists x y rest,
        row = x :: y :: rest /\
        reads_back 4 (firstn 16 (loc_fields row)) x /\
        reads_back 4 (skipn 17 (loc_fields row)) y) locs.
Proof.
  intros Hf Hg Hgwf Hl Hlwf Hlc Hd Ffv Fdv Flocs Fgrid.
  eexists.
  split; [apply (swan_run w freq spec locations outfile waveTime sdir fv dv
            lc gc locs grid); assumption|].
  split; [rewrite files_put_file; now rewrite swan_layout_lines|].
  split; [|split; [|split]].
  - eapply Forall_impl; [exact Fgrid|]. intros row Hrow. cbv beta in Hrow.
    rewrite data_fields_chunks by exact Hrow. now apply fields_read_back.
  - intros d Hdv. eapply Forall_impl; [exact (Fdv d Hdv)|].
    intros x Hx. cbv beta in Hx.
    rewrite chunks_single by (lia || now apply fmt_f_length_fits).
    constructor; [now apply reads_back_fmt | constructor].
  - eapply Forall_impl; [exact Ffv|]. intros f Hfit. cbv beta in Hfit.
    rewrite chunks_single by (lia || now apply fmt_f_length_fits).
    constructor; [now apply reads_back_fmt | constructor].
  - apply List.Forall_forall. intros row Hrow.
    pose proof (in_rows_length lc locs row Hlwf Hrow) as Hlen.
    rewrite List.Forall_forall in Flocs. specialize (Flocs row Hrow).
    destruct row as [|x [|y rest]]; cbn [length] in Hlen; try lia.
    inversion Flocs as [|? ? Hx Frest]; subst.
    inversion Frest as [|? ? Hy _]; subst.
    exists x, y, rest. split; [reflexivity|]. cbn [loc_fields].
    pose proof (fmt_f_length_fits 16 4 x Hx) as Lx.
    rewrite take_app_length' by now symmetry.
    rewrite app_assoc, drop_app_length'
      by (rewrite length_app, Lx; reflexivity).
    split; now apply reads_back_fmt.
Qed.

Lemma swan_round_trip_witness :
  exists w',
    Swan.write_boundary_spec 0 1 2 "out.spc" None (Some 3%nat) ex_world =
      (w', Ok tt) /\
    w_files w' !! "out.spc"%string =
      Some (Text (unlines (swan_lines ex_freq (Some ex_dirs) ex_locs
                             ex_grid))) /\
    List.Forall (fun row =>
      List.Forall2 (reads_back 10) (chunks 16 (data_fields row)) row)
      ex_grid /\
    (forall d, Some ex_dirs = Some d ->
       List.Forall (fun x =>
         List.Forall2 (reads_back 4) (chunks 16 (fmt_f 16 4 x)) [x]) d) /\
    List.Forall (fun f =>
      List.Forall2 (reads_back 8) (chunks 12 (fmt_f 12 8 f)) [f]) ex_freq /\
    List.Forall (fun row =>
      exists x y rest,
        row = x :: y :: rest /\
        reads_back 4 (firstn 16 (loc_fields row)) x /\
        reads_back 4 (skipn 17 (loc_fields row)) y) ex_locs.
Proof.
  apply (swan_round_trip ex_world 0 1 2 "out.spc" None (Some 3%nat)
           ex_freq (Some ex_dirs) 2 3 ex_locs ex_grid);
    try reflexivity; try lia;
    try (intros d [= <-]); repeat constructor.
Defined.

Section Keeping.

Context (Inv : world -> Prop).

Lemma keeps_same {A : Type} (m : M A) :
  (forall w, fst (m w) = w) -> keeps Inv m.
Proof. intros H w Hw. now rewrite H. Qed.

Lemma keeps_ret {A : Type} (a : A) : keeps Inv (ret a).
Proof. now apply keeps_same. Qed.

Lemma keeps_lift {A : Type} (r : res A) : keeps Inv (lift r).
Proof. now apply keeps_same. Qed.

Lemma keeps_shape_at (r : nat) (k : Z) : keeps Inv (shape_at r k).
Proof. now apply keeps_same. Qed.

Lemma keeps_len (r : nat) : keeps Inv (len r).
Proof. now apply keeps_same. Qed.

Lemma keeps_item1 (r i : nat) : keeps Inv (item1 r i).
Proof. now apply keeps_same. Qed.

Lemma keeps_item2 (r i j : nat) : keeps Inv (item2 r i j).
Proof. now apply keeps_same. Qed.

Lemma keeps_getenv : keeps Inv getenv.
Proof. now apply keeps_same. Qed.

Lemma keeps_load_local {A : Type} (v : option A) : keeps Inv (load_local v).
Proof. destruct v; now apply keeps_same. Qed.

Lemma keeps_bind {A B : Type} (m : M A) (k : A -> M B) :
  keeps Inv m -> (forall a, keeps Inv (k a)) -> keeps Inv (bind m k).
Proof.
  intros Hm Hk w Hw. specialize (Hm w Hw). unfold bind.
  destruct (m w) as [w1 [a|e]]; cbn [fst] in *; [now apply Hk | exact Hm].
Qed.

Lemma keeps_for_each {A : Type} (l : list A) (body : A -> M unit) :
  (forall x, keeps Inv (body x)) -> keeps Inv (for_each l body).
Proof.
  intros Hb. induction l as [|x l IH]; cbn [for_each];
    [apply keeps_ret | apply keeps_bind; [apply Hb | intros _; exact IH]].
Qed.

Lemma keeps_for_range (n : nat) (body : nat -> M unit) :
  (forall x, keeps Inv (body x)) -> keeps Inv (for_range n body).
Proof. apply keeps_for_each. Qed.

End Keeping.

Section Within.

Context (P : list string) (w0 : world).

Lemma within_print (F : list nat) (t : text) :
  keeps (within P F w0) (print t).
Proof. intros w Hw. exact Hw. Qed.

Lemma within_fclose (F : list nat) (fd : nat) :
  keeps (within P F w0) (fclose fd).
Proof.
  intros w (Ha & Hf & Ho). split; [exact Ha|]. split; [exact Hf|].
  intros fd' q Hin Hq. cbn in Hq.
  apply lookup_delete_Some in Hq as [_ Hq]. now apply (Ho fd').
Qed.

Lemma within_fwrite (F : list nat) (fd : nat) (t : text) :
  In fd F -> keeps (within P F w0) (fwrite fd t).
Proof.
  intros Hin w (Ha & Hf & Ho). unfold fwrite.
  destruct (w_open w !! fd) as [p|] eqn:Ep; [|now repeat split].
  destruct (w_files w !! p) as [[c|d]|] eqn:Ec; try now repeat split.
  cbn [fst]. split; [exact Ha|]. split; [|exact Ho].
  intros q Hq. rewrite files_put_file_ne; [now apply Hf|].
  intros ->. apply Hq. now apply (Ho fd).
Qed.

Lemma within_nc_modify (F : list nat) (fd : nat)
    (f : dataset -> res dataset) :
  In fd F -> keeps (within P F w0) (nc_modify fd f).
Proof.
  intros Hin w (Ha & Hf & Ho). unfold nc_modify.
  destruct (w_open w !! fd) as [p|] eqn:Ep; [|now repeat split].
  destruct (w_files w !! p) as [[c|d]|] eqn:Ec; try now repeat split.
  destruct (f d) as [d'|e]; [|now repeat split].
  cbn [fst]. split; [exact Ha|]. split; [|exact Ho].
  intros q Hq. rewrite files_put_file_ne; [now apply Hf|].
  intros ->. apply Hq. now apply (Ho fd).
Qed.

Lemma within_nc_assign (F : list nat) (fd : nat) (name : string)
    (a : nat) :
  In fd F -> keeps (within P F w0) (nc_assign fd name a).
Proof.
  intros Hin w Hw. unfold nc_assign, nc_update_var.
  now apply within_nc_modify.
Qed.

Lemma within_opened (F : list nat) (p : string) (c : content) (w : world) :
  In p P -> within P F w0 w ->
  within P (fresh (dom (w_open w)) :: F) w0
    (set_open (<[fresh (dom (w_open w)) := p]> (w_open w)) (put_file p c w)).
Proof.
  intros Hp (Ha & Hf & Ho). split; [exact Ha|]. split.
  - intros q Hq. cbn. rewrite lookup_insert_ne; [now apply Hf|].
    intros ->. now apply Hq.
  - intros fd q Hin Hq. cbn in Hq.
    apply lookup_insert_Some in Hq as [[_ <-]|[Hne Hq]]; [exact Hp|].
    destruct Hin as [E|Hin]; [congruence | now apply (Ho fd)].
Qed.

Lemma within_drop (F : list nat) (fd : nat) (w : world) :
  within P (fd :: F) w0 w -> within P F w0 w.
Proof.
  intros (Ha & Hf & Ho). split; [exact Ha|]. split; [exact Hf|].
  intros fd' q Hin. apply Ho. now right.
Qed.

(** A block that opens a file of [P] and goes on with the new handle. *)
Lemma within_open {B : Type} (F : list nat) (p : string)
    (k : nat -> M B) :
  In p P -> (forall fd, keeps (within P (fd :: F) w0) (k fd)) ->
  keeps (within P F w0) (bind (open_w p) k).
Proof.
  intros Hp Hk w Hw. unfold bind, open_w.
  eapply within_drop, Hk. now apply within_opened.
Qed.

Lemma within_nc_open {B : Type} (F : list nat) (p : string)
    (k : nat -> M B) :
  In p P -> (forall fd, keeps (within P (fd :: F) w0) (k fd)) ->
  keeps (within P F w0) (bind (nc_open p) k).
Proof.
  intros Hp Hk w Hw. unfold bind, nc_open.
  eapply within_drop, Hk. now apply within_opened.
Qed.

End Within.

Section Closing.

Lemma foldr_delete_commute (fd : nat) (L : list nat) (o : gmap nat string) :
  foldr delete (delete fd o) L = delete fd (foldr delete o L).
Proof.
  induction L as [|x L IH]; cbn [foldr]; [reflexivity|].
  rewrite IH. apply delete_delete.
Qed.

Lemma foldr_delete_snoc (fd : nat) (L : list nat) (o : gmap nat string) :
  foldr delete o (L ++ [fd]) = foldr delete (delete fd o) L.
Proof. now rewrite foldr_app. Qed.

Lemma closes_same {A : Type} (m : M A) :
  (forall w, w_open (fst (m w)) = w_open w) -> closes [] m.
Proof. intros H w w' a E. specialize (H w). now rewrite E in H. Qed.

Lemma closes_fwrite (fd : nat) (t : text) : closes [] (fwrite fd t).
Proof.
  apply closes_same. intros w. unfold fwrite.
  destruct (w_open w !! fd) as [p|]; [|reflexivity].
  destruct (w_files w !! p) as [[c|d]|]; reflexivity.
Qed.

Lemma closes_nc_modify (fd : nat) (f : dataset -> res dataset) :
  closes [] (nc_modify fd f).
Proof.
  apply closes_same. intros w. unfold nc_modify.
  destruct (w_open w !! fd) as [p|]; [|reflexivity].
  destruct (w_files w !! p) as [[c|d]|]; try reflexivity.
  destruct (f d); reflexivity.
Qed.

Lemma closes_nc_assign (fd : nat) (name : string) (a : nat) :
  closes [] (nc_assign fd name a).
Proof.
  intros w w' r E. unfold nc_assign, nc_update_var in E.
  now apply closes_nc_modify in E.
Qed.

Lemma closes_load_local {A : Type} (v : option A) :
  closes [] (load_local v).
Proof. destruct v; now apply closes_same. Qed.

Lemma closes_fclose (fd : nat) : closes [fd] (fclose fd).
Proof. intros w w' a E. injection E as <- _. reflexivity. Qed.

(** A balanced step, then a tail that closes [L]. *)
Lemma closes_bind {A B : Type} (L : list nat) (m : M A) (k : A -> M B) :
  closes [] m -> (forall a, closes L (k a)) -> closes L (bind m k).
Proof.
  intros Hm Hk w w' b E. unfold bind in E.
  destruct (m w) as [w1 [a|e]] eqn:Em; [|discriminate E].
  rewrite (Hk a w1 w' b E). f_equal. exact (Hm w w1 a Em).
Qed.

(** Closing [fd], then a tail that closes [L]. *)
Lemma closes_fclose_then {B : Type} (fd : nat) (L : list nat)
    (k : unit -> M B) :
  (forall a, closes L (k a)) -> closes (fd :: L) (bind (fclose fd) k).
Proof.
  intros Hk w w' b E. unfold bind, fclose in E.
  rewrite (Hk tt _ w' b E). cbn [w_open set_open foldr].
  apply foldr_delete_commute.
Qed.

Lemma closes_for_each {A : Type} (l : list A) (body : A -> M unit) :
  (forall x, closes [] (body x)) -> closes [] (for_each l body).
Proof.
  intros Hb. induction l as [|x l IH]; cbn [for_each].
  - now apply closes_same.
  - apply closes_bind; [apply Hb | intros _; exact IH].
Qed.

Lemma closes_for_range (n : nat) (body : nat -> M unit) :
  (forall x, closes [] (body x)) -> closes [] (for_range n body).
Proof. apply closes_for_each. Qed.

Lemma closes_opened (L : list nat) (p : string) (o : gmap nat string) :
  foldr delete (<[fresh (dom o) := p]> o) (L ++ [fresh (dom o)]) =
  foldr delete o L.
Proof.
  rewrite foldr_delete_snoc, delete_insert_id; [reflexivity|].
  apply not_elem_of_dom, is_fresh.
Qed.

(** Opening a file, then a tail that closes the new handle and [L]. *)
Lemma closes_open {B : Type} (L : list nat) (p : string)
    (k : nat -> M B) :
  (forall fd, closes (L ++ [fd]) (k fd)) -> closes L (bind (open_w p) k).
Proof.
  intros Hk w w' b E. unfold bind, open_w in E.
  rewrite (Hk _ _ w' b E). cbn [w_open set_open put_file set_files].
  apply closes_opened.
Qed.

Lemma closes_nc_open {B : Type} (L : list nat) (p : string)
    (k : nat -> M B) :
  (forall fd, closes (L ++ [fd]) (k fd)) -> closes L (bind (nc_open p) k).
Proof.
  intros Hk w w' b E. unfold bind, nc_open in E.
  rewrite (Hk _ _ w' b E). cbn [w_open set_open put_file set_files].
  apply closes_opened.
Qed.

End Closing.

(** Walking through the code of a writer. *)
Ltac nc_unfold :=
  unfold nc_setattr, nc_createDimension, nc_createVariable, nc_setvarattr,
    nc_update_var.

Ltac closes_step :=
  lazymatch goal with
  | |- closes _ (bind (open_w _) _) => apply closes_open; intros ?; cbn [app]
  | |- closes _ (bind (nc_open _) _) =>
      apply closes_nc_open; intros ?; cbn [app]
  | |- closes _ (bind (fclose _) _) => apply closes_fclose_then; intros ?
  | |- closes _ (fclose _) => apply closes_fclose
  | |- closes _ (bind _ _) => apply closes_bind; [|intros ?]
  | |- closes _ (for_range _ _) => apply closes_for_range; intros ?
  | |- closes _ (fwrite _ _) => apply closes_fwrite
  | |- closes _ (nc_modify _ _) => apply closes_nc_modify
  | |- closes _ (nc_assign _ _ _) => apply closes_nc_assign
  | |- closes _ (load_local _) => apply closes_load_local
  | |- closes _ _ => apply closes_same; intros ?; reflexivity
  end.

Ltac within_step :=
  lazymatch goal with
  | |- keeps _ (bind (open_w _) _) =>
      apply within_open; [cbn; tauto | intros ?]
  | |- keeps _ (bind (nc_open _) _) =>
      apply within_nc_open; [cbn; tauto | intros ?]
  | |- keeps _ (bind _ _) => apply keeps_bind; [|intros ?]
  | |- keeps _ (for_range _ _) => apply keeps_for_range; intros ?
  | |- keeps _ (fwrite _ _) => apply within_fwrite; cbn; tauto
  | |- keeps _ (nc_modify _ _) => apply within_nc_modify; cbn; tauto
  | |- keeps _ (nc_assign _ _ _) => apply within_nc_assign; cbn; tauto
  | |- keeps _ (fclose _) => apply within_fclose
  | |- keeps _ (print _) => apply within_print
  | |- keeps _ (load_local _) => apply keeps_load_local
  | |- keeps _ _ => apply keeps_same; intros ?; reflexivity
  end.

Section WritersDiscipline.

Lemma swan_closes (freq spec locations : nat) (outfile : string)
    (waveTime sdir : option nat) :
  closes [] (Swan.write_boundary_spec freq spec locations outfile waveTime
               sdir).
Proof.
  unfold Swan.write_boundary_spec. destruct sdir; repeat closes_step.
Qed.

Lemma xbeach_spec_closes (freq spec locations : nat) (outfile : string)
    (waveTime sdir : option nat) (swan : bool) :
  closes [] (Xbeach.write_boundary_spec freq spec locations outfile
               waveTime sdir swan).
Proof.
  unfold Xbeach.write_boundary_spec. destruct swan.
  - apply closes_bind; [closes_step | intros _; apply swan_closes].
  - destruct sdir; repeat closes_step.
Qed.

Lemma bathy_closes (x z : nat) (outfld : string) (y : option nat)
    (ncsave : bool) :
  closes [] (Xbeach.write_bathy x z outfld y ncsave).
Proof.
  unfold Xbeach.write_bathy, Xbeach.write_bathy_text,
    Xbeach.write_bathy_netcdf, Xbeach.write_bathy_report. nc_unfold.
  destruct y, ncsave; cbv zeta; repeat closes_step.
Qed.

Lemma swan_within (w0 : world) (freq spec locations : nat)
    (outfile : string) (waveTime sdir : option nat) :
  keeps (within [outfile] [] w0)
    (Swan.write_boundary_spec freq spec locations outfile waveTime sdir).
Proof.
  unfold Swan.write_boundary_spec. destruct sdir; repeat within_step.
Qed.

Lemma xbeach_spec_within (w0 : world) (freq spec locations : nat)
    (outfile : string) (waveTime sdir : option nat) (swan : bool) :
  keeps (within [outfile] [] w0)
    (Xbeach.write_boundary_spec freq spec locations outfile waveTime sdir
       swan).
Proof.
  unfold Xbeach.write_boundary_spec. destruct swan.
  - apply keeps_bind; [within_step | intros _; apply swan_within].
  - destruct sdir; repeat within_step.
Qed.

Lemma bathy_within (w0 : world) (x z : nat) (outfld : string)
    (y : option nat) (ncsave : bool) :
  keeps (within (bathy_paths outfld) [] w0)
    (Xbeach.write_bathy x z outfld y ncsave).
Proof.
  unfold Xbeach.write_bathy, Xbeach.write_bathy_text,
    Xbeach.write_bathy_netcdf, Xbeach.write_bathy_report, bathy_paths.
  nc_unfold.
  destruct y, ncsave; cbv zeta; repeat within_step.
Qed.

Lemma within_start (P : list string) (w : world) : within P [] w w.
Proof. repeat split. intros fd q []. Qed.

End WritersDiscipline.

(* ===================================================================== *)
(** * Claims on handles and on the inputs *)
(* ===================================================================== *)

Lemma call_closes (c : writer_call) : closes [] (run_call c).
Proof.
  destruct c; cbn [run_call];
    [apply swan_closes | apply xbeach_spec_closes | apply bathy_closes].
Qed.

(** C9 (as stated, refuted). A location table with a single column makes
    [locations[0,1]] raise [IndexError] after the file was opened: the
    call exits with the handle still open. *)
Lemma handle_left_open_on_error :
  exists w',
    run_call (SwanSpec 0 1 2 "out.spc" None None) narrow_world =
      (w', Raise IndexError) /\
    w_open narrow_world = ∅ /\
    w_open w' !! 0%nat = Some "out.spc"%string.
Proof.
  exists (fst (run_call (SwanSpec 0 1 2 "out.spc" None None) narrow_world)).
  split; [vm_compute; reflexivity|].
  split; [reflexivity | vm_compute; reflexivity].
Qed.

(** C9 (amended). Whenever a writer call returns normally, every file
    handle opened during the call has been closed: the open handles are
    those of before the call. *)
Theorem handles_closed_on_return (c : writer_call) (w w' : world) :
  run_call c w = (w', Ok tt) -> w_open w' = w_open w.
Proof.
  intros E. exact (call_closes c w w' tt E).
Qed.

Lemma handles_closed_on_return_witness :
  w_open (fst (run_call (Bathy 0 1 "d/" None true) bathy_world)) =
  w_open bathy_world.
Proof.
  apply (handles_closed_on_return (Bathy 0 1 "d/" None true) bathy_world).
  vm_compute. reflexivity.
Defined.

(** C10. For every writer call, whatever it returns or raises: the arrays
    of the store are unchanged, no file other than the output files of the
    call is touched, and on normal return the open handles are unchanged;
    what remains is the output files and the console. *)
Theorem writers_only_read_inputs (c : writer_call) (w : world) :
  w_arrays (fst (run_call c w)) = w_arrays w /\
  (forall q, ~ In q (call_paths c) ->
             w_files (fst (run_call c w)) !! q = w_files w !! q) /\
  w_env (fst (run_call c w)) = w_env w /\
  (snd (run_call c w) = Ok tt -> w_open (fst (run_call c w)) = w_open w).
Proof.
  assert (Hin : within (call_paths c) [] w (fst (run_call c w))).
  { destruct c; cbn [run_call call_paths].
    - apply swan_within, within_start.
    - apply xbeach_spec_within, within_start.
    - apply bathy_within, within_start. }
  destruct Hin as ((Ha & He) & Hf & _).
  split; [exact Ha|]. split; [exact Hf|]. split; [exact He|].
  intros Hok. apply (call_closes c w _ tt).
  destruct (run_call c w) as [w' r]. cbn [fst snd] in *. now subst r.
Qed.

(* ===================================================================== *)
(** * The text block of [write_bathy] *)
(* ===================================================================== *)

Section BathyText.

Lemma append_cancel (p a b : string) : p +:+ a = p +:+ b -> a = b.
Proof.
  induction p as [|c p IH]; cbn; [trivial|]. intros [= E]. now apply IH.
Qed.

Lemma append_differ (p a b : string) : a <> b -> p +:+ a <> p +:+ b.
Proof. intros H E. now apply H, (append_cancel p). Qed.

Lemma for_range_fold_idx {S : Type} (n : nat) (st : S -> world)
    (step : S -> nat -> S) (body : nat -> M unit) :
  (forall i s, (i < n)%nat -> body i (st s) = (st (step s i), Ok tt)) ->
  forall s, for_range n body (st s) =
            (st (fold_left step (seq 0 n) s), Ok tt).
Proof.
  intros Hbody s.
  pose proof (for_range_fold (seq 0 n) st step body) as H.
  rewrite List.length_seq in H. apply H. intros i x s' Hi.
  assert (Hlt : (i < length (seq 0 n))%nat)
    by (apply nth_error_Some; congruence).
  rewrite List.length_seq in Hlt.
  rewrite nth_error_seq in Hi.
  destruct (Nat.ltb_spec i n); [|lia]. injection Hi as <-. now apply Hbody.
Qed.

Lemma map_nth_seq {A : Type} (d : A) (l : list A) :
  map (fun i => nth i l d) (seq 0 (length l)) = l.
Proof.
  induction l as [|a l IH]; [reflexivity|].
  cbn [length seq map nth]. f_equal.
  rewrite <- seq_shift, map_map. exact IH.
Qed.

Lemma fold_left_append3 (f g h : nat -> text) (l : list nat)
    (c : text * text * text) :
  fold_left (fun s i => (fst (fst s) ++ f i, snd (fst s) ++ g i,
                         snd s ++ h i)) l c =
  (fst (fst c) ++ concat (map f l), snd (fst c) ++ concat (map g l),
   snd c ++ concat (map h l)).
Proof.
  revert c. induction l as [|i l IH]; intros [[a b] d];
    cbn [fold_left map concat fst snd].
  - now rewrite !app_nil_r.
  - rewrite IH. cbn [fst snd]. now rewrite <- !app_assoc.
Qed.

Lemma field1_loop (r : nat) (v : list spec_float) (fd : nat) (p : string)
    (w : world) (c : text) :
  w_arrays w r = Arr1 v ->
  for_range (length v) (fun aa =>
    let* f := item1 r aa in
    let* s := lift (pct_f 16 4 f) in
    fwrite fd s) (wr fd p c w) =
  (wr fd p (c ++ bathy_row v) w, Ok tt).
Proof.
  intros Ha. apply for_range_wr. intros i x c' Hi.
  erewrite bind_ok; [|unfold item1; rewrite arrays_wr, Ha; cbn [getitem1];
                      rewrite Hi; reflexivity].
  cbn [pct_f to_float]. rewrite bind_lift_ok. apply fwrite_wr.
Qed.

(** One vector written to one file: open, the fields, a newline, close. *)
Lemma bathy_vector_block {B : Type} (r : nat) (v : list spec_float)
    (p : string) (w : world) (k : unit -> M B) :
  w_arrays w r = Arr1 v ->
  (let* fid := open_w p in
   let* n := len r in
   for_range n (fun aa =>
     let* f := item1 r aa in
     let* s := lift (pct_f 16 4 f) in
     fwrite fid s) ;;
   fwrite fid [nl] ;;
   bind (fclose fid) k) w =
  k tt (put_file p (Text (grid_text (Arr1 v))) w).
Proof.
  intros Ha.
  rewrite (bind_ok _ _ _ _ _ (open_w_run p w)).
  unfold len.
  rewrite (shape_at_bind _ _ (length v)) by (rewrite arrays_wr, Ha; reflexivity).
  rewrite (bind_ok _ _ _ _ _ (field1_loop _ _ _ _ _ _ Ha)).
  rewrite fwrite_wr_bind.
  rewrite (bind_ok _ _ _ _ _ (fclose_wr_fresh _ _ _)).
  unfold grid_text, unlines. cbn [grid_rows map concat app].
  now rewrite app_nil_r.
Qed.

Lemma bathy_vector_last (r : nat) (v : list spec_float) (p : string)
    (w : world) :
  w_arrays w r = Arr1 v ->
  (let* fid := open_w p in
   let* n := len r in
   for_range n (fun aa =>
     let* f := item1 r aa in
     let* s := lift (pct_f 16 4 f) in
     fwrite fid s) ;;
   fwrite fid [nl] ;;
   fclose fid) w =
  (put_file p (Text (grid_text (Arr1 v))) w, Ok tt).
Proof.
  intros Ha.
  rewrite (bind_ok _ _ _ _ _ (open_w_run p w)).
  unfold len.
  rewrite (shape_at_bind _ _ (length v)) by (rewrite arrays_wr, Ha; reflexivity).
  rewrite (bind_ok _ _ _ _ _ (field1_loop _ _ _ _ _ _ Ha)).
  rewrite fwrite_wr_bind, fclose_wr_fresh.
  unfold grid_text, unlines. cbn [grid_rows map concat app].
  now rewrite app_nil_r.
Qed.

Lemma bathy_text_1d (w : world) (x z : nat) (outfld : string)
    (xv zv : list spec_float) :
  w_arrays w x = Arr1 xv -> w_arrays w z = Arr1 zv ->
  Xbeach.write_bathy_text x z outfld None w =
  (put_file (outfld +:+ "x.grd") (Text (grid_text (Arr1 xv)))
     (put_file (outfld +:+ "z.dep") (Text (grid_text (Arr1 zv)))
        (set_console (w_console w ++ [str "Writing 1D grids"]) w)),
   Ok tt).
Proof.
  intros Hx Hz. unfold Xbeach.write_bathy_text.
  rewrite (bind_ok _ _ _ _ _ (print_run _ w)).
  set (w1 := set_console _ w).
  rewrite (bathy_vector_block z zv _ w1) by exact Hz.
  now rewrite (bathy_vector_last x xv) by exact Hx.
Qed.

End BathyText.

Section BathyText2D.

Context (fx fy fz : nat) (px py pz : string).
Hypothesis (Fxy : fx <> fy) (Fxz : fx <> fz) (Fyz : fy <> fz).
Hypothesis (Pxy : px <> py) (Pxz : px <> pz) (Pyz : py <> pz).

Abbreviation st3 := (wr3 fx fy fz px py pz).

Lemma fwrite_x3 (t : text) (c : text * text * text) (w : world) :
  fwrite fx t (st3 c w) =
  (st3 (fst (fst c) ++ t, snd (fst c), snd c) w, Ok tt).
Proof.
  unfold fwrite, wr3, put_file, set_open, set_files. cbn.
  rewrite !lookup_insert_ne, lookup_insert_eq by congruence. cbn.
  rewrite !lookup_insert_ne, lookup_insert_eq by congruence.
  do 2 f_equal.
  rewrite (insert_insert_ne _ px pz), (insert_insert_ne _ px py)
    by congruence.
  now rewrite insert_insert_eq.
Qed.

Lemma fwrite_y3 (t : text) (c : text * text * text) (w : world) :
  fwrite fy t (st3 c w) =
  (st3 (fst (fst c), snd (fst c) ++ t, snd c) w, Ok tt).
Proof.
  unfold fwrite, wr3, put_file, set_open, set_files. cbn.
  rewrite lookup_insert_ne, lookup_insert_eq by congruence. cbn.
  rewrite lookup_insert_ne, lookup_insert_eq by congruence.
  do 2 f_equal.
  rewrite (insert_insert_ne _ py pz) by congruence.
  now rewrite insert_insert_eq.
Qed.

Lemma fwrite_z3 (t : text) (c : text * text * text) (w : world) :
  fwrite fz t (st3 c w) =
  (st3 (fst (fst c), snd (fst c), snd c ++ t) w, Ok tt).
Proof.
  unfold fwrite, wr3, put_file, set_open, set_files. cbn.
  rewrite lookup_insert_eq. cbn. rewrite lookup_insert_eq.
  do 2 f_equal. now rewrite insert_insert_eq.
Qed.

Lemma item2_st3_bind {B : Type} (r i j nc : nat)
    (rows : list (list spec_float)) (row : list spec_float)
    (c : text * text * text) (w : world) (k : pyval -> M B) :
  w_arrays w r = Arr2 nc rows -> nth_error rows i = Some row ->
  length row = nc -> (j < nc)%nat ->
  bind (item2 r i j) k (st3 c w) =
  k (PFloat (nth j row (S754_zero false))) (st3 c w).
Proof.
  intros Ha Hi Hlen Hj. apply bind_ok. unfold item2.
  change (w_arrays (st3 c w)) with (w_arrays w). rewrite Ha.
  cbn [getitem2]. rewrite Hi.
  destruct (Nat.ltb_spec j nc); [|lia].
  rewrite (nth_error_nth' row (S754_zero false)) by lia. reflexivity.
Qed.

Variables (x y z nc : nat) (xr yr zr : list (list spec_float)).
Variable (w : world).
Hypothesis (Hx : w_arrays w x = Arr2 nc xr) (Hy : w_arrays w y = Arr2 nc yr)
           (Hz : w_arrays w z = Arr2 nc zr).
Hypothesis (Wx : wf_array (Arr2 nc xr)) (Wy : wf_array (Arr2 nc yr))
           (Wz : wf_array (Arr2 nc zr)).
Hypothesis (Lx : length xr = length zr) (Ly : length yr = length zr).

Lemma row_at (rows : list (list spec_float)) (aa : nat) :
  wf_array (Arr2 nc rows) -> (aa < length rows)%nat ->
  nth_error rows aa = Some (nth aa rows []) /\
  length (nth aa rows []) = nc.
Proof.
  intros Hwf Hlt.
  pose proof (nth_error_nth' rows [] Hlt) as E. split; [exact E|].
  eapply in_rows_length; [exact Hwf | eapply nth_error_In, E].
Qed.

Lemma bathy_row_nth (row : list spec_float) :
  concat (map (fun i => fmt_f 16 4 (nth i row (S754_zero false)))
            (seq 0 (length row))) = bathy_row row.
Proof.
  unfold bathy_row.
  rewrite <- (map_map (fun i => nth i row (S754_zero false)) (fmt_f 16 4)).
  now rewrite map_nth_seq.
Qed.

Lemma bathy_inner_loop (aa : nat) (c : text * text * text) :
  (aa < length zr)%nat ->
  for_range nc (fun bb =>
    let* vx := item2 x aa bb in
    let* sx := lift (pct_f 16 4 vx) in
    fwrite fx sx ;;
    let* vy := item2 y aa bb in
    let* sy := lift (pct_f 16 4 vy) in
    fwrite fy sy ;;
    let* vz := item2 z aa bb in
    let* sz := lift (pct_f 16 4 vz) in
    fwrite fz sz) (st3 c w) =
  (st3 (fst (fst c) ++ bathy_row (nth aa xr []),
        snd (fst c) ++ bathy_row (nth aa yr []),
        snd c ++ bathy_row (nth aa zr [])) w, Ok tt).
Proof.
  intros Haa.
  destruct (row_at xr aa Wx ltac:(lia)) as [Ex Lxr].
  destruct (row_at yr aa Wy ltac:(lia)) as [Ey Lyr].
  destruct (row_at zr aa Wz ltac:(lia)) as [Ez Lzr].
  rewrite (for_range_fold_idx nc (fun c => st3 c w)
             (fun s i =>
                (fst (fst s) ++ fmt_f 16 4 (nth i (nth aa xr []) (S754_zero false)),
                 snd (fst s) ++ fmt_f 16 4 (nth i (nth aa yr []) (S754_zero false)),
                 snd s ++ fmt_f 16 4 (nth i (nth aa zr []) (S754_zero false))))).
  - rewrite fold_left_append3. cbn [fst snd].
    rewrite <- Lxr at 1. rewrite <- Lyr at 1. rewrite <- Lzr at 1.
    now rewrite !bathy_row_nth.
  - intros i s Hi.
    rewrite (item2_st3_bind _ _ _ _ _ _ _ _ _ Hx Ex Lxr Hi).
    cbn [pct_f to_float]. rewrite bind_lift_ok.
    rewrite (bind_ok _ _ _ _ _ (fwrite_x3 _ _ _)).
    rewrite (item2_st3_bind _ _ _ _ _ _ _ _ _ Hy Ey Lyr Hi).
    cbn [pct_f to_float]. rewrite bind_lift_ok.
    rewrite (bind_ok _ _ _ _ _ (fwrite_y3 _ _ _)).
    rewrite (item2_st3_bind _ _ _ _ _ _ _ _ _ Hz Ez Lzr Hi).
    cbn [pct_f to_float]. rewrite bind_lift_ok.
    rewrite fwrite_z3. reflexivity.
Qed.

Lemma grid_text_nth (rows : list (list spec_float)) (n : nat) :
  length rows = n ->
  concat (map (fun aa => bathy_row (nth aa rows []) ++ [nl]) (seq 0 n)) =
  grid_text (Arr2 nc rows).
Proof.
  intros <-. unfold grid_text, unlines. cbn [grid_rows].
  rewrite map_map.
  rewrite <- (map_map (fun aa => nth aa rows [])
                (fun r => bathy_row r ++ [nl])).
  now rewrite map_nth_seq.
Qed.

Lemma bathy_outer_loop :
  for_range (length zr) (fun aa =>
    let* n1 := shape_at z 1 in
    for_range n1 (fun bb =>
      let* vx := item2 x aa bb in
      let* sx := lift (pct_f 16 4 vx) in
      fwrite fx sx ;;
      let* vy := item2 y aa bb in
      let* sy := lift (pct_f 16 4 vy) in
      fwrite fy sy ;;
      let* vz := item2 z aa bb in
      let* sz := lift (pct_f 16 4 vz) in
      fwrite fz sz) ;;
    fwrite fx [nl] ;;
    fwrite fy [nl] ;;
    fwrite fz [nl]) (st3 ([], [], []) w) =
  (st3 (grid_text (Arr2 nc xr), grid_text (Arr2 nc yr),
        grid_text (Arr2 nc zr)) w, Ok tt).
Proof.
  rewrite (for_range_fold_idx (length zr) (fun c => st3 c w)
             (fun s aa =>
                (fst (fst s) ++ (bathy_row (nth aa xr []) ++ [nl]),
                 snd (fst s) ++ (bathy_row (nth aa yr []) ++ [nl]),
                 snd s ++ (bathy_row (nth aa zr []) ++ [nl])))).
  - rewrite fold_left_append3. cbn [fst snd app].
    now rewrite !grid_text_nth.
  - intros aa s Haa.
    rewrite (shape_at_bind _ _ nc)
      by (change (w_arrays (st3 s w)) with (w_arrays w); rewrite Hz;
          reflexivity).
    rewrite (bind_ok _ _ _ _ _ (bathy_inner_loop aa s Haa)).
    rewrite (bind_ok _ _ _ _ _ (fwrite_x3 _ _ _)). cbn [fst snd].
    rewrite (bind_ok _ _ _ _ _ (fwrite_y3 _ _ _)). cbn [fst snd].
    rewrite fwrite_z3. cbn [fst snd]. now rewrite <- !app_assoc.
Qed.

End BathyText2D.

Section BathyFiles.

Lemma fresh_after_insert (a : nat) (p : string) (o : gmap nat string) :
  fresh (dom (<[a := p]> o)) <> a.
Proof.
  intros E. apply (is_fresh (dom (<[a := p]> o))). rewrite E.
  apply elem_of_dom. rewrite lookup_insert_eq. now eexists.
Qed.

Lemma fresh_after_insert2 (a b : nat) (p q : string) (o : gmap nat string) :
  fresh (dom (<[b := q]> (<[a := p]> o))) <> a.
Proof.
  intros E. apply (is_fresh (dom (<[b := q]> (<[a := p]> o)))). rewrite E.
  apply elem_of_dom. destruct (decide (b = a)) as [->|Hne].
  - rewrite lookup_insert_eq. now eexists.
  - rewrite lookup_insert_ne, lookup_insert_eq by exact Hne. now eexists.
Qed.

Lemma bathy_text_2d (w : world) (x y z : nat) (outfld : string) (nc : nat)
    (xr yr zr : list (list spec_float)) :
  w_arrays w x = Arr2 nc xr -> w_arrays w y = Arr2 nc yr ->
  w_arrays w z = Arr2 nc zr ->
  wf_array (Arr2 nc xr) -> wf_array (Arr2 nc yr) -> wf_array (Arr2 nc zr) ->
  length xr = length zr -> length yr = length zr ->
  exists w1,
    Xbeach.write_bathy_text x z outfld (Some y) w = (w1, Ok tt) /\
    w_arrays w1 = w_arrays w /\
    w_files w1 =
      <[outfld +:+ "z.dep" := Text (grid_text (Arr2 nc zr))]>
        (<[outfld +:+ "y.grd" := Text (grid_text (Arr2 nc yr))]>
           (<[outfld +:+ "x.grd" := Text (grid_text (Arr2 nc xr))]>
              (w_files w))).
Proof.
  intros Hx Hy Hz Wx Wy Wz Lx Ly. unfold Xbeach.write_bathy_text.
  rewrite (bind_ok _ _ _ _ _ (print_run _ w)).
  set (w0 := set_console _ w).
  rewrite (bind_ok _ _ _ _ _ (open_w_run _ w0)).
  rewrite (bind_ok _ _ _ _ _ (open_w_run _ _)).
  rewrite (bind_ok _ _ _ _ _ (open_w_run _ _)).
  set (px := outfld +:+ "x.grd"). set (py := outfld +:+ "y.grd").
  set (pz := outfld +:+ "z.dep").
  set (fx := fresh (dom (w_open w0))).
  set (fy := fresh (dom (w_open (wr fx px [] w0)))).
  set (fz := fresh (dom (w_open (wr fy py [] (wr fx px [] w0))))).
  change (wr fz pz [] (wr fy py [] (wr fx px [] w0)))
    with (wr3 fx fy fz px py pz ([], [], []) w0).
  rewrite (shape_at_bind _ _ (length zr)) by (cbn [w_arrays wr3 set_open set_files w0 set_console]; rewrite Hz; reflexivity).
  assert (Fxy : fx <> fy) by (apply not_eq_sym, fresh_after_insert).
  assert (Fxz : fx <> fz) by (apply not_eq_sym, fresh_after_insert2).
  assert (Fyz : fy <> fz) by (apply not_eq_sym, fresh_after_insert).
  assert (Pxy : px <> py) by (apply append_differ; discriminate).
  assert (Pxz : px <> pz) by (apply append_differ; discriminate).
  assert (Pyz : py <> pz) by (apply append_differ; discriminate).
  rewrite (bind_ok _ _ _ _ _
             (bathy_outer_loop fx fy fz px py pz Fxy Fxz Fyz Pxy Pxz Pyz
                x y z nc xr yr zr w0 Hx Hy Hz Wx Wy Wz Lx Ly)).
  eexists. split; [unfold bind, fclose; reflexivity|].
  split; reflexivity.
Qed.

(** The netCDF block and the report leave every file but [depth.nc]
    alone. *)
Lemma bathy_tail_within (w0 : world) (x z : nat) (outfld : string)
    (y : option nat) (ncsave : bool) :
  keeps (within [outfld +:+ "depth.nc"] [] w0)
    (let* locals := Xbeach.write_bathy_netcdf x z outfld y ncsave in
     Xbeach.write_bathy_report y (fst locals) (snd locals)).
Proof.
  unfold Xbeach.write_bathy_netcdf, Xbeach.write_bathy_report. nc_unfold.
  destruct y, ncsave; cbv zeta; repeat within_step.
Qed.

Lemma isnc_nc_modify (q : string) (fd : nat) (f : dataset -> res dataset) :
  keeps (is_nc q) (nc_modify fd f).
Proof.
  intros w [d Hd]. unfold nc_modify.
  destruct (w_open w !! fd) as [p|] eqn:Ep; [|now exists d].
  destruct (w_files w !! p) as [[c|d0]|] eqn:Ec; try now exists d.
  destruct (f d0) as [d'|e]; [|now exists d].
  cbn [fst]. destruct (decide (p = q)) as [->|Hne].
  - exists d'. apply files_put_file.
  - exists d. now rewrite files_put_file_ne.
Qed.

Lemma isnc_nc_assign (q : string) (fd : nat) (name : string) (a : nat) :
  keeps (is_nc q) (nc_assign fd name a).
Proof.
  intros w Hw. unfold nc_assign, nc_update_var. now apply isnc_nc_modify.
Qed.

Lemma isnc_nc_open {B : Type} (p : string) (k : nat -> M B) (w : world) :
  (forall fd, keeps (is_nc p) (k fd)) ->
  is_nc p (fst (bind (nc_open p) k w)).
Proof.
  intros Hk. unfold bind, nc_open. apply Hk.
  exists nc_empty. apply lookup_insert_eq.
Qed.

End BathyFiles.

Ltac isnc_step :=
  lazymatch goal with
  | |- keeps _ (bind _ _) => apply keeps_bind; [|intros ?]
  | |- keeps _ (nc_modify _ _) => apply isnc_nc_modify
  | |- keeps _ (nc_assign _ _ _) => apply isnc_nc_assign
  | |- keeps _ (load_local _) => apply keeps_load_local
  | |- keeps _ (fclose _) => intros ? ?; assumption
  | |- keeps _ (print _) => intros ? ?; assumption
  | |- keeps _ _ => apply keeps_same; intros ?; reflexivity
  end.

Section BathyMirror.

Lemma bathy_tail_mirror (w : world) (x z : nat) (outfld : string)
    (y : option nat) :
  is_nc (outfld +:+ "depth.nc")
    (fst ((let* locals := Xbeach.write_bathy_netcdf x z outfld y true in
           Xbeach.write_bathy_report y (fst locals) (snd locals)) w)).
Proof.
  unfold Xbeach.write_bathy_netcdf. rewrite bind_assoc.
  apply isnc_nc_open. intros nc.
  unfold Xbeach.write_bathy_report. nc_unfold.
  destruct y; cbv zeta; repeat isnc_step.
Qed.

Lemma bathy_tail_no_mirror (w : world) (x z : nat) (outfld : string)
    (y : option nat) :
  w_files
    (fst ((let* locals := Xbeach.write_bathy_netcdf x z outfld y false in
           Xbeach.write_bathy_report y (fst locals) (snd locals)) w)) =
  w_files w /\
  snd ((let* locals := Xbeach.write_bathy_netcdf x z outfld y false in
        Xbeach.write_bathy_report y (fst locals) (snd locals)) w) =
  Raise UnboundLocalError.
Proof. split; reflexivity. Qed.

(** Without the netCDF mirror the call never returns normally: on valid
    input it writes the text files and then raises on the unassigned
    [xi_rho]. *)
Lemma bathy_no_mirror_raises (w : world) (x z : nat) (outfld : string)
    (y : option nat) :
  bathy_input w x z y ->
  snd (Xbeach.write_bathy x z outfld y false w) = Raise UnboundLocalError.
Proof.
  intros Hin. unfold Xbeach.write_bathy. destruct y as [y|].
  - destruct Hin as (nc & xr & yr & zr & Hx & Hy & Hz & Wx & Wy & Wz & Lx & Ly).
    destruct (bathy_text_2d w x y z outfld nc xr yr zr Hx Hy Hz Wx Wy Wz
                Lx Ly) as (w1 & E & _).
    rewrite (bind_ok _ _ _ _ _ E). apply bathy_tail_no_mirror.
  - destruct Hin as (xv & zv & Hx & Hz).
    rewrite (bind_ok _ _ _ _ _ (bathy_text_1d w x z outfld xv zv Hx Hz)).
    apply bathy_tail_no_mirror.
Qed.

Lemma bathy_no_mirror_never_returns (w : world) (x z : nat)
    (outfld : string) (y : option nat) :
  snd (Xbeach.write_bathy x z outfld y false w) <> Ok tt.
Proof.
  unfold Xbeach.write_bathy. unfold bind at 1.
  destruct (Xbeach.write_bathy_text x z outfld y w) as [w1 [[]|e]];
    [|discriminate].
  now rewrite (proj2 (bathy_tail_no_mirror w1 x z outfld y)).
Qed.

End BathyMirror.

(* ===================================================================== *)
(** * Claims on [write_bathy] *)
(* ===================================================================== *)

Section GridText.

Lemma bathy_row_numeric (row : list spec_float) :
  List.Forall (fun c => numeric_char c = true) (bathy_row row).
Proof. apply concat_numeric. intros v. apply fmt_f_numeric. Qed.

Lemma grid_text_line_count (a : ndarray) :
  line_count (grid_text a) = length (grid_rows a).
Proof.
  unfold grid_text. rewrite line_count_unlines; [now rewrite length_map|].
  apply List.Forall_forall. intros l Hin.
  apply in_map_iff in Hin as (row & <- & _).
  apply numeric_not_nl, bathy_row_numeric.
Qed.

Lemma grid_text_vector (v : list spec_float) :
  grid_text (Arr1 v) = concat (map (fmt_f 16 4) v) ++ [nl].
Proof.
  unfold grid_text, unlines. cbn [grid_rows map concat].
  now rewrite app_nil_r.
Qed.

(** After the text block, the netCDF block and the report leave the text
    files as they are. *)
Lemma bathy_text_kept (w1 : world) (x z : nat) (outfld : string)
    (y : option nat) (ncsave : bool) (name : string) :
  name <> "depth.nc"%string ->
  w_files
    (fst ((let* locals := Xbeach.write_bathy_netcdf x z outfld y ncsave in
           Xbeach.write_bathy_report y (fst locals) (snd locals)) w1))
    !! (outfld +:+ name) =
  w_files w1 !! (outfld +:+ name).
Proof.
  intros Hname.
  destruct (bathy_tail_within w1 x z outfld y ncsave w1
              (within_start _ w1)) as (_ & Hf & _).
  apply Hf. intros [E|[]]. apply append_cancel in E. congruence.
Qed.

Lemma bathy_mirror_file (w1 : world) (x z : nat) (outfld : string)
    (y : option nat) (ncsave : bool) :
  let w' :=
    fst ((let* locals := Xbeach.write_bathy_netcdf x z outfld y ncsave in
          Xbeach.write_bathy_report y (fst locals) (snd locals)) w1) in
  if ncsave then is_nc (outfld +:+ "depth.nc") w'
  else w_files w' = w_files w1.
Proof.
  destruct ncsave; cbv zeta.
  - apply bathy_tail_mirror.
  - apply bathy_tail_no_mirror.
Qed.

End GridText.

(** C4 (as stated, refuted). A 1-D call with the default [ncsave=True],
    started with no file at all, ends with three files: [x.grd], [z.dep]
    and the netCDF mirror [depth.nc]. *)
Lemma bathy_default_writes_three_files :
  w_files bathy_world = ∅ /\
  snd (Xbeach.write_bathy 0 1 "d/" None true bathy_world) = Ok tt /\
  size (w_files (fst (Xbeach.write_bathy 0 1 "d/" None true bathy_world))) =
    3%nat /\
  is_nc "d/depth.nc"
    (fst (Xbeach.write_bathy 0 1 "d/" None true bathy_world)) /\
  w_files (fst (Xbeach.write_bathy 0 1 "d/" None true bathy_world))
    !! "d/x.grd"%string =
    Some (Text (str "          0.0000         10.0000" ++ [nl])) /\
  w_files (fst (Xbeach.write_bathy 0 1 "d/" None true bathy_world))
    !! "d/z.dep"%string =
    Some (Text (str "          1.0000         20.0000" ++ [nl])).
Proof.
  split; [reflexivity|].
  split; [vm_compute; reflexivity|].
  split; [vm_compute; reflexivity|].
  split; [unfold is_nc; vm_compute; eexists; reflexivity|].
  split; vm_compute; reflexivity.
Qed.

(** C4 (amended). On vectors (1-D mode) or rectangular arrays of one shape
    (2-D mode), [write_bathy] leaves the text files [x.grd] and [z.dep],
    and [y.grd] in 2-D mode only, each with one line per row of its array
    (a single line of [len] fields in 1-D mode, [z.shape[0]] lines of
    [z.shape[1]] fields in 2-D mode, [x.grd] holding the fields of [x]);
    the netCDF mirror [depth.nc] is written as well exactly when [ncsave]
    is true; no other file is touched. *)
Theorem bathy_files_written (w : world) (x z : nat) (outfld : string)
    (y : option nat) (ncsave : bool) :
  bathy_input w x z y ->
  let w' := fst (Xbeach.write_bathy x z outfld y ncsave w) in
  w_files w' !! (outfld +:+ "x.grd") =
    Some (Text (grid_text (w_arrays w x))) /\
  w_files w' !! (outfld +:+ "z.dep") =
    Some (Text (grid_text (w_arrays w z))) /\
  match y with
  | Some yr =>
      w_files w' !! (outfld +:+ "y.grd") =
        Some (Text (grid_text (w_arrays w yr)))
  | None =>
      w_files w' !! (outfld +:+ "y.grd") = w_files w !! (outfld +:+ "y.grd")
  end /\
  (if ncsave then is_nc (outfld +:+ "depth.nc") w'
   else w_files w' !! (outfld +:+ "depth.nc") =
        w_files w !! (outfld +:+ "depth.nc")) /\
  (forall q, ~ In q (bathy_paths outfld) ->
             w_files w' !! q = w_files w !! q) /\
  match y with
  | None =>
      exists xv zv,
        w_arrays w x = Arr1 xv /\ w_arrays w z = Arr1 zv /\
        grid_text (Arr1 xv) = concat (map (fmt_f 16 4) xv) ++ [nl] /\
        grid_text (Arr1 zv) = concat (map (fmt_f 16 4) zv) ++ [nl] /\
        line_count (grid_text (Arr1 xv)) = 1%nat /\
        line_count (grid_text (Arr1 zv)) = 1%nat
  | Some yr =>
      exists (nc : nat) (zr : list (list spec_float)),
        shape (w_arrays w z) = [length zr; nc] /\
        List.Forall (fun a =>
          exists rows,
            w_arrays w a = Arr2 nc rows /\
            grid_text (Arr2 nc rows) =
              unlines (map (fun r => concat (map (fmt_f 16 4) r)) rows) /\
            line_count (grid_text (Arr2 nc rows)) = length zr /\
            List.Forall (fun r => length r = nc) rows) [x; yr; z]
  end.
Proof.
  intros Hin. cbv zeta. unfold Xbeach.write_bathy.
  pose proof (bathy_within w x z outfld y ncsave w (within_start _ w))
    as (_ & Hframe & _).
  unfold Xbeach.write_bathy in Hframe.
  assert (Nx : "x.grd"%string <> "depth.nc"%string) by discriminate.
  assert (Ny : "y.grd"%string <> "depth.nc"%string) by discriminate.
  assert (Nz : "z.dep"%string <> "depth.nc"%string) by discriminate.
  assert (Dxy : outfld +:+ "x.grd" <> outfld +:+ "y.grd")
    by (apply append_differ; discriminate).
  assert (Dxz : outfld +:+ "x.grd" <> outfld +:+ "z.dep")
    by (apply append_differ; discriminate).
  assert (Dyz : outfld +:+ "y.grd" <> outfld +:+ "z.dep")
    by (apply append_differ; discriminate).
  assert (Dxn : outfld +:+ "x.grd" <> outfld +:+ "depth.nc")
    by (apply append_differ; discriminate).
  assert (Dyn : outfld +:+ "y.grd" <> outfld +:+ "depth.nc")
    by (apply append_differ; discriminate).
  assert (Dzn : outfld +:+ "z.dep" <> outfld +:+ "depth.nc")
    by (apply append_differ; discriminate).
  destruct y as [y|].
  - (* 2-D mode *)
    destruct Hin as (nc & xr & yr & zr & Hx & Hy & Hz & Wx & Wy & Wz & Lx & Ly).
    destruct (bathy_text_2d w x y z outfld nc xr yr zr Hx Hy Hz Wx Wy Wz
                Lx Ly) as (w1 & E & Ha & Hf).
    rewrite (bind_ok _ _ _ _ _ E) in Hframe |- *.
    pose proof (bathy_mirror_file w1 x z outfld (Some y) ncsave) as Hm.
    cbv zeta in Hm.
    rewrite !bathy_text_kept by assumption. rewrite Hf, Hx, Hy, Hz.
    split; [now rewrite !lookup_insert_ne, lookup_insert_eq by congruence|].
    split; [now rewrite lookup_insert_eq|].
    split; [now rewrite lookup_insert_ne, lookup_insert_eq by congruence|].
    split.
    { destruct ncsave; [exact Hm|]. rewrite Hm, Hf.
      now rewrite !lookup_insert_ne by congruence. }
    split; [exact Hframe|].
    exists nc, zr. split; [reflexivity|].
    repeat (apply List.Forall_cons || apply List.Forall_nil).
    + exists xr. repeat split; try assumption.
      now rewrite grid_text_line_count.
    + exists yr. repeat split; try assumption.
      now rewrite grid_text_line_count.
    + exists zr. repeat split; try assumption.
      now rewrite grid_text_line_count.
  - (* 1-D mode *)
    destruct Hin as (xv & zv & Hx & Hz).
    pose proof (bathy_text_1d w x z outfld xv zv Hx Hz) as E.
    rewrite (bind_ok _ _ _ _ _ E) in Hframe |- *.
    set (w1 := put_file _ _ (put_file _ _ _)) in *.
    pose proof (bathy_mirror_file w1 x z outfld None ncsave) as Hm.
    cbv zeta in Hm.
    rewrite !bathy_text_kept by assumption. rewrite Hx, Hz.
    split; [apply files_put_file|].
    split; [unfold w1; rewrite files_put_file_ne by exact Dxz;
            apply files_put_file|].
    split; [unfold w1; now rewrite !files_put_file_ne by congruence|].
    split.
    { destruct ncsave; [exact Hm|]. rewrite Hm. unfold w1.
      now rewrite !files_put_file_ne by congruence. }
    split; [exact Hframe|].
    exists xv, zv. repeat split; try assumption;
      try apply grid_text_vector; apply grid_text_line_count.
Qed.

Lemma bathy_files_written_witness :
  (let w' := fst (Xbeach.write_bathy 0 1 "d/" None true bathy_world) in
   w_files w' !! ("d/" +:+ "x.grd") =
     Some (Text (grid_text (w_arrays bathy_world 0))) /\
   w_files w' !! ("d/" +:+ "z.dep") =
     Some (Text (grid_text (w_arrays bathy_world 1))) /\
   w_files w' !! ("d/" +:+ "y.grd") =
     w_files bathy_world !! ("d/" +:+ "y.grd") /\
   is_nc ("d/" +:+ "depth.nc") w') /\
  (let w' :=
     fst (Xbeach.write_bathy 2 4 "d/" (Some 3%nat) false bathy_world) in
   w_files w' !! ("d/" +:+ "x.grd") =
     Some (Text (grid_text (w_arrays bathy_world 2))) /\
   w_files w' !! ("d/" +:+ "z.dep") =
     Some (Text (grid_text (w_arrays bathy_world 4))) /\
   w_files w' !! ("d/" +:+ "y.grd") =
     Some (Text (grid_text (w_arrays bathy_world 3))) /\
   w_files w' !! ("d/" +:+ "depth.nc") =
     w_files bathy_world !! ("d/" +:+ "depth.nc")).
Proof.
  split.
  - destruct (bathy_files_written bathy_world 0 1 "d/" None true)
      as (H1 & H2 & H3 & H4 & _).
    + exists [f_zero; f_ten], [f_one; f_twenty]. split; reflexivity.
    + repeat split; assumption.
  - destruct (bathy_files_written bathy_world 2 4 "d/" (Some 3%nat) false)
      as (H1 & H2 & H3 & H4 & _).
    + exists 2%nat, [[f_zero; f_ten]; [f_zero; f_ten]],
        [[f_zero; f_zero]; [f_ten; f_ten]],
        [[f_one; f_one]; [f_twenty; f_twenty]].
      repeat split; repeat constructor.
    + repeat split; assumption.
Defined.

(** C8 (evaluation at the failing input). Called on valid vectors with
    [ncsave=False], [write_bathy] writes both text files and then raises
    [UnboundLocalError]: [xi_rho] is assigned in the netCDF block only, so
    no grid dimension reaches the console. With [ncsave=True] the same
    input returns and reports [nx = 1], [ny = 0]. *)
Theorem bathy_without_mirror_raises :
  snd (Xbeach.write_bathy 0 1 "d/" None false bathy_world) =
    Raise UnboundLocalError /\
  w_files (fst (Xbeach.write_bathy 0 1 "d/" None false bathy_world))
    !! "d/x.grd"%string =
    Some (Text (str "          0.0000         10.0000" ++ [nl])) /\
  w_files (fst (Xbeach.write_bathy 0 1 "d/" None false bathy_world))
    !! "d/z.dep"%string =
    Some (Text (str "          1.0000         20.0000" ++ [nl])) /\
  w_console (fst (Xbeach.write_bathy 0 1 "d/" None false bathy_world)) =
    [str "Writing 1D grids"; str " "; Xbeach.rule;
     str "In your params.txt:"] /\
  snd (Xbeach.write_bathy 0 1 "d/" None true bathy_world) = Ok tt /\
  w_console (fst (Xbeach.write_bathy 0 1 "d/" None true bathy_world)) =
    [str "Writing 1D grids"; str " "; Xbeach.rule;
     str "In your params.txt:"; str "  nx = 1"; str "  ny = 0";
     Xbeach.rule] /\
  (forall w x z outfld y,
     snd (Xbeach.write_bathy x z outfld y false w) <> Ok tt).
Proof.
  repeat (split; [vm_compute; reflexivity|]).
  intros w x z outfld y. apply bathy_no_mirror_never_returns.
Qed.

(* ===================================================================== *)
(** * What every call leaves in the output file, failing calls included *)
(* ===================================================================== *)

Section Appending.

Lemma occurs_in_app_l (t a b : text) : occurs_in t a -> occurs_in t (a ++ b).
Proof.
  intros (u & v & ->). exists u, (v ++ b). now rewrite <- !app_assoc.
Qed.

Lemma clean_nil (tok : text) : tok <> [] -> clean tok [].
Proof.
  intros Hne. split; [|now left].
  intros (a & b & E). destruct a, tok; try discriminate. contradiction.
Qed.

Lemma clean_app (tok c t : text) :
  clean tok c -> clean tok t -> clean tok (c ++ t).
Proof.
  intros [Hc Tc] [Ht Tt].
  destruct Tt as [->|(t' & x & -> & Hx)].
  { rewrite app_nil_r. now split. }
  split.
  - destruct Tc as [->|(c' & y & -> & Hy)]; [exact Ht|].
    rewrite <- app_assoc. cbn [app]. intros Ho.
    apply occurs_in_split_at in Ho as [Ho|Ho]; [| |exact Hy].
    + apply Hc. now apply occurs_in_app_l.
    + now apply Ht.
  - right. exists (c ++ t'), x. split; [now rewrite app_assoc | exact Hx].
Qed.

Lemma cleanb_sound (tok c : text) : cleanb tok c = true -> clean tok c.
Proof.
  unfold cleanb. intros H. apply andb_true_iff in H as [Ho Hl].
  split.
  - intros Hin. apply occurs_in_occursb in Hin. rewrite Hin in Ho.
    discriminate Ho.
  - destruct (rev c) as [|x r] eqn:E.
    + left. apply (f_equal (@rev ascii)) in E. now rewrite rev_involutive in E.
    + right. exists (rev r), x. split.
      * apply (f_equal (@rev ascii)) in E. now rewrite rev_involutive in E.
      * intros Hin. apply negb_true_iff in Hl.
        assert (existsb (Ascii.eqb x) tok = true); [|congruence].
        apply existsb_exists. exists x. split; [exact Hin|].
        apply Ascii.eqb_refl.
Qed.

Lemma plain_app (a b : text) :
  List.Forall (fun c => plain_char c = true) a ->
  List.Forall (fun c => plain_char c = true) b ->
  List.Forall (fun c => plain_char c = true) (a ++ b).
Proof. intros Ha Hb. apply List.Forall_app. now split. Qed.

Lemma fmt_f_plain (W P : nat) (v : spec_float) :
  List.Forall (fun c => plain_char c = true) (fmt_f W P v).
Proof.
  eapply Forall_impl; [apply fmt_f_numeric|].
  intros c Hc. cbv beta in Hc. unfold plain_char. now rewrite Hc.
Qed.

(** A text of plain characters is clean for a token made of other
    characters. *)
Lemma clean_plain (tok t : text) :
  tok <> [] -> forallb (fun x => negb (plain_char x)) tok = true ->
  List.Forall (fun c => plain_char c = true) t -> clean tok t.
Proof.
  intros Hne Htok Ht.
  assert (Hout : forall x, In x tok -> In x t -> False).
  { intros x Hx Hxt. rewrite List.Forall_forall in Ht.
    specialize (Ht x Hxt). rewrite forallb_forall in Htok.
    specialize (Htok x Hx). rewrite Ht in Htok. discriminate Htok. }
  split.
  - intros (a & b & ->). destruct tok as [|x tok]; [contradiction|].
    apply (Hout x); [now left|]. apply in_or_app. right. now left.
  - destruct t as [|y t] using rev_ind; [now left|].
    right. exists t, y. split; [reflexivity|].
    intros Hy. apply (Hout y Hy). apply in_or_app. right. now left.
Qed.

Context (Q : text -> Prop) (p : string).
Hypothesis Q_app : forall c t, Q c -> Q t -> Q (c ++ t).

Lemma sat_fwrite (fd : nat) (t : text) :
  Q t -> keeps (file_sat Q p) (fwrite fd t).
Proof.
  intros Ht w Hw. unfold fwrite.
  destruct (w_open w !! fd) as [q|] eqn:Eq; [|exact Hw].
  destruct (w_files w !! q) as [[c|d]|] eqn:Ec; try exact Hw.
  cbn [fst]. intros c' Hc'. destruct (decide (q = p)) as [->|Hne].
  - rewrite files_put_file in Hc'. injection Hc' as <-.
    apply Q_app; [now apply Hw | exact Ht].
  - rewrite files_put_file_ne in Hc' by exact Hne. now apply Hw.
Qed.

Lemma sat_fclose (fd : nat) : keeps (file_sat Q p) (fclose fd).
Proof. intros w Hw. exact Hw. Qed.

Lemma sat_print (t : text) : keeps (file_sat Q p) (print t).
Proof. intros w Hw. exact Hw. Qed.

(** The rendering that a [lift (pct_f W P x)] hands to the rest. *)
Lemma keeps_pct_f {B : Type} (Inv : world -> Prop) (W P : nat) (x : pyval)
    (k : text -> M B) :
  (forall f, keeps Inv (k (fmt_f W P f))) ->
  keeps Inv (bind (lift (pct_f W P x)) k).
Proof.
  intros Hk w Hw. unfold pct_f, bind, lift.
  destruct (to_float x) as [f|e]; [now apply Hk | exact Hw].
Qed.

(** Opening [p] starts from an empty file. *)
Lemma sat_open {B : Type} (k : nat -> M B) (w : world) :
  Q [] -> (forall fd, keeps (file_sat Q p) (k fd)) ->
  file_sat Q p (fst (bind (open_w p) k w)).
Proof.
  intros Hnil Hk. unfold bind, open_w. apply Hk.
  intros c Hc. cbn in Hc. rewrite lookup_insert_eq in Hc.
  now injection Hc as <-.
Qed.

End Appending.

Ltac plain_goal :=
  repeat lazymatch goal with
         | |- List.Forall _ (_ ++ _) => apply plain_app
         | |- List.Forall _ (fmt_f _ _ _) => apply fmt_f_plain
         | |- List.Forall _ (_ :: _) => apply List.Forall_cons; [reflexivity|]
         | |- List.Forall _ [] => apply List.Forall_nil
         end.

Ltac text_goal :=
  first
    [ solve [ apply clean_plain; [discriminate | reflexivity | plain_goal] ]
    | solve [ apply cleanb_sound; vm_compute; reflexivity ]
    | solve [ plain_goal ] ].

Ltac sat_step Qapp :=
  lazymatch goal with
  | |- keeps _ (bind (lift (pct_f _ _ _)) _) => apply keeps_pct_f; intros ?
  | |- keeps _ (bind _ _) => apply keeps_bind; [|intros ?]
  | |- keeps _ (for_range _ _) => apply keeps_for_range; intros ?
  | |- keeps _ (fwrite _ _) => apply sat_fwrite; [exact Qapp | text_goal]
  | |- keeps _ (fclose _) => apply sat_fclose
  | |- keeps _ (print _) => apply sat_print
  | |- keeps _ _ => apply keeps_same; intros ?; reflexivity
  end.

Section EveryCall.

(** Whatever the arrays are, and whether the call returns or raises: a
    call without directions leaves no [NDIR] in what it wrote. *)
Lemma swan_never_ndir (w : world) (freq spec locations : nat)
    (outfile : string) (waveTime : option nat) :
  file_sat (clean (str "NDIR")) outfile
    (fst (Swan.write_boundary_spec freq spec locations outfile waveTime
            None w)).
Proof.
  unfold Swan.write_boundary_spec.
  apply sat_open; [apply clean_nil; discriminate|].
  intros fid. repeat sat_step (clean_app (str "NDIR")).
Qed.

(** Whatever the arrays are: the alternate writer writes numeric
    characters and newlines only. *)
Lemma xbeach_alternate_plain (w : world) (freq spec locations : nat)
    (outfile : string) (waveTime sdir : option nat) :
  file_sat (List.Forall (fun c => plain_char c = true)) outfile
    (fst (Xbeach.write_boundary_spec freq spec locations outfile waveTime
            sdir false w)).
Proof.
  unfold Xbeach.write_boundary_spec. cbv iota.
  rewrite (bind_ok _ _ _ _ _ (print_run _ w)).
  apply sat_open; [constructor|].
  intros fid. destruct sdir; repeat sat_step plain_app.
Qed.

Lemma token_not_in_plain (t l : text) :
  forallb plain_char t = false ->
  List.Forall (fun c => plain_char c = true) l -> ~ occurs_in t l.
Proof.
  intros Ht Hl Ho. apply (occurs_in_Forall _ _ _ Ho) in Hl.
  rewrite List.Forall_forall in Hl. apply forallb_forall in Hl. congruence.
Qed.

End EveryCall.

(** C7. Whatever the arrays are, a call of the boundary-spectrum writer
    without a direction vector leaves a file that does not contain the
    token [NDIR] anywhere, also when the call fails partway; on valid
    input the call returns and no NDIR section is written at all: the
    [QUANT] section follows the frequencies directly. *)
Theorem swan_no_ndir_without_directions (w : world)
    (freq spec locations : nat) (outfile : string)
    (waveTime : option nat) :
  (forall c,
     w_files (fst (Swan.write_boundary_spec freq spec locations outfile
                     waveTime None w)) !! outfile = Some (Text c) ->
     ~ occurs_in (str "NDIR") c) /\
  (forall (fv : list spec_float) (lc gc : nat)
          (locs grid : list (list spec_float)),
     w_arrays w freq = Arr1 fv ->
     w_arrays w spec = Arr2 gc grid -> wf_array (Arr2 gc grid) ->
     w_arrays w locations = Arr2 lc locs -> wf_array (Arr2 lc locs) ->
     (2 <= lc)%nat ->
     Swan.write_boundary_spec freq spec locations outfile waveTime None w =
     (put_file outfile
        (Text (header_section ++ locations_section locs ++
               rfreq_section fv ++ quant_section ++ data_block grid)) w,
      Ok tt)).
Proof.
  split.
  - intros c Hc. exact (proj1 (swan_never_ndir _ _ _ _ _ _ c Hc)).
  - intros fv lc gc locs grid Hf Hg Hgwf Hl Hlwf Hlc.
    exact (swan_run w freq spec locations outfile waveTime None fv None
             lc gc locs grid Hf Hg Hgwf Hl Hlwf Hlc I).
Qed.

Lemma swan_no_ndir_without_directions_witness :
  Swan.write_boundary_spec 0 1 2 "out.spc" None None ex_world =
    (put_file "out.spc"
       (Text (header_section ++ locations_section ex_locs ++
              rfreq_section ex_freq ++ quant_section ++
              data_block ex_grid)) ex_world,
     Ok tt) /\
  ~ occurs_in (str "NDIR")
      (header_section ++ locations_section ex_locs ++
       rfreq_section ex_freq ++ quant_section ++ data_block ex_grid).
Proof.
  destruct (swan_no_ndir_without_directions ex_world 0 1 2 "out.spc" None)
    as [Hany Hvalid].
  assert (Hrun := Hvalid ex_freq 2%nat 3%nat ex_locs ex_grid eq_refl eq_refl
                    ltac:(repeat constructor) eq_refl
                    ltac:(repeat constructor) (le_n 2)).
  split; [exact Hrun|].
  apply Hany. rewrite Hrun. apply files_put_file.
Defined.

(** C3. Whatever the arrays are, the file that the alternate writer
    ([swan=False]) leaves contains none of [SWAN 1], [LOCATIONS],
    [QUANT], [FACTOR]; on valid input both writers return and the file of
    the alternate writer ends with the very data block with which the
    file of the standard writer ends. *)
Theorem xbeach_alternate_same_data_block (w : world)
    (freq spec locations : nat) (outfile : string)
    (waveTime sdir : option nat) :
  (forall c t,
     w_files (fst (Xbeach.write_boundary_spec freq spec locations outfile
                     waveTime sdir false w)) !! outfile = Some (Text c) ->
     In t [str "SWAN 1"; str "LOCATIONS"; str "QUANT"; str "FACTOR"] ->
     ~ occurs_in t c) /\
  (forall (fv : list spec_float) (dv : option (list spec_float))
          (lc gc : nat) (locs grid : list (list spec_float)),
     w_arrays w freq = Arr1 fv ->
     w_arrays w spec = Arr2 gc grid -> wf_array (Arr2 gc grid) ->
     w_arrays w locations = Arr2 lc locs -> wf_array (Arr2 lc locs) ->
     (2 <= lc)%nat ->
     dirs_at w sdir dv ->
     exists wx ws,
       Xbeach.write_boundary_spec freq spec locations outfile waveTime sdir
         false w = (wx, Ok tt) /\
       Swan.write_boundary_spec freq spec locations outfile waveTime sdir w =
         (ws, Ok tt) /\
       w_files wx !! outfile =
         Some (Text ((freq_block fv ++
                      match dv with Some d => dir_block d | None => [] end)
                     ++ data_block grid)) /\
       w_files ws !! outfile =
         Some (Text ((header_section ++ locations_section locs ++
                      rfreq_section fv ++ ndir_section dv ++ quant_section)
                     ++ data_block grid))).
Proof.
  split.
  - intros c t Hc Ht. apply token_not_in_plain.
    + cbn [In] in Ht.
      destruct Ht as [<-|[<-|[<-|[<-|[]]]]]; reflexivity.
    + exact (xbeach_alternate_plain _ _ _ _ _ _ _ c Hc).
  - intros fv dv lc gc locs grid Hf Hg Hgwf Hl Hlwf Hlc Hd.
    eexists _, _.
    split; [apply (xbeach_run w freq spec locations outfile waveTime sdir
              fv dv gc grid); assumption|].
    split; [apply (swan_run w freq spec locations outfile waveTime sdir fv
              dv lc gc locs grid); assumption|].
    split; rewrite files_put_file; do 2 f_equal.
    + unfold xbeach_layout. now rewrite <- app_assoc.
    + unfold swan_layout. now rewrite <- !app_assoc.
Qed.

Lemma xbeach_alternate_same_data_block_witness :
  exists wx ws,
    Xbeach.write_boundary_spec 0 1 2 "out.spc" None (Some 3%nat) false
      ex_world = (wx, Ok tt) /\
    Swan.write_boundary_spec 0 1 2 "out.spc" None (Some 3%nat) ex_world =
      (ws, Ok tt) /\
    w_files wx !! "out.spc"%string =
      Some (Text ((freq_block ex_freq ++ dir_block ex_dirs) ++
                  data_block ex_grid)) /\
    w_files ws !! "out.spc"%string =
      Some (Text ((header_section ++ locations_section ex_locs ++
                   rfreq_section ex_freq ++ ndir_section (Some ex_dirs) ++
                   quant_section) ++ data_block ex_grid)).
Proof.
  apply (proj2 (xbeach_alternate_same_data_block ex_world 0 1 2 "out.spc"
                  None (Some 3%nat))
           ex_freq (Some ex_dirs) 2%nat 3%nat ex_locs ex_grid);
    try reflexivity; try (repeat constructor); lia.
Defined.

(* ===================================================================== *)
(** * Further properties of the boundary-spectrum writers *)
(* ===================================================================== *)

Section ConsoleBlind.

Lemma blind_bind {A B : Type} (m : M A) (k : A -> M B) :
  console_blind m -> (forall a, console_blind (k a)) ->
  console_blind (bind m k).
Proof.
  intros Hm Hk c w. unfold bind. rewrite Hm.
  destruct (m w) as [w1 [a|e]]; cbn [fst snd]; [apply Hk | reflexivity].
Qed.

Lemma blind_for_each {A : Type} (l : list A) (body : A -> M unit) :
  (forall x, console_blind (body x)) -> console_blind (for_each l body).
Proof.
  intros Hb. induction l as [|x l IH]; cbn [for_each].
  - intros c w. reflexivity.
  - apply blind_bind; [apply Hb | intros _; exact IH].
Qed.

Lemma blind_for_range (n : nat) (body : nat -> M unit) :
  (forall x, console_blind (body x)) -> console_blind (for_range n body).
Proof. apply blind_for_each. Qed.

Lemma blind_fwrite (fd : nat) (t : text) : console_blind (fwrite fd t).
Proof.
  intros c w. unfold fwrite. cbn [w_open w_files set_console].
  destruct (w_open w !! fd) as [p|]; [|reflexivity].
  destruct (w_files w !! p) as [[c0|d]|]; reflexivity.
Qed.

End ConsoleBlind.

Ltac blind_step :=
  lazymatch goal with
  | |- console_blind (bind _ _) => apply blind_bind; [|intros ?]
  | |- console_blind (for_range _ _) => apply blind_for_range; intros ?
  | |- console_blind (fwrite _ _) => apply blind_fwrite
  | |- console_blind _ => intros ? ?; reflexivity
  end.

Section SpectrumExtras.

Lemma swan_console_blind (freq spec locations : nat) (outfile : string)
    (waveTime sdir : option nat) :
  console_blind
    (Swan.write_boundary_spec freq spec locations outfile waveTime sdir).
Proof.
  unfold Swan.write_boundary_spec. destruct sdir; repeat blind_step.
Qed.

End SpectrumExtras.

(** X1. Called with [swan=True], the xbeach writer is the swan writer
    preceded by one console message, for every input: it returns or raises
    what the swan writer does, and leaves the world that the swan writer
    leaves with that one line added to the console. The swan writer itself
    never prints. *)
Theorem xbeach_wrapper_is_swan (w : world) (freq spec locations : nat)
    (outfile : string) (waveTime sdir : option nat) :
  Xbeach.write_boundary_spec freq spec locations outfile waveTime sdir true
    w =
    (set_console
       (w_console w ++ [str "Writting swan formatted input, Instat = 5"])
       (fst (Swan.write_boundary_spec freq spec locations outfile waveTime
               sdir w)),
     snd (Swan.write_boundary_spec freq spec locations outfile waveTime
            sdir w)) /\
  w_console (fst (Swan.write_boundary_spec freq spec locations outfile
                    waveTime sdir w)) = w_console w.
Proof.
  split.
  - unfold Xbeach.write_boundary_spec. cbv iota.
    rewrite (bind_ok _ _ _ _ _ (print_run _ w)).
    apply swan_console_blind.
  - pose proof (swan_console_blind freq spec locations outfile waveTime sdir
                  (w_console w) w) as H.
    replace (set_console (w_console w) w) with w in H by now destruct w.
    apply (f_equal (fun r => w_console (fst r))) in H.
    exact H.
Qed.

(** X2. With [swan=False] the writer consults neither [locations] nor
    [waveTime]: on any frequency vector, rectangular grid and optional
    direction vector it returns, prints one message, and leaves the file
    made of the frequency count, one line per frequency, the direction
    count and one line per direction when directions are given, and one
    line per row of the grid. *)
Theorem xbeach_alternate_layout (w : world) (freq spec locations : nat)
    (outfile : string) (waveTime sdir : option nat) (fv : list spec_float)
    (dv : option (list spec_float)) (gc : nat)
    (grid : list (list spec_float)) :
  w_arrays w freq = Arr1 fv ->
  w_arrays w spec = Arr2 gc grid -> wf_array (Arr2 gc grid) ->
  dirs_at w sdir dv ->
  Xbeach.write_boundary_spec freq spec locations outfile waveTime sdir false
    w =
  (put_file outfile
     (Text (unlines
              ([count_field (length fv)] ++ map (fmt_f 12 8) fv ++
               match dv with
               | Some d => [count_field (length d)] ++ map (fmt_f 16 4) d
               | None => []
               end ++
               map (fun row => concat (map (fmt_f 16 10) row)) grid)))
     (set_console
        (w_console w ++ [str "Writing 2D spectrum for Instat = 6"]) w),
   Ok tt).
Proof.
  intros Hf Hg Hgwf Hd.
  rewrite (xbeach_run w freq spec locations outfile waveTime sdir fv dv gc
             grid Hf Hg Hgwf Hd).
  now rewrite xbeach_layout_lines.
Qed.

Lemma xbeach_alternate_layout_witness :
  Xbeach.write_boundary_spec 0 1 2 "out.spc" (Some 7%nat) None false
    narrow_world =
  (put_file "out.spc"
     (Text (unlines
              ([count_field 1] ++ map (fmt_f 12 8) [f_0_05] ++ [] ++
               map (fun row => concat (map (fmt_f 16 10) row)) [[f_one]])))
     (set_console
        (w_console narrow_world ++
         [str "Writing 2D spectrum for Instat = 6"]) narrow_world),
   Ok tt).
Proof.
  apply (xbeach_alternate_layout narrow_world 0 1 2 "out.spc" (Some 7%nat)
           None [f_0_05] None 1 [[f_one]]);
    try reflexivity; repeat constructor.
Defined.

(** X3. The swan writer creates or overwrites: on valid input the world it
    leaves does not depend on what the output file held before, and
    running it a second time changes nothing. *)
Theorem swan_write_overwrites (w : world) (freq spec locations : nat)
    (outfile : string) (waveTime sdir : option nat) (fv : list spec_float)
    (dv : option (list spec_float)) (lc gc : nat)
    (locs grid : list (list spec_float)) (old : content) :
  w_arrays w freq = Arr1 fv ->
  w_arrays w spec = Arr2 gc grid -> wf_array (Arr2 gc grid) ->
  w_arrays w locations = Arr2 lc locs -> wf_array (Arr2 lc locs) ->
  (2 <= lc)%nat ->
  dirs_at w sdir dv ->
  Swan.write_boundary_spec freq spec locations outfile waveTime sdir
    (put_file outfile old w) =
  Swan.write_boundary_spec freq spec locations outfile waveTime sdir w /\
  Swan.write_boundary_spec freq spec locations outfile waveTime sdir
    (fst (Swan.write_boundary_spec freq spec locations outfile waveTime
            sdir w)) =
  Swan.write_boundary_spec freq spec locations outfile waveTime sdir w.
Proof.
  intros Hf Hg Hgwf Hl Hlwf Hlc Hd.
  pose proof (swan_run w freq spec locations outfile waveTime sdir fv dv lc
                gc locs grid Hf Hg Hgwf Hl Hlwf Hlc Hd) as E.
  assert (Hput : forall c0,
            Swan.write_boundary_spec freq spec locations outfile waveTime
              sdir (put_file outfile c0 w) =
            (put_file outfile (Text (swan_layout fv dv locs grid)) w, Ok tt)).
  { intros c0.
    rewrite (swan_run (put_file outfile c0 w) freq spec locations outfile
               waveTime sdir fv dv lc gc locs grid Hf Hg Hgwf Hl Hlwf Hlc);
      [|destruct sdir, dv; exact Hd].
    unfold put_file, set_files. cbn [w_files w_arrays w_open w_console w_env].
    now rewrite insert_insert_eq. }
  split.
  - now rewrite Hput, E.
  - rewrite E. cbn [fst]. apply Hput.
Qed.

Lemma swan_write_overwrites_witness :
  Swan.write_boundary_spec 0 1 2 "out.spc" None None
    (put_file "out.spc" (Text (str "old")) ex_world) =
  Swan.write_boundary_spec 0 1 2 "out.spc" None None ex_world /\
  Swan.write_boundary_spec 0 1 2 "out.spc" None None
    (fst (Swan.write_boundary_spec 0 1 2 "out.spc" None None ex_world)) =
  Swan.write_boundary_spec 0 1 2 "out.spc" None None ex_world.
Proof.
  apply (swan_write_overwrites ex_world 0 1 2 "out.spc" None None ex_freq
           None 2 3 ex_locs ex_grid (Text (str "old")));
    try reflexivity; try (repeat constructor); lia.
Defined.

Section SpectrumFailures.

Lemma bind_raise {A B : Type} (m : M A) (k : A -> M B) (w w' : world)
    (e : exn) :
  m w = (w', Raise e) -> bind m k w = (w', Raise e).
Proof. intros H. unfold bind. now rewrite H. Qed.

Lemma for_range_first_raises (n : nat) (body : nat -> M unit)
    (w w' : world) (e : exn) :
  (0 < n)%nat -> body 0%nat w = (w', Raise e) ->
  for_range n body w = (w', Raise e).
Proof.
  intros Hn Hb. destruct n as [|n]; [lia|].
  unfold for_range. cbn [seq for_each]. now apply bind_raise.
Qed.

Lemma shape0_index (a : ndarray) :
  tuple_index (shape a) 0 = Ok (shape0 a).
Proof. destruct a; reflexivity. Qed.

Lemma bad_location_row (locations : nat) (a : ndarray) (fd : nat)
    (p : string) (c : text) (w : world) :
  w_arrays w locations = a -> bad_locations a ->
  (let* lx := item2 locations 0 0 in
   let* sx := lift (pct_f 16 4 lx) in
   let* ly := item2 locations 0 1 in
   let* sy := lift (pct_f 16 4 ly) in
   fwrite fd (sx ++ [sp] ++ sy ++ [nl])) (wr fd p c w) =
  (wr fd p c w, Raise IndexError).
Proof.
  intros Ha [Hn Hbad]. destruct a as [v|lc rows].
  - apply bind_raise. unfold item2. now rewrite arrays_wr, Ha.
  - destruct Hbad as [Hlc Hwf]. cbn [shape0] in Hn.
    destruct rows as [|row rows]; [cbn in Hn; lia|].
    assert (Hrow : length row = lc)
      by (apply (in_rows_length lc (row :: rows)); [exact Hwf | now left]).
    destruct lc as [|[|lc]]; [| |lia].
    + apply bind_raise. unfold item2. rewrite arrays_wr, Ha. reflexivity.
    + destruct row as [|x [|y row]]; try discriminate Hrow.
      erewrite bind_ok;
        [|unfold item2; rewrite arrays_wr, Ha; reflexivity].
      cbn [pct_f to_float]. rewrite bind_lift_ok.
      apply bind_raise. unfold item2. rewrite arrays_wr, Ha. reflexivity.
Qed.

End SpectrumFailures.

(** X4. A non-empty location argument that is a vector, or a table of fewer
    than two columns, makes the swan writer raise [IndexError] at the
    first location, whatever the other arguments are: the file then holds
    the header, the [LOCATIONS] keyword and the count only, and its handle
    is left open. *)
Theorem swan_bad_locations_fail (w : world) (freq spec locations : nat)
    (outfile : string) (waveTime sdir : option nat) :
  bad_locations (w_arrays w locations) ->
  Swan.write_boundary_spec freq spec locations outfile waveTime sdir w =
  (wr (fresh (dom (w_open w))) outfile
      (str "SWAN 1" ++ [nl] ++ str "LOCATIONS" ++ [nl] ++
       count_field (shape0 (w_arrays w locations)) ++ [nl]) w,
   Raise IndexError).
Proof.
  intros Hbad. unfold Swan.write_boundary_spec.
  rewrite (bind_ok _ _ _ _ _ (open_w_run outfile w)).
  set (fd := fresh (dom (w_open w))).
  rewrite !fwrite_wr_bind.
  rewrite (shape_at_bind _ _ (shape0 (w_arrays w locations)))
    by (rewrite arrays_wr; apply shape0_index).
  rewrite fwrite_wr_bind.
  rewrite (shape_at_bind _ _ (shape0 (w_arrays w locations)))
    by (rewrite arrays_wr; apply shape0_index).
  apply bind_raise.
  rewrite (for_range_first_raises _ _ _ _ IndexError (proj1 Hbad)
             (bad_location_row locations _ fd outfile _ w eq_refl Hbad)).
  unfold count_field. now rewrite <- !app_assoc.
Qed.

Lemma swan_bad_locations_fail_witness :
  Swan.write_boundary_spec 0 1 2 "out.spc" None None narrow_world =
  (wr (fresh (dom (w_open narrow_world))) "out.spc"
      (str "SWAN 1" ++ [nl] ++ str "LOCATIONS" ++ [nl] ++
       count_field (shape0 (w_arrays narrow_world 2)) ++ [nl]) narrow_world,
   Raise IndexError).
Proof.
  apply (swan_bad_locations_fail narrow_world 0 1 2 "out.spc" None None).
  split; [cbn; lia|]. split; [cbn; lia | repeat constructor].
Defined.

(** X5. A spectrum passed as a vector, not as an array of shape
    (nfreq, 1), makes the swan writer raise [IndexError] at
    [spec.shape[-2]], after every section up to [FACTOR] was written: the
    file is left without its data block and its handle is left open. *)
Theorem swan_vector_spectrum_fails (w : world) (freq spec locations : nat)
    (outfile : string) (waveTime sdir : option nat) (fv sv : list spec_float)
    (dv : option (list spec_float)) (lc : nat)
    (locs : list (list spec_float)) :
  w_arrays w freq = Arr1 fv ->
  w_arrays w spec = Arr1 sv ->
  w_arrays w locations = Arr2 lc locs -> wf_array (Arr2 lc locs) ->
  (2 <= lc)%nat ->
  dirs_at w sdir dv ->
  Swan.write_boundary_spec freq spec locations outfile waveTime sdir w =
  (wr (fresh (dom (w_open w))) outfile
      (header_section ++ locations_section locs ++ rfreq_section fv ++
       ndir_section dv ++ quant_section) w,
   Raise IndexError).
Proof.
  intros Hf Hs Hl Hlwf Hlc Hd. unfold Swan.write_boundary_spec.
  rewrite (bind_ok _ _ _ _ _ (open_w_run outfile w)).
  set (fd := fresh (dom (w_open w))).
  rewrite !fwrite_wr_bind.
  rewrite (shape_at_bind _ _ (length locs)) by (rewrite arrays_wr, Hl; reflexivity).
  rewrite fwrite_wr_bind.
  rewrite (shape_at_bind _ _ (length locs)) by (rewrite arrays_wr, Hl; reflexivity).
  rewrite (bind_ok _ _ _ _ _ (loc_loop _ _ _ _ _ _ _ Hl Hlwf Hlc)).
  rewrite fwrite_wr_bind.
  rewrite (shape_at_bind _ _ (length fv)) by (rewrite arrays_wr, Hf; reflexivity).
  rewrite fwrite_wr_bind.
  rewrite (shape_at_bind _ _ (length fv)) by (rewrite arrays_wr, Hf; reflexivity).
  rewrite (bind_ok _ _ _ _ _ (line1_loop _ _ _ _ _ _ _ _ _ Hf)).
  rewrite (bind_ok _ _ _ _ _ (dir_loop_opt _ _ _ _ _ _ _ Hd)).
  rewrite !fwrite_wr_bind.
  erewrite bind_raise;
    [|unfold shape_at; rewrite arrays_wr, Hs; reflexivity].
  do 2 f_equal.
  unfold header_section, locations_section, rfreq_section, freq_block,
    ndir_section, quant_section, dir_block, count_line, freq_line, dir_line.
  destruct dv; rewrite <- ?app_assoc; reflexivity.
Qed.

Lemma swan_vector_spectrum_fails_witness :
  Swan.write_boundary_spec 0 0 2 "out.spc" None None ex_world =
  (wr (fresh (dom (w_open ex_world))) "out.spc"
      (header_section ++ locations_section ex_locs ++ rfreq_section ex_freq ++
       ndir_section None ++ quant_section) ex_world,
   Raise IndexError).
Proof.
  apply (swan_vector_spectrum_fails ex_world 0 0 2 "out.spc" None None
           ex_freq ex_freq None 2 ex_locs);
    try reflexivity; try (repeat constructor); lia.
Defined.

(* ===================================================================== *)
(** * Counts, field widths and whole-line reading *)
(* ===================================================================== *)

Section Widths.

Lemma count_round (n : nat) :
  decimal_round 0 (float_of_count n) = Some (Z.of_nat n).
Proof.
  destruct n as [|n]; [reflexivity|].
  cbn [float_of_count decimal_round]. unfold scaled.
  change (0 <=? 0) with true. cbv iota.
  change (2 ^ 0) with 1. change (10 ^ Z.of_nat 0) with 1.
  rewrite <- Pos.of_nat_succ. cbn [Z.of_nat]. f_equal. lia.
Qed.

Lemma read_count (n : nat) :
  read_field (count_field n) = Some (Z.of_nat n, 0%nat).
Proof. apply read_field_fmt_f, count_round. Qed.

Lemma finite_round (P : nat) (v : spec_float) :
  is_finite v = true -> exists n, decimal_round P v = Some n.
Proof. destruct v; try discriminate; intros _; eexists; reflexivity. Qed.

Lemma reads_back_finite (W P : nat) (v : spec_float) :
  is_finite v = true -> reads_back P (fmt_f W P v) v.
Proof.
  intros Hfin. destruct (finite_round P v Hfin) as [n Hn].
  assert (exists num den, exact_scaled P v = Some (num, den))
    as (num & den & Hx).
  { destruct v as [s|s| |s m e]; try discriminate Hfin;
      cbn [exact_scaled]; [|destruct (0 <=? e)]; eexists _, _; reflexivity. }
  exists n, num, den. split; [now apply read_field_fmt_f|].
  split; [exact Hx|]. eapply decimal_round_close; eassumption.
Qed.

Lemma lines_read_back (W P : nat) (vs : list spec_float) :
  List.Forall (fun v => is_finite v = true) vs ->
  List.Forall2 (reads_back P) (map (fmt_f W P) vs) vs.
Proof.
  induction 1 as [|v vs Hv _ IH]; cbn [map]; constructor;
    [now apply reads_back_finite | exact IH].
Qed.

(** For a finite value, [fits_field] is the condition under which the
    field keeps its width. *)
Lemma fmt_f_width_fits (W P : nat) (v : spec_float) :
  is_finite v = true -> length (fmt_f W P v) = W -> fits_field W P v = true.
Proof.
  intros Hfin Hlen. destruct (finite_round P v Hfin) as [n Hn].
  destruct (fits_field W P v) eqn:E; [reflexivity|].
  pose proof (fmt_f_length_overflow W P v n Hn E). lia.
Qed.

Lemma concat_length_ge (W : nat) (fs : list text) :
  List.Forall (fun f => (W <= length f)%nat) fs ->
  (W * length fs <= length (concat fs))%nat.
Proof.
  induction 1 as [|f fs Hf _ IH]; cbn [concat length]; [lia|].
  rewrite length_app, Nat.mul_succ_r. lia.
Qed.

Lemma concat_length_exact (W : nat) (fs : list text) :
  List.Forall (fun f => (W <= length f)%nat) fs ->
  length (concat fs) = (W * length fs)%nat ->
  List.Forall (fun f => length f = W) fs.
Proof.
  induction 1 as [|f fs Hf Hfs IH]; intros Hlen; [constructor|].
  cbn [concat length] in Hlen. rewrite length_app, Nat.mul_succ_r in Hlen.
  pose proof (concat_length_ge W fs Hfs).
  constructor; [lia | apply IH; lia].
Qed.

Lemma chunks_fuel_le (fuel w : nat) (s : text) :
  List.Forall (fun f => (length f <= w)%nat) (chunks_fuel fuel w s).
Proof.
  revert s. induction fuel as [|fuel IH]; intros s; cbn [chunks_fuel];
    [constructor|].
  destruct s as [|c s]; [constructor|].
  constructor; [|apply IH]. rewrite length_firstn. lia.
Qed.

Lemma fields_ge (W P : nat) (row : list spec_float) :
  List.Forall (fun f => (W <= length f)%nat) (map (fmt_f W P) row).
Proof.
  apply List.Forall_forall. intros f Hin.
  apply in_map_iff in Hin as (v & <- & _). apply fmt_f_length_ge.
Qed.

Lemma fields_exact_fit (W P : nat) (row : list spec_float) :
  List.Forall (fun v => is_finite v = true) row ->
  List.Forall (fun f => length f = W) (map (fmt_f W P) row) ->
  List.Forall (fun v => fits_field W P v = true) row.
Proof.
  induction 1 as [|v row Hv _ IH]; intros Hlen; [constructor|].
  cbn [map] in Hlen. inversion Hlen as [|? ? H1 H2]; subst.
  constructor; [now apply fmt_f_width_fits | now apply IH].
Qed.

(** A row of finite values keeps its columns exactly when every value
    fits. *)
Lemma row_aligned_iff (W P : nat) (row : list spec_float) :
  (0 < W)%nat ->
  List.Forall (fun v => is_finite v = true) row ->
  (length (concat (map (fmt_f W P) row)) = (W * length row)%nat <->
   List.Forall (fun v => fits_field W P v = true) row) /\
  (chunks W (concat (map (fmt_f W P) row)) = map (fmt_f W P) row <->
   List.Forall (fun v => fits_field W P v = true) row).
Proof.
  intros HW Hfin. split; split.
  - intros Hlen. apply fields_exact_fit; [exact Hfin|].
    apply concat_length_exact; [apply fields_ge|].
    now rewrite length_map.
  - intros Hfit.
    induction Hfit as [|v row Hv _ IH]; [cbn; lia|].
    inversion Hfin; subst.
    cbn [map concat length]. rewrite length_app, IH by assumption.
    rewrite (fmt_f_length_fits W P v Hv), Nat.mul_succ_r. lia.
  - intros Hch. apply fields_exact_fit; [exact Hfin|].
    pose proof (chunks_fuel_le (length (concat (map (fmt_f W P) row))) W
                  (concat (map (fmt_f W P) row))) as Hle.
    fold (chunks W (concat (map (fmt_f W P) row))) in Hle.
    rewrite Hch in Hle.
    pose proof (fields_ge W P row) as Hge.
    rewrite List.Forall_forall in Hle, Hge |- *.
    intros f Hin. specialize (Hle f Hin). specialize (Hge f Hin). lia.
  - intros Hfit. apply chunks_concat; [exact HW|].
    now apply fields_length_fits.
Qed.

Lemma nth_error_app_at {A : Type} (l1 l2 : list A) (n k : nat) :
  n = (length l1 + k)%nat -> nth_error (l1 ++ l2) n = nth_error l2 k.
Proof.
  intros ->. rewrite nth_error_app2 by lia. f_equal. lia.
Qed.

Lemma put_file_commute (p q : string) (c d : content) (w : world) :
  p <> q ->
  put_file p c (put_file q d w) = put_file q d (put_file p c w).
Proof.
  intros Hne. unfold put_file, set_files.
  cbn [w_files w_arrays w_open w_console w_env].
  now rewrite insert_insert_ne by exact Hne.
Qed.

End Widths.

(** X6. The three counts of the standard file stand on lines 3,
    5 + N_loc and 7 + N_loc + N_f; each is written from the length of its
    own argument through ['%12.0f'] and reads back as exactly that
    integer, with no decimal. The counts are not checked against each
    other: the file has [len(freq)] frequency lines and [spec.shape[-2]]
    data lines, whether or not the two agree. *)
Theorem swan_counts_read_back (w : world) (freq spec locations : nat)
    (outfile : string) (waveTime sdir : option nat) (fv : list spec_float)
    (dv : option (list spec_float)) (lc gc : nat)
    (locs grid : list (list spec_float)) :
  w_arrays w freq = Arr1 fv ->
  w_arrays w spec = Arr2 gc grid -> wf_array (Arr2 gc grid) ->
  w_arrays w locations = Arr2 lc locs -> wf_array (Arr2 lc locs) ->
  (2 <= lc)%nat ->
  dirs_at w sdir dv ->
  exists w' lines,
    Swan.write_boundary_spec freq spec locations outfile waveTime sdir w =
      (w', Ok tt) /\
    w_files w' !! outfile = Some (Text (unlines lines)) /\
    lines = swan_lines fv dv locs grid /\
    (exists c, nth_error lines 2 = Some c /\
               read_field c = Some (Z.of_nat (length locs), 0%nat)) /\
    (exists c, nth_error lines (4 + length locs) = Some c /\
               read_field c = Some (Z.of_nat (length fv), 0%nat)) /\
    (forall d, dv = Some d ->
       exists c, nth_error lines (6 + length locs + length fv) = Some c /\
                 read_field c = Some (Z.of_nat (length d), 0%nat)) /\
    length lines =
      (3 + length locs + (2 + length fv) +
       match dv with Some d => 2 + length d | None => 0 end +
       (7 + length grid))%nat.
Proof.
  intros Hf Hg Hgwf Hl Hlwf Hlc Hd.
  exists (put_file outfile (Text (swan_layout fv dv locs grid)) w),
    (swan_lines fv dv locs grid).
  split; [apply (swan_run w freq spec locations outfile waveTime sdir fv dv
            lc gc locs grid); assumption|].
  split; [rewrite files_put_file; now rewrite swan_layout_lines|].
  split; [reflexivity|].
  unfold swan_lines.
  split; [exists (count_field (length locs)); split;
          [reflexivity | apply read_count]|].
  split.
  { exists (count_field (length fv)). split; [|apply read_count].
    rewrite (nth_error_app_at _ _ _ (1 + length locs)) by reflexivity.
    rewrite (nth_error_app_at _ _ _ 1) by (rewrite length_map; lia).
    reflexivity. }
  split.
  { intros d ->. exists (count_field (length d)). split; [|apply read_count].
    rewrite (nth_error_app_at _ _ _ (3 + length locs + length fv))
      by reflexivity.
    rewrite (nth_error_app_at _ _ _ (3 + length fv))
      by (rewrite length_map; lia).
    rewrite (nth_error_app_at _ _ _ (1 + length fv)) by reflexivity.
    rewrite (nth_error_app_at _ _ _ 1) by (rewrite length_map; lia).
    reflexivity. }
  unfold quant_lines.
  destruct dv; repeat (rewrite ?length_app, ?length_map; cbn [length]); lia.
Qed.

Lemma swan_counts_read_back_witness :
  exists w' lines,
    Swan.write_boundary_spec 3 1 2 "out.spc" None (Some 0%nat) ex_world =
      (w', Ok tt) /\
    w_files w' !! "out.spc"%string = Some (Text (unlines lines)) /\
    lines = swan_lines ex_dirs (Some ex_freq) ex_locs ex_grid /\
    (exists c, nth_error lines 2 = Some c /\
               read_field c = Some (Z.of_nat (length ex_locs), 0%nat)) /\
    (exists c, nth_error lines (4 + length ex_locs) = Some c /\
               read_field c = Some (Z.of_nat (length ex_dirs), 0%nat)) /\
    (forall d, Some ex_freq = Some d ->
       exists c,
         nth_error lines (6 + length ex_locs + length ex_dirs) = Some c /\
         read_field c = Some (Z.of_nat (length d), 0%nat)) /\
    length lines =
      (3 + length ex_locs + (2 + length ex_dirs) + (2 + length ex_freq) +
       (7 + length ex_grid))%nat.
Proof.
  apply (swan_counts_read_back ex_world 3 1 2 "out.spc" None (Some 0%nat)
           ex_dirs (Some ex_freq) 2 3 ex_locs ex_grid);
    try reflexivity; try (repeat constructor); lia.
Defined.

(** X7. What a value too wide for its field does to a data line. Each
    line of the data block is the ['%16.10f'] fields of its row back to
    back, and every field has at least 16 characters; for a row of finite
    values the line has exactly 16 characters per value, and cutting it
    every 16 columns gives the fields back, exactly when every value of
    the row fits its field. One value that does not fit lengthens the line
    and shifts every cut after it. *)
Theorem data_line_aligned_iff_fits (w : world) (freq spec locations : nat)
    (outfile : string) (waveTime sdir : option nat) (fv : list spec_float)
    (dv : option (list spec_float)) (lc gc : nat)
    (locs grid : list (list spec_float)) :
  w_arrays w freq = Arr1 fv ->
  w_arrays w spec = Arr2 gc grid -> wf_array (Arr2 gc grid) ->
  w_arrays w locations = Arr2 lc locs -> wf_array (Arr2 lc locs) ->
  (2 <= lc)%nat ->
  dirs_at w sdir dv ->
  exists w' pre,
    Swan.write_boundary_spec freq spec locations outfile waveTime sdir w =
      (w', Ok tt) /\
    w_files w' !! outfile =
      Some (Text (pre ++ unlines (map data_fields grid))) /\
    List.Forall (fun row =>
      data_fields row = concat (map (fmt_f 16 10) row) /\
      (16 * gc <= length (data_fields row))%nat /\
      (List.Forall (fun v => is_finite v = true) row ->
       (length (data_fields row) = (16 * gc)%nat <->
        List.Forall (fun v => fits_field 16 10 v = true) row) /\
       (chunks 16 (data_fields row) = map (fmt_f 16 10) row <->
        List.Forall (fun v => fits_field 16 10 v = true) row))) grid.
Proof.
  intros Hf Hg Hgwf Hl Hlwf Hlc Hd.
  exists (put_file outfile (Text (swan_layout fv dv locs grid)) w),
    (header_section ++ locations_section locs ++ rfreq_section fv ++
     ndir_section dv ++ quant_section).
  split; [apply (swan_run w freq spec locations outfile waveTime sdir fv dv
            lc gc locs grid); assumption|].
  split; [rewrite files_put_file, <- data_block_lines; unfold swan_layout;
          now rewrite <- !app_assoc|].
  apply List.Forall_forall. intros row Hrow.
  pose proof (in_rows_length gc grid row Hgwf Hrow) as Hlen.
  split; [reflexivity|]. unfold data_fields. rewrite <- Hlen. split.
  - pose proof (concat_length_ge 16 _ (fields_ge 16 10 row)) as H.
    now rewrite length_map in H.
  - intros Hfin. apply row_aligned_iff; [lia | exact Hfin].
Qed.

Lemma data_line_aligned_iff_fits_witness :
  exists w' pre,
    Swan.write_boundary_spec 0 1 2 "out.spc" None None big_world =
      (w', Ok tt) /\
    w_files w' !! "out.spc"%string =
      Some (Text (pre ++ unlines (map data_fields [[f_1e5]]))) /\
    List.Forall (fun row =>
      data_fields row = concat (map (fmt_f 16 10) row) /\
      (16 * 1 <= length (data_fields row))%nat /\
      (List.Forall (fun v => is_finite v = true) row ->
       (length (data_fields row) = (16 * 1)%nat <->
        List.Forall (fun v => fits_field 16 10 v = true) row) /\
       (chunks 16 (data_fields row) = map (fmt_f 16 10) row <->
        List.Forall (fun v => fits_field 16 10 v = true) row))) [[f_1e5]].
Proof.
  apply (data_line_aligned_iff_fits big_world 0 1 2 "out.spc" None None
           [f_0_05] None 2 1 ex_locs [[f_1e5]]);
    try reflexivity; try (repeat constructor); lia.
Defined.

(** X8. A line that holds a single field is read back whole whatever its
    width: every finite frequency and every finite direction, read from
    its line as a decimal number, has the written number of decimals (8
    and 4) and is within half a unit in the last decimal of the input
    value, also when the value is too wide for its 12 or 16 columns. *)
Theorem single_field_lines_read_back (w : world)
    (freq spec locations : nat) (outfile : string)
    (waveTime sdir : option nat) (fv : list spec_float)
    (dv : option (list spec_float)) (lc gc : nat)
    (locs grid : list (list spec_float)) :
  w_arrays w freq = Arr1 fv ->
  w_arrays w spec = Arr2 gc grid -> wf_array (Arr2 gc grid) ->
  w_arrays w locations = Arr2 lc locs -> wf_array (Arr2 lc locs) ->
  (2 <= lc)%nat ->
  dirs_at w sdir dv ->
  List.Forall (fun f => is_finite f = true) fv ->
  (forall d, dv = Some d -> List.Forall (fun x => is_finite x = true) d) ->
  exists w',
    Swan.write_boundary_spec freq spec locations outfile waveTime sdir w =
      (w', Ok tt) /\
    w_files w' !! outfile =
      Some (Text (unlines
        ([str "SWAN 1"; str "LOCATIONS"; count_field (length locs)] ++
         map loc_fields locs ++
         [str "RFREQ"; count_field (length fv)] ++ map (fmt_f 12 8) fv ++
         match dv with
         | Some d =>
             [str "NDIR"; count_field (length d)] ++ map (fmt_f 16 4) d
         | None => []
         end ++
         quant_lines ++ map data_fields grid))) /\
    List.Forall2 (reads_back 8) (map (fmt_f 12 8) fv) fv /\
    (forall d, dv = Some d ->
       List.Forall2 (reads_back 4) (map (fmt_f 16 4) d) d).
Proof.
  intros Hf Hg Hgwf Hl Hlwf Hlc Hd Ffv Fdv.
  eexists.
  split; [apply (swan_run w freq spec locations outfile waveTime sdir fv dv
            lc gc locs grid); assumption|].
  split; [rewrite files_put_file; now rewrite swan_layout_lines|].
  split; [now apply lines_read_back|].
  intros d Hdv. apply lines_read_back. now apply Fdv.
Qed.

Lemma single_field_lines_read_back_witness :
  (12 < length (fmt_f 12 8 f_1e5))%nat /\
  exists w',
    Swan.write_boundary_spec 0 1 2 "out.spc" None None wide_world =
      (w', Ok tt) /\
    w_files w' !! "out.spc"%string =
      Some (Text (unlines
        ([str "SWAN 1"; str "LOCATIONS"; count_field (length ex_locs)] ++
         map loc_fields ex_locs ++
         [str "RFREQ"; count_field (length [f_1e5])] ++
         map (fmt_f 12 8) [f_1e5] ++ [] ++
         quant_lines ++ map data_fields [[f_one]]))) /\
    List.Forall2 (reads_back 8) (map (fmt_f 12 8) [f_1e5]) [f_1e5] /\
    (forall d, @None (list spec_float) = Some d ->
       List.Forall2 (reads_back 4) (map (fmt_f 16 4) d) d).
Proof.
  split; [vm_compute; lia|].
  apply (single_field_lines_read_back wide_world 0 1 2 "out.spc" None None
           [f_1e5] None 2 1 ex_locs [[f_one]]);
    try reflexivity; try lia; try discriminate; repeat constructor.
Defined.

(** X9. Two calls of the standard writer on valid input and different
    output paths are independent: both return, and the world they leave is
    the same in either order. *)
Theorem swan_calls_commute (w : world) (freq1 spec1 locations1 : nat)
    (outfile1 : string) (waveTime1 sdir1 : option nat)
    (freq2 spec2 locations2 : nat) (outfile2 : string)
    (waveTime2 sdir2 : option nat) :
  spectrum_input w freq1 spec1 locations1 sdir1 ->
  spectrum_input w freq2 spec2 locations2 sdir2 ->
  outfile1 <> outfile2 ->
  (Swan.write_boundary_spec freq1 spec1 locations1 outfile1 waveTime1 sdir1 ;;
   Swan.write_boundary_spec freq2 spec2 locations2 outfile2 waveTime2 sdir2)
    w =
  (Swan.write_boundary_spec freq2 spec2 locations2 outfile2 waveTime2 sdir2 ;;
   Swan.write_boundary_spec freq1 spec1 locations1 outfile1 waveTime1 sdir1)
    w /\
  snd ((Swan.write_boundary_spec freq1 spec1 locations1 outfile1 waveTime1
          sdir1 ;;
        Swan.write_boundary_spec freq2 spec2 locations2 outfile2 waveTime2
          sdir2) w) = Ok tt.
Proof.
  intros (fv1 & dv1 & lc1 & gc1 & locs1 & grid1 & Hf1 & Hg1 & Hgw1 & Hl1 &
          Hlw1 & Hlc1 & Hd1)
         (fv2 & dv2 & lc2 & gc2 & locs2 & grid2 & Hf2 & Hg2 & Hgw2 & Hl2 &
          Hlw2 & Hlc2 & Hd2) Hne.
  assert (R1 : forall w0, w_arrays w0 = w_arrays w ->
            Swan.write_boundary_spec freq1 spec1 locations1 outfile1
              waveTime1 sdir1 w0 =
            (put_file outfile1 (Text (swan_layout fv1 dv1 locs1 grid1)) w0,
             Ok tt)).
  { intros w0 E.
    apply (swan_run w0 freq1 spec1 locations1 outfile1 waveTime1 sdir1 fv1
             dv1 lc1 gc1 locs1 grid1); rewrite ?E; try assumption.
    destruct sdir1, dv1; cbn [dirs_at] in *; rewrite ?E; assumption. }
  assert (R2 : forall w0, w_arrays w0 = w_arrays w ->
            Swan.write_boundary_spec freq2 spec2 locations2 outfile2
              waveTime2 sdir2 w0 =
            (put_file outfile2 (Text (swan_layout fv2 dv2 locs2 grid2)) w0,
             Ok tt)).
  { intros w0 E.
    apply (swan_run w0 freq2 spec2 locations2 outfile2 waveTime2 sdir2 fv2
             dv2 lc2 gc2 locs2 grid2); rewrite ?E; try assumption.
    destruct sdir2, dv2; cbn [dirs_at] in *; rewrite ?E; assumption. }
  rewrite (bind_ok _ _ _ _ _ (R1 w eq_refl)).
  rewrite (bind_ok _ _ _ _ _ (R2 w eq_refl)).
  rewrite R1, R2 by reflexivity.
  split; [|reflexivity].
  f_equal. apply put_file_commute. congruence.
Qed.

Lemma swan_calls_commute_witness :
  (Swan.write_boundary_spec 0 1 2 "a.spc" None None ;;
   Swan.write_boundary_spec 0 1 2 "b.spc" None (Some 3%nat)) ex_world =
  (Swan.write_boundary_spec 0 1 2 "b.spc" None (Some 3%nat) ;;
   Swan.write_boundary_spec 0 1 2 "a.spc" None None) ex_world /\
  snd ((Swan.write_boundary_spec 0 1 2 "a.spc" None None ;;
        Swan.write_boundary_spec 0 1 2 "b.spc" None (Some 3%nat)) ex_world) =
    Ok tt.
Proof.
  apply (swan_calls_commute ex_world 0 1 2 "a.spc" None None
           0 1 2 "b.spc" None (Some 3%nat)).
  - exists ex_freq, None, 2%nat, 3%nat, ex_locs, ex_grid.
    repeat split; try reflexivity; try (repeat constructor); lia.
  - exists ex_freq, (Some ex_dirs), 2%nat, 3%nat, ex_locs, ex_grid.
    repeat split; try reflexivity; try (repeat constructor); lia.
  - discriminate.
Defined.

(** X10. The alternate writer given a spectrum that is a vector raises
    [IndexError] at [spec.shape[-2]], after the frequencies and the
    directions were written: the file is left without its data block and
    its handle is left open. *)
Theorem xbeach_vector_spectrum_fails (w : world)
    (freq spec locations : nat) (outfile : string)
    (waveTime sdir : option nat) (fv sv : list spec_float)
    (dv : option (list spec_float)) :
  w_arrays w freq = Arr1 fv ->
  w_arrays w spec = Arr1 sv ->
  dirs_at w sdir dv ->
  Xbeach.write_boundary_spec freq spec locations outfile waveTime sdir false
    w =
  (wr (fresh (dom (w_open w))) outfile
      (freq_block fv ++ match dv with Some d => dir_block d | None => [] end)
      (set_console
         (w_console w ++ [str "Writing 2D spectrum for Instat = 6"]) w),
   Raise IndexError).
Proof.
  intros Hf Hs Hd. unfold Xbeach.write_boundary_spec. cbv iota.
  rewrite (bind_ok _ _ _ _ _ (print_run _ w)).
  set (w1 := set_console _ w).
  assert (Hd1 : dirs_at w1 sdir dv) by exact Hd.
  change (w_arrays w freq) with (w_arrays w1 freq) in Hf.
  change (w_arrays w spec) with (w_arrays w1 spec) in Hs.
  rewrite (bind_ok _ _ _ _ _ (open_w_run outfile w1)).
  change (fresh (dom (w_open w))) with (fresh (dom (w_open w1))).
  set (fd := fresh (dom (w_open w1))).
  rewrite (shape_at_bind _ _ (length fv)) by (rewrite arrays_wr, Hf; reflexivity).
  rewrite fwrite_wr_bind.
  rewrite (shape_at_bind _ _ (length fv)) by (rewrite arrays_wr, Hf; reflexivity).
  rewrite (bind_ok _ _ _ _ _ (line1_loop _ _ _ _ _ _ _ _ _ Hf)).
  rewrite (bind_ok _ _ _ _ _ (dir_loop_plain _ _ _ _ _ _ Hd1)).
  erewrite bind_raise;
    [|unfold shape_at; rewrite arrays_wr, Hs; reflexivity].
  do 2 f_equal; unfold freq_block, count_line, freq_line;
    now rewrite <- ?app_assoc.
Qed.

Lemma xbeach_vector_spectrum_fails_witness :
  Xbeach.write_boundary_spec 0 0 2 "out.spc" None (Some 3%nat) false
    ex_world =
  (wr (fresh (dom (w_open ex_world))) "out.spc"
      (freq_block ex_freq ++ dir_block ex_dirs)
      (set_console
         (w_console ex_world ++ [str "Writing 2D spectrum for Instat = 6"])
         ex_world),
   Raise IndexError).
Proof.
  apply (xbeach_vector_spectrum_fails ex_world 0 0 2 "out.spc" None
           (Some 3%nat) ex_freq ex_freq (Some ex_dirs)); reflexivity.
Defined.

(* ===================================================================== *)
(** * The bathymetry writer, block by block *)
(* ===================================================================== *)

Section MirrorRun.

Lemma nc_open_run (p : string) (w : world) :
  nc_open p w =
  (wrn (fresh (dom (w_open w))) p nc_empty w, Ok (fresh (dom (w_open w)))).
Proof. reflexivity. Qed.

Lemma nc_modify_wrn_bind {B : Type} (fd : nat) (p : string) (d d' : dataset)
    (w : world) (f : dataset -> res dataset) (k : unit -> M B) :
  f d = Ok d' ->
  bind (nc_modify fd f) k (wrn fd p d w) = k tt (wrn fd p d' w).
Proof.
  intros Hf. apply bind_ok.
  unfold nc_modify, wrn, put_file, set_open, set_files. cbn.
  rewrite !lookup_insert_eq, Hf. cbn. now rewrite insert_insert_eq.
Qed.

Lemma fclose_wrn_fresh (p : string) (d : dataset) (w : world) :
  fclose (fresh (dom (w_open w))) (wrn (fresh (dom (w_open w))) p d w) =
  (put_file p (NetCDF d) w, Ok tt).
Proof.
  unfold fclose, wrn, put_file, set_open, set_files. cbn.
  rewrite delete_insert_id; [reflexivity|].
  apply not_elem_of_dom, is_fresh.
Qed.

Lemma update_var_last (name : string) (f : ncvar -> res ncvar)
    (vs : list ncvar) (v v' : ncvar) :
  List.Forall (fun u => String.eqb (v_name u) name = false) vs ->
  String.eqb (v_name v) name = true -> f v = Ok v' ->
  update_var name f (vs ++ [v]) = Ok (vs ++ [v']).
Proof.
  intros Hvs Hv Hf. induction Hvs as [|u vs Hu _ IH]; cbn [app update_var].
  - now rewrite Hv, Hf.
  - now rewrite Hu, IH.
Qed.

Lemma setattr_wrn_bind {B : Type} (fd : nat) (p name : string) (val : text)
    (a : list (string * text)) (ds : list (string * nat))
    (vs : list ncvar) (w : world) (k : unit -> M B) :
  bind (nc_setattr fd name val) k
    (wrn fd p {| nc_attrs := a; nc_dims := ds; nc_vars := vs |} w) =
  k tt (wrn fd p {| nc_attrs := a ++ [(name, val)]; nc_dims := ds;
                    nc_vars := vs |} w).
Proof. unfold nc_setattr. now apply nc_modify_wrn_bind. Qed.

Lemma createDimension_wrn_bind {B : Type} (fd : nat) (p name : string)
    (size : nat) (a : list (string * text)) (ds : list (string * nat))
    (vs : list ncvar) (w : world) (k : unit -> M B) :
  bind (nc_createDimension fd name size) k
    (wrn fd p {| nc_attrs := a; nc_dims := ds; nc_vars := vs |} w) =
  k tt (wrn fd p {| nc_attrs := a; nc_dims := ds ++ [(name, size)];
                    nc_vars := vs |} w).
Proof. unfold nc_createDimension. now apply nc_modify_wrn_bind. Qed.

Lemma createVariable_wrn_bind {B : Type} (fd : nat) (p name type : string)
    (dims : list string) (a : list (string * text))
    (ds : list (string * nat)) (vs : list ncvar) (w : world)
    (k : unit -> M B) :
  List.Forall (fun n =>
    is_Some (dim_size {| nc_attrs := a; nc_dims := ds; nc_vars := vs |} n))
    dims ->
  bind (nc_createVariable fd name type dims) k
    (wrn fd p {| nc_attrs := a; nc_dims := ds; nc_vars := vs |} w) =
  k tt (wrn fd p
          {| nc_attrs := a; nc_dims := ds;
             nc_vars := vs ++
               [{| v_name := name; v_type := type; v_dims := dims;
                   v_attrs := []; v_data := None |}] |} w).
Proof.
  intros Hd. unfold nc_createVariable. apply nc_modify_wrn_bind.
  replace (forallb _ dims) with true; [reflexivity|].
  symmetry. apply forallb_forall. intros n Hn.
  rewrite List.Forall_forall in Hd. apply bool_decide_true, Hd, Hn.
Qed.

Lemma setvarattr_wrn_bind {B : Type} (fd : nat) (p name attr : string)
    (val : text) (a : list (string * text)) (ds : list (string * nat))
    (vs : list ncvar) (v : ncvar) (w : world) (k : unit -> M B) :
  List.Forall (fun u => String.eqb (v_name u) name = false) vs ->
  String.eqb (v_name v) name = true ->
  bind (nc_setvarattr fd name attr val) k
    (wrn fd p {| nc_attrs := a; nc_dims := ds; nc_vars := vs ++ [v] |} w) =
  k tt (wrn fd p
          {| nc_attrs := a; nc_dims := ds;
             nc_vars := vs ++
               [{| v_name := v_name v; v_type := v_type v;
                   v_dims := v_dims v;
                   v_attrs := v_attrs v ++ [(attr, val)];
                   v_data := v_data v |}] |} w).
Proof.
  intros Hvs Hv. unfold nc_setvarattr, nc_update_var.
  apply nc_modify_wrn_bind. cbn [nc_vars nc_attrs nc_dims].
  erewrite update_var_last; [reflexivity | exact Hvs | exact Hv | reflexivity].
Qed.

Lemma assign_wrn_bind {B : Type} (fd : nat) (p name : string) (r : nat)
    (a : list (string * text)) (ds : list (string * nat))
    (vs : list ncvar) (v : ncvar) (w : world) (k : unit -> M B) :
  List.Forall (fun u => String.eqb (v_name u) name = false) vs ->
  String.eqb (v_name v) name = true ->
  map (dim_size {| nc_attrs := a; nc_dims := ds; nc_vars := vs ++ [v] |})
    (v_dims v) = map Some (shape (w_arrays w r)) ->
  bind (nc_assign fd name r) k
    (wrn fd p {| nc_attrs := a; nc_dims := ds; nc_vars := vs ++ [v] |} w) =
  k tt (wrn fd p
          {| nc_attrs := a; nc_dims := ds;
             nc_vars := vs ++
               [{| v_name := v_name v; v_type := v_type v;
                   v_dims := v_dims v; v_attrs := v_attrs v;
                   v_data := Some (w_arrays w r) |}] |} w).
Proof.
  intros Hvs Hv Hshape. unfold nc_assign, nc_update_var.
  change (w_arrays (wrn fd p _ w)) with (w_arrays w).
  apply nc_modify_wrn_bind. cbn [nc_vars nc_attrs nc_dims].
  erewrite update_var_last; [reflexivity | exact Hvs | exact Hv |].
  cbv beta. now rewrite bool_decide_true by exact Hshape.
Qed.

Lemma ny_zero : str "  ny = 0" = str "  ny = " ++ str_int 0.
Proof. vm_compute. reflexivity. Qed.

Lemma report_run (y : option nat) (xi eta : nat) (w : world) :
  Xbeach.write_bathy_report y (Some xi)
    (match y with Some _ => Some eta | None => None end) w =
  (set_console
     (w_console w ++
      report_lines (Z.of_nat xi - 1)
        (match y with Some _ => Z.of_nat eta - 1 | None => 0 end)) w,
   Ok tt).
Proof.
  unfold Xbeach.write_bathy_report, report_lines.
  destruct y; unfold bind, print, load_local, ret, set_console;
    cbn [fst snd w_console w_arrays w_files w_open w_env];
    rewrite ?ny_zero, <- ?app_assoc; reflexivity.
Qed.

End MirrorRun.

Ltac names_ok :=
  cbn [app];
  repeat (apply List.Forall_cons; [reflexivity|]); apply List.Forall_nil.

Ltac dims_ok :=
  repeat (apply List.Forall_cons; [eexists; reflexivity|]);
  apply List.Forall_nil.

Section MirrorBlock.

Lemma getenv_bind {B : Type} (k : environ -> M B) (w : world) :
  bind getenv k w = k (w_env w) w.
Proof. reflexivity. Qed.

Lemma mirror_run_1d {B : Type} (w1 : world) (x z : nat) (outfld : string)
    (xv zv : list spec_float) (k : option nat * option nat -> M B) :
  w_arrays w1 x = Arr1 xv -> w_arrays w1 z = Arr1 zv ->
  length xv = length zv ->
  bind (Xbeach.write_bathy_netcdf x z outfld None true) k w1 =
  k (Some (length zv), None)
    (put_file (outfld +:+ "depth.nc") (NetCDF (bathy_mirror w1 x z None)) w1).
Proof.
  intros Hx Hz Hlen. unfold Xbeach.write_bathy_netcdf.
  rewrite bind_assoc, (bind_ok _ _ _ _ _ (nc_open_run _ w1)).
  set (fd := fresh (dom (w_open w1))). set (p := outfld +:+ "depth.nc").
  rewrite bind_assoc, getenv_bind.
  change (w_env (wrn fd p nc_empty w1)) with (w_env w1).
  unfold nc_empty.
  do 7 (rewrite bind_assoc, setattr_wrn_bind; cbn [app]).
  rewrite !bind_assoc.
  rewrite (shape_at_bind _ _ (length zv))
    by (change (w_arrays (wrn fd p _ w1)) with (w_arrays w1); rewrite Hz;
        reflexivity).
  rewrite bind_ret. cbn [fst snd].
  rewrite bind_assoc, createDimension_wrn_bind. cbn [app].
  (* x_rho *)
  rewrite bind_assoc, (createVariable_wrn_bind fd p "x_rho") by dims_ok.
  rewrite bind_assoc, (setvarattr_wrn_bind fd p "x_rho")
    by (names_ok || reflexivity).
  rewrite bind_assoc, (setvarattr_wrn_bind fd p "x_rho")
    by (names_ok || reflexivity).
  rewrite bind_assoc, (assign_wrn_bind fd p "x_rho")
    by (names_ok || reflexivity || (rewrite Hx; cbn [shape map]; rewrite Hlen; reflexivity)).
  (* h *)
  rewrite bind_assoc, (createVariable_wrn_bind fd p "h") by dims_ok.
  rewrite bind_assoc, (setvarattr_wrn_bind fd p "h")
    by (names_ok || reflexivity).
  rewrite bind_assoc, (setvarattr_wrn_bind fd p "h")
    by (names_ok || reflexivity).
  rewrite bind_assoc, (assign_wrn_bind fd p "h")
    by (names_ok || reflexivity || (rewrite Hz; reflexivity)).
  rewrite bind_assoc, bind_ret.
  rewrite bind_assoc. unfold fd.
  rewrite (bind_ok _ _ _ _ _ (fclose_wrn_fresh _ _ _)).
  rewrite bind_ret.
  unfold bathy_mirror. rewrite Hz. reflexivity.
Qed.

End MirrorBlock.

Section MirrorBlock2D.

Lemma mirror_run_2d {B : Type} (w1 : world) (x y z : nat) (outfld : string)
    (nc : nat) (xr yr zr : list (list spec_float))
    (k : option nat * option nat -> M B) :
  w_arrays w1 x = Arr2 nc xr -> w_arrays w1 y = Arr2 nc yr ->
  w_arrays w1 z = Arr2 nc zr ->
  length xr = length zr -> length yr = length zr ->
  bind (Xbeach.write_bathy_netcdf x z outfld (Some y) true) k w1 =
  k (Some nc, Some (length zr))
    (put_file (outfld +:+ "depth.nc")
       (NetCDF (bathy_mirror w1 x z (Some y))) w1).
Proof.
  intros Hx Hy Hz Lx Ly. unfold Xbeach.write_bathy_netcdf.
  rewrite bind_assoc, (bind_ok _ _ _ _ _ (nc_open_run _ w1)).
  set (fd := fresh (dom (w_open w1))). set (p := outfld +:+ "depth.nc").
  rewrite bind_assoc, getenv_bind.
  change (w_env (wrn fd p nc_empty w1)) with (w_env w1).
  unfold nc_empty.
  do 7 (rewrite bind_assoc, setattr_wrn_bind; cbn [app]).
  rewrite !bind_assoc.
  rewrite (shape_at_bind _ _ nc)
    by (change (w_arrays (wrn fd p _ w1)) with (w_arrays w1); rewrite Hz;
        reflexivity).
  rewrite bind_assoc.
  rewrite (shape_at_bind _ _ (length zr))
    by (change (w_arrays (wrn fd p _ w1)) with (w_arrays w1); rewrite Hz;
        reflexivity).
  rewrite bind_assoc, createDimension_wrn_bind. cbn [app].
  rewrite bind_ret. cbn [fst snd].
  rewrite bind_assoc, createDimension_wrn_bind. cbn [app].
  (* x_rho *)
  rewrite bind_assoc, (createVariable_wrn_bind fd p "x_rho") by dims_ok.
  rewrite bind_assoc, (setvarattr_wrn_bind fd p "x_rho")
    by (names_ok || reflexivity).
  rewrite bind_assoc, (setvarattr_wrn_bind fd p "x_rho")
    by (names_ok || reflexivity).
  rewrite bind_assoc, (assign_wrn_bind fd p "x_rho")
    by (names_ok || reflexivity ||
        (rewrite Hx; cbn [shape map]; rewrite Lx; reflexivity)).
  (* h *)
  rewrite bind_assoc, (createVariable_wrn_bind fd p "h") by dims_ok.
  rewrite bind_assoc, (setvarattr_wrn_bind fd p "h")
    by (names_ok || reflexivity).
  rewrite bind_assoc, (setvarattr_wrn_bind fd p "h")
    by (names_ok || reflexivity).
  rewrite bind_assoc, (assign_wrn_bind fd p "h")
    by (names_ok || reflexivity || (rewrite Hz; reflexivity)).
  (* y_rho *)
  rewrite !bind_assoc.
  rewrite (createVariable_wrn_bind fd p "y_rho") by dims_ok.
  rewrite bind_assoc, (setvarattr_wrn_bind fd p "y_rho")
    by (names_ok || reflexivity).
  rewrite bind_assoc, (setvarattr_wrn_bind fd p "y_rho")
    by (names_ok || reflexivity).
  rewrite (assign_wrn_bind fd p "y_rho")
    by (names_ok || reflexivity ||
        (rewrite Hy; cbn [shape map]; rewrite Ly; reflexivity)).
  rewrite bind_assoc. unfold fd.
  rewrite (bind_ok _ _ _ _ _ (fclose_wrn_fresh _ _ _)).
  rewrite bind_ret.
  unfold bathy_mirror. rewrite Hz. reflexivity.
Qed.

Lemma delete3_insert3 (o : gmap nat string) (fx fy fz : nat)
    (px py pz : string) :
  o !! fx = None -> o !! fy = None -> o !! fz = None ->
  delete fz (delete fy (delete fx
    (<[fz := pz]> (<[fy := py]> (<[fx := px]> o))))) = o.
Proof.
  intros Hx Hy Hz. apply map_eq. intros i.
  destruct (decide (i = fz)) as [->|Nz];
    [now rewrite lookup_delete_eq|].
  rewrite lookup_delete_ne by congruence.
  destruct (decide (i = fy)) as [->|Ny];
    [now rewrite lookup_delete_eq|].
  rewrite lookup_delete_ne by congruence.
  destruct (decide (i = fx)) as [->|Nx];
    [now rewrite lookup_delete_eq|].
  rewrite lookup_delete_ne by congruence.
  now rewrite !lookup_insert_ne by congruence.
Qed.

Lemma fresh_none (o : gmap nat string) : o !! fresh (dom o) = None.
Proof. apply not_elem_of_dom, is_fresh. Qed.

Lemma fresh_insert_none (o : gmap nat string) (a : nat) (p : string) :
  o !! fresh (dom (<[a := p]> o)) = None.
Proof.
  pose proof (fresh_none (<[a := p]> o)) as H.
  apply lookup_insert_None in H. apply H.
Qed.

Lemma fresh_insert2_none (o : gmap nat string) (a b : nat) (p q : string) :
  o !! fresh (dom (<[b := q]> (<[a := p]> o))) = None.
Proof.
  pose proof (fresh_none (<[b := q]> (<[a := p]> o))) as H.
  apply lookup_insert_None in H as [H _].
  apply lookup_insert_None in H. apply H.
Qed.

(** The text block in 2-D mode: the three files, every handle closed. *)
Lemma bathy_text_2d_run (w : world) (x y z : nat) (outfld : string)
    (nc : nat) (xr yr zr : list (list spec_float)) :
  w_arrays w x = Arr2 nc xr -> w_arrays w y = Arr2 nc yr ->
  w_arrays w z = Arr2 nc zr ->
  wf_array (Arr2 nc xr) -> wf_array (Arr2 nc yr) -> wf_array (Arr2 nc zr) ->
  length xr = length zr -> length yr = length zr ->
  Xbeach.write_bathy_text x z outfld (Some y) w =
  (put_file (outfld +:+ "z.dep") (Text (grid_text (Arr2 nc zr)))
     (put_file (outfld +:+ "y.grd") (Text (grid_text (Arr2 nc yr)))
        (put_file (outfld +:+ "x.grd") (Text (grid_text (Arr2 nc xr)))
           (set_console (w_console w ++ [str "Writing 2D grids"]) w))),
   Ok tt).
Proof.
  intros Hx Hy Hz Wx Wy Wz Lx Ly. unfold Xbeach.write_bathy_text.
  rewrite (bind_ok _ _ _ _ _ (print_run _ w)).
  set (w0 := set_console _ w).
  rewrite (bind_ok _ _ _ _ _ (open_w_run _ w0)).
  rewrite (bind_ok _ _ _ _ _ (open_w_run _ _)).
  rewrite (bind_ok _ _ _ _ _ (open_w_run _ _)).
  set (px := outfld +:+ "x.grd"). set (py := outfld +:+ "y.grd").
  set (pz := outfld +:+ "z.dep").
  set (fx := fresh (dom (w_open w0))).
  set (fy := fresh (dom (w_open (wr fx px [] w0)))).
  set (fz := fresh (dom (w_open (wr fy py [] (wr fx px [] w0))))).
  change (wr fz pz [] (wr fy py [] (wr fx px [] w0)))
    with (wr3 fx fy fz px py pz ([], [], []) w0).
  rewrite (shape_at_bind _ _ (length zr)) by (cbn [w_arrays wr3 set_open set_files w0 set_console]; rewrite Hz; reflexivity).
  assert (Fxy : fx <> fy) by (apply not_eq_sym, fresh_after_insert).
  assert (Fxz : fx <> fz) by (apply not_eq_sym, fresh_after_insert2).
  assert (Fyz : fy <> fz) by (apply not_eq_sym, fresh_after_insert).
  assert (Pxy : px <> py) by (apply append_differ; discriminate).
  assert (Pxz : px <> pz) by (apply append_differ; discriminate).
  assert (Pyz : py <> pz) by (apply append_differ; discriminate).
  rewrite (bind_ok _ _ _ _ _
             (bathy_outer_loop fx fy fz px py pz Fxy Fxz Fyz Pxy Pxz Pyz
                x y z nc xr yr zr w0 Hx Hy Hz Wx Wy Wz Lx Ly)).
  unfold bind, fclose, wr3, put_file, set_open, set_files.
  cbn [fst snd w_open w_files w_arrays w_console w_env].
  f_equal. f_equal.
  apply delete3_insert3.
  - apply fresh_none.
  - apply fresh_insert_none.
  - apply fresh_insert2_none.
Qed.

End MirrorBlock2D.

Section BathyOutcome.

(** The world after the text block, on valid input. *)
Lemma bathy_text_run (w : world) (x z : nat) (outfld : string)
    (y : option nat) :
  bathy_input w x z y ->
  exists w1,
    Xbeach.write_bathy_text x z outfld y w = (w1, Ok tt) /\
    w_arrays w1 = w_arrays w /\ w_env w1 = w_env w /\
    w_open w1 = w_open w /\
    w_console w1 = w_console w ++ [mode_line y] /\
    (forall name a, In (name, a) (bathy_outputs x z y) ->
       w_files w1 !! (outfld +:+ name) =
       Some (Text (grid_text (w_arrays w a)))) /\
    w_files w1 !! (outfld +:+ "depth.nc") =
      w_files w !! (outfld +:+ "depth.nc").
Proof.
  intros Hin.
  assert (Dxy : outfld +:+ "x.grd" <> outfld +:+ "y.grd")
    by (apply append_differ; discriminate).
  assert (Dxz : outfld +:+ "x.grd" <> outfld +:+ "z.dep")
    by (apply append_differ; discriminate).
  assert (Dyz : outfld +:+ "y.grd" <> outfld +:+ "z.dep")
    by (apply append_differ; discriminate).
  assert (Dxn : outfld +:+ "x.grd" <> outfld +:+ "depth.nc")
    by (apply append_differ; discriminate).
  assert (Dyn : outfld +:+ "y.grd" <> outfld +:+ "depth.nc")
    by (apply append_differ; discriminate).
  assert (Dzn : outfld +:+ "z.dep" <> outfld +:+ "depth.nc")
    by (apply append_differ; discriminate).
  destruct y as [y|].
  - destruct Hin as (nc & xr & yr & zr & Hx & Hy & Hz & Wx & Wy & Wz & Lx & Ly).
    eexists. split; [now apply (bathy_text_2d_run w x y z outfld nc xr yr zr)|].
    repeat (split; [reflexivity|]). split.
    + intros name a [E|[E|[E|[]]]]; injection E as <- <-.
      * rewrite !files_put_file_ne by congruence.
        now rewrite files_put_file, Hx.
      * now rewrite files_put_file, Hz.
      * rewrite files_put_file_ne by congruence.
        now rewrite files_put_file, Hy.
    + now rewrite !files_put_file_ne by congruence.
  - destruct Hin as (xv & zv & Hx & Hz).
    eexists. split; [now apply (bathy_text_1d w x z outfld xv zv)|].
    repeat (split; [reflexivity|]). split.
    + intros name a [E|[E|[]]]; injection E as <- <-.
      * now rewrite files_put_file, Hx.
      * rewrite files_put_file_ne by congruence.
        now rewrite files_put_file, Hz.
    + now rewrite !files_put_file_ne by congruence.
Qed.

Lemma fields_fit_read_back (row : list spec_float) :
  List.Forall (fun v => fits_field 16 4 v = true) row ->
  List.Forall2 (reads_back 4) (chunks 16 (bathy_row row)) row.
Proof.
  intros Hfit. unfold bathy_row.
  rewrite chunks_concat by (lia || now apply fields_length_fits).
  now apply fields_read_back.
Qed.

End BathyOutcome.

(** X11. With the default [ncsave=True], on vectors of one length (1-D
    mode) or rectangular arrays of one shape (2-D mode), [write_bathy]
    returns with every handle closed; [depth.nc] holds the seven global
    attributes, the dimension [xi_rho] (preceded by [eta_rho] in 2-D
    mode) with the sizes of the axes of [z], and the variables [x_rho] and
    [h] (and [y_rho] in 2-D mode), each of type [f8] with [units] and
    [long_name] and the values of its array; the console receives the
    mode line and the report, [nx] the number of columns less one, [ny]
    the number of rows less one in 2-D mode and 0 in 1-D mode. *)
Theorem bathy_mirror_written (w : world) (x z : nat) (outfld : string)
    (y : option nat) :
  bathy_input w x z y ->
  shape (w_arrays w x) = shape (w_arrays w z) ->
  snd (Xbeach.write_bathy x z outfld y true w) = Ok tt /\
  w_open (fst (Xbeach.write_bathy x z outfld y true w)) = w_open w /\
  w_console (fst (Xbeach.write_bathy x z outfld y true w)) =
    w_console w ++ bathy_console (w_arrays w z) y /\
  w_files (fst (Xbeach.write_bathy x z outfld y true w))
    !! (outfld +:+ "depth.nc") =
    Some (NetCDF (bathy_mirror w x z y)).
Proof.
  intros Hin Hshape. unfold Xbeach.write_bathy. destruct y as [y|].
  - destruct Hin as (nc & xr & yr & zr & Hx & Hy & Hz & Wx & Wy & Wz & Lx & Ly).
    rewrite (bind_ok _ _ _ _ _
               (bathy_text_2d_run w x y z outfld nc xr yr zr Hx Hy Hz Wx Wy
                  Wz Lx Ly)).
    set (w1 := put_file _ _ _).
    rewrite (mirror_run_2d w1 x y z outfld nc xr yr zr) by assumption.
    cbn [fst snd].
    rewrite (report_run (Some y) nc (length zr)).
    cbn [fst snd]. rewrite Hz.
    split; [reflexivity|]. split; [reflexivity|]. split.
    + cbn [w_console set_console put_file set_files w1 bathy_console].
      now rewrite <- app_assoc.
    + cbn [w_files set_console]. now rewrite files_put_file.
  - destruct Hin as (xv & zv & Hx & Hz).
    rewrite Hx, Hz in Hshape. injection Hshape as Hlen.
    rewrite (bind_ok _ _ _ _ _ (bathy_text_1d w x z outfld xv zv Hx Hz)).
    set (w1 := put_file _ _ _).
    rewrite (mirror_run_1d w1 x z outfld xv zv) by assumption.
    cbn [fst snd].
    rewrite (report_run None (length zv) 0).
    cbn [fst snd]. rewrite Hz.
    split; [reflexivity|]. split; [reflexivity|]. split.
    + cbn [w_console set_console put_file set_files w1 bathy_console shape0].
      now rewrite <- app_assoc.
    + cbn [w_files set_console]. now rewrite files_put_file.
Qed.

Lemma bathy_mirror_written_witness :
  (snd (Xbeach.write_bathy 0 1 "d/" None true bathy_world) = Ok tt /\
   w_open (fst (Xbeach.write_bathy 0 1 "d/" None true bathy_world)) =
     w_open bathy_world /\
   w_console (fst (Xbeach.write_bathy 0 1 "d/" None true bathy_world)) =
     w_console bathy_world ++ bathy_console (w_arrays bathy_world 1) None /\
   w_files (fst (Xbeach.write_bathy 0 1 "d/" None true bathy_world))
     !! ("d/" +:+ "depth.nc") =
     Some (NetCDF (bathy_mirror bathy_world 0 1 None))) /\
  (snd (Xbeach.write_bathy 2 4 "d/" (Some 3%nat) true bathy_world) = Ok tt /\
   w_open (fst (Xbeach.write_bathy 2 4 "d/" (Some 3%nat) true bathy_world)) =
     w_open bathy_world /\
   w_console
     (fst (Xbeach.write_bathy 2 4 "d/" (Some 3%nat) true bathy_world)) =
     w_console bathy_world ++
     bathy_console (w_arrays bathy_world 4) (Some 3%nat) /\
   w_files (fst (Xbeach.write_bathy 2 4 "d/" (Some 3%nat) true bathy_world))
     !! ("d/" +:+ "depth.nc") =
     Some (NetCDF (bathy_mirror bathy_world 2 4 (Some 3%nat)))).
Proof.
  split.
  - apply (bathy_mirror_written bathy_world 0 1 "d/" None).
    + exists [f_zero; f_ten], [f_one; f_twenty]. split; reflexivity.
    + reflexivity.
  - apply (bathy_mirror_written bathy_world 2 4 "d/" (Some 3%nat)).
    + exists 2%nat, [[f_zero; f_ten]; [f_zero; f_ten]],
        [[f_zero; f_zero]; [f_ten; f_ten]],
        [[f_one; f_one]; [f_twenty; f_twenty]].
      repeat split; repeat constructor.
    + reflexivity.
Defined.

(** X12. With [ncsave=False], on valid input of either mode, the call
    raises [UnboundLocalError] when it reads [xi_rho], but only after the
    text block is complete: every text file holds all its rows, every
    handle is closed, [depth.nc] is left as it was, and the console holds
    the mode line and the first three lines of the report, without any
    grid dimension. *)
Theorem bathy_no_mirror_outcome (w : world) (x z : nat) (outfld : string)
    (y : option nat) :
  bathy_input w x z y ->
  snd (Xbeach.write_bathy x z outfld y false w) = Raise UnboundLocalError /\
  w_open (fst (Xbeach.write_bathy x z outfld y false w)) = w_open w /\
  w_console (fst (Xbeach.write_bathy x z outfld y false w)) =
    w_console w ++
    [mode_line y; str " "; Xbeach.rule; str "In your params.txt:"] /\
  (forall name a, In (name, a) (bathy_outputs x z y) ->
     w_files (fst (Xbeach.write_bathy x z outfld y false w))
       !! (outfld +:+ name) =
     Some (Text (grid_text (w_arrays w a)))) /\
  w_files (fst (Xbeach.write_bathy x z outfld y false w))
    !! (outfld +:+ "depth.nc") =
  w_files w !! (outfld +:+ "depth.nc").
Proof.
  intros Hin.
  destruct (bathy_text_run w x z outfld y Hin)
    as (w1 & E & _ & _ & Ho & Hc & Hf & Hn).
  unfold Xbeach.write_bathy. rewrite (bind_ok _ _ _ _ _ E).
  unfold Xbeach.write_bathy_netcdf, Xbeach.write_bathy_report.
  rewrite bind_ret. cbn [fst snd load_local].
  unfold bind, print, lift, set_console.
  cbn [fst snd w_open w_console w_files].
  split; [reflexivity|]. split; [exact Ho|]. split.
  - rewrite Hc, <- !app_assoc. reflexivity.
  - split; [exact Hf | exact Hn].
Qed.

Lemma bathy_no_mirror_outcome_witness :
  snd (Xbeach.write_bathy 2 4 "d/" (Some 3%nat) false bathy_world) =
    Raise UnboundLocalError /\
  w_open (fst (Xbeach.write_bathy 2 4 "d/" (Some 3%nat) false bathy_world)) =
    w_open bathy_world /\
  w_console
    (fst (Xbeach.write_bathy 2 4 "d/" (Some 3%nat) false bathy_world)) =
    w_console bathy_world ++
    [mode_line (Some 3%nat); str " "; Xbeach.rule;
     str "In your params.txt:"] /\
  (forall name a, In (name, a) (bathy_outputs 2 4 (Some 3%nat)) ->
     w_files
       (fst (Xbeach.write_bathy 2 4 "d/" (Some 3%nat) false bathy_world))
       !! ("d/" +:+ name) =
     Some (Text (grid_text (w_arrays bathy_world a)))) /\
  w_files (fst (Xbeach.write_bathy 2 4 "d/" (Some 3%nat) false bathy_world))
    !! ("d/" +:+ "depth.nc") =
  w_files bathy_world !! ("d/" +:+ "depth.nc").
Proof.
  apply (bathy_no_mirror_outcome bathy_world 2 4 "d/" (Some 3%nat)).
  exists 2%nat, [[f_zero; f_ten]; [f_zero; f_ten]],
    [[f_zero; f_zero]; [f_ten; f_ten]],
    [[f_one; f_one]; [f_twenty; f_twenty]].
  repeat split; repeat constructor.
Defined.

(** X13. Round trip of the grid files. On valid input, whatever [ncsave]
    is, each text file holds one line per row of its array, the
    ['%16.4f'] fields of the row back to back; where the values of a row
    fit their fields, cutting its line every 16 columns and reading each
    piece as a decimal number gives, for every value of the row, a number
    of 4 decimals within half a unit in the last decimal of the value. *)
Theorem bathy_round_trip (w : world) (x z : nat) (outfld : string)
    (y : option nat) (ncsave : bool) :
  bathy_input w x z y ->
  forall name a, In (name, a) (bathy_outputs x z y) ->
    w_files (fst (Xbeach.write_bathy x z outfld y ncsave w))
      !! (outfld +:+ name) =
      Some (Text (unlines (map bathy_row (grid_rows (w_arrays w a))))) /\
    List.Forall (fun row =>
      bathy_row row = concat (map (fmt_f 16 4) row) /\
      (List.Forall (fun v => fits_field 16 4 v = true) row ->
       List.Forall2 (reads_back 4) (chunks 16 (bathy_row row)) row))
      (grid_rows (w_arrays w a)).
Proof.
  intros Hin name a Hna.
  destruct (bathy_text_run w x z outfld y Hin)
    as (w1 & E & _ & _ & _ & _ & Hf & _).
  split.
  - unfold Xbeach.write_bathy. rewrite (bind_ok _ _ _ _ _ E).
    rewrite bathy_text_kept.
    + now apply Hf.
    + destruct y; cbn [bathy_outputs app] in Hna;
        repeat (destruct Hna as [[= <- <-]|Hna]; [discriminate|]);
        destruct Hna.
  - apply List.Forall_forall. intros row _.
    split; [reflexivity | apply fields_fit_read_back].
Qed.

Lemma bathy_round_trip_witness :
  w_files (fst (Xbeach.write_bathy 0 1 "d/" None true bathy_world))
    !! ("d/" +:+ "z.dep") =
    Some (Text (unlines (map bathy_row
                           (grid_rows (w_arrays bathy_world 1))))) /\
  List.Forall (fun row =>
    bathy_row row = concat (map (fmt_f 16 4) row) /\
    (List.Forall (fun v => fits_field 16 4 v = true) row ->
     List.Forall2 (reads_back 4) (chunks 16 (bathy_row row)) row))
    (grid_rows (w_arrays bathy_world 1)).
Proof.
  apply (bathy_round_trip bathy_world 0 1 "d/" None true).
  - exists [f_zero; f_ten], [f_one; f_twenty]. split; reflexivity.
  - right. left. reflexivity.
Defined.

(** X14. A 2-D call ([y] given) on a depth vector that is not empty
    raises [IndexError] at [z.shape[1]], whatever the other arguments
    are: the three text files were created and are empty, their three
    handles are left open, and only the mode line was printed. *)
Theorem bathy_2d_on_vector_fails (w : world) (x z y : nat)
    (outfld : string) (ncsave : bool) (zv : list spec_float) :
  w_arrays w z = Arr1 zv -> zv <> [] ->
  let w0 := set_console (w_console w ++ [str "Writing 2D grids"]) w in
  let fx := fresh (dom (w_open w)) in
  let fy := fresh (dom (<[fx := outfld +:+ "x.grd"]> (w_open w))) in
  let fz := fresh (dom (<[fy := outfld +:+ "y.grd"]>
                          (<[fx := outfld +:+ "x.grd"]> (w_open w)))) in
  Xbeach.write_bathy x z outfld (Some y) ncsave w =
  (wr3 fx fy fz (outfld +:+ "x.grd") (outfld +:+ "y.grd")
       (outfld +:+ "z.dep") ([], [], []) w0,
   Raise IndexError).
Proof.
  intros Hz Hne. cbv zeta. unfold Xbeach.write_bathy.
  apply bind_raise. unfold Xbeach.write_bathy_text.
  rewrite (bind_ok _ _ _ _ _ (print_run _ w)).
  set (w0 := set_console _ w).
  rewrite (bind_ok _ _ _ _ _ (open_w_run _ w0)).
  rewrite (bind_ok _ _ _ _ _ (open_w_run _ _)).
  rewrite (bind_ok _ _ _ _ _ (open_w_run _ _)).
  set (W := wr _ _ [] (wr _ _ [] (wr _ _ [] w0))).
  rewrite (shape_at_bind _ _ (length zv)) by (subst W; cbn; rewrite Hz; reflexivity).
  apply bind_raise.
  apply for_range_first_raises; [destruct zv; [contradiction | cbn; lia]|].
  apply bind_raise. unfold shape_at.
  replace (w_arrays W z) with (Arr1 zv) by (symmetry; exact Hz).
  reflexivity.
Qed.

Lemma bathy_2d_on_vector_fails_witness :
  let w0 :=
    set_console (w_console mismatch_world ++ [str "Writing 2D grids"])
      mismatch_world in
  let fx := fresh (dom (w_open mismatch_world)) in
  let fy := fresh (dom (<[fx := "d/" +:+ "x.grd"]>
                          (w_open mismatch_world))) in
  let fz := fresh (dom (<[fy := "d/" +:+ "y.grd"]>
                          (<[fx := "d/" +:+ "x.grd"]>
                             (w_open mismatch_world)))) in
  Xbeach.write_bathy 0 2 "d/" (Some 0%nat) true mismatch_world =
  (wr3 fx fy fz ("d/" +:+ "x.grd") ("d/" +:+ "y.grd") ("d/" +:+ "z.dep")
       ([], [], []) w0,
   Raise IndexError).
Proof.
  apply (bathy_2d_on_vector_fails mismatch_world 0 2 0 "d/" true
           [f_one; f_twenty]); [reflexivity | discriminate].
Defined.

(** X15. A 1-D call ([y] omitted) on a depth grid with at least one row
    and at least two columns raises [TypeError] at the first field, since
    [z[0]] is a row and not a number: [z.dep] was created and is empty,
    its handle is left open, [x.grd] is not written, and only the mode
    line was printed. *)
Theorem bathy_1d_on_grid_fails (w : world) (x z : nat) (outfld : string)
    (ncsave : bool) (nc : nat) (zr : list (list spec_float)) :
  w_arrays w z = Arr2 nc zr -> wf_array (Arr2 nc zr) ->
  zr <> [] -> (2 <= nc)%nat ->
  Xbeach.write_bathy x z outfld None ncsave w =
  (wr (fresh (dom (w_open w))) (outfld +:+ "z.dep") []
      (set_console (w_console w ++ [str "Writing 1D grids"]) w),
   Raise TypeError).
Proof.
  intros Hz Hwf Hne Hnc. unfold Xbeach.write_bathy.
  apply bind_raise. unfold Xbeach.write_bathy_text.
  rewrite (bind_ok _ _ _ _ _ (print_run _ w)).
  set (w0 := set_console _ w).
  rewrite (bind_ok _ _ _ _ _ (open_w_run _ w0)).
  change (fresh (dom (w_open w))) with (fresh (dom (w_open w0))).
  set (fd := fresh (dom (w_open w0))).
  unfold len.
  rewrite (shape_at_bind _ _ (length zr))
    by (rewrite arrays_wr; subst w0; cbn [w_arrays set_console];
        rewrite Hz; reflexivity).
  apply bind_raise.
  destruct zr as [|row zr]; [contradiction|].
  assert (Hrow : length row = nc)
    by (apply (in_rows_length nc (row :: zr)); [exact Hwf | now left]).
  apply for_range_first_raises; [cbn; lia|].
  erewrite bind_ok;
    [|unfold item1; rewrite arrays_wr; subst w0; cbn [w_arrays set_console];
      rewrite Hz; reflexivity].
  apply bind_raise.
  destruct row as [|a [|b row]]; cbn [length] in Hrow; try lia.
  reflexivity.
Qed.

Lemma bathy_1d_on_grid_fails_witness :
  Xbeach.write_bathy 0 1 "d/" None true mismatch_world =
  (wr (fresh (dom (w_open mismatch_world))) ("d/" +:+ "z.dep") []
      (set_console
         (w_console mismatch_world ++ [str "Writing 1D grids"])
         mismatch_world),
   Raise TypeError).
Proof.
  apply (bathy_1d_on_grid_fails mismatch_world 0 1 "d/" true 2
           [[f_one; f_one]; [f_twenty; f_twenty]]);
    [reflexivity | repeat constructor | discriminate | lia].
Defined.

Section NonFinite.

Lemma nonfinite_field (W P : nat) (v : spec_float) :
  is_finite v = false -> (4 <= W)%nat ->
  length (fmt_f W P v) = W /\ read_field (fmt_f W P v) = None /\
  List.Forall (fun c => is_digit c = false) (fmt_f W P v).
Proof.
  intros Hv HW. unfold fmt_f. rewrite rjust_length.
  assert (Hb : exists b,
            float_body P v = b /\ (length b <= 4)%nat /\
            read_field b = None /\
            List.Forall (fun c => is_digit c = false) b /\
            drop_blanks b = b).
  { destruct v as [s|s| |s m e]; try discriminate Hv.
    - destruct s; eexists; repeat split; try reflexivity;
        cbn; try lia; repeat constructor.
    - eexists; repeat split; try reflexivity; cbn; try lia;
        repeat constructor. }
  destruct Hb as (b & -> & Hlen & Hread & Hdig & Hdrop).
  split; [lia|]. split.
  - unfold read_field, rjust in *. rewrite drop_blanks_repeat. exact Hread.
  - unfold rjust. apply List.Forall_app. split; [|exact Hdig].
    apply List.Forall_forall. intros c Hc. apply repeat_spec in Hc.
    now subst.
Qed.

End NonFinite.

(** X16. Values that are not finite are not rejected: on a grid holding
    NaN or an infinity the standard writer returns as on any other grid,
    and each such value is written as a field of exactly 16 characters
    with no digit in it ([nan], [inf] or [-inf], right-justified), so the
    columns of its line are kept but the field does not read back as a
    number. *)
Theorem nonfinite_values_written (w : world) (freq spec locations : nat)
    (outfile : string) (waveTime sdir : option nat) (fv : list spec_float)
    (dv : option (list spec_float)) (lc gc : nat)
    (locs grid : list (list spec_float)) :
  w_arrays w freq = Arr1 fv ->
  w_arrays w spec = Arr2 gc grid -> wf_array (Arr2 gc grid) ->
  w_arrays w locations = Arr2 lc locs -> wf_array (Arr2 lc locs) ->
  (2 <= lc)%nat ->
  dirs_at w sdir dv ->
  exists w' pre,
    Swan.write_boundary_spec freq spec locations outfile waveTime sdir w =
      (w', Ok tt) /\
    w_files w' !! outfile =
      Some (Text (pre ++ unlines (map data_fields grid))) /\
    List.Forall (fun row =>
      data_fields row = concat (map (fmt_f 16 10) row) /\
      List.Forall (fun v =>
        is_finite v = false ->
        length (fmt_f 16 10 v) = 16%nat /\
        read_field (fmt_f 16 10 v) = None /\
        List.Forall (fun c => is_digit c = false) (fmt_f 16 10 v)) row)
      grid.
Proof.
  intros Hf Hg Hgwf Hl Hlwf Hlc Hd.
  exists (put_file outfile (Text (swan_layout fv dv locs grid)) w),
    (header_section ++ locations_section locs ++ rfreq_section fv ++
     ndir_section dv ++ quant_section).
  split; [apply (swan_run w freq spec locations outfile waveTime sdir fv dv
            lc gc locs grid); assumption|].
  split; [rewrite files_put_file, <- data_block_lines; unfold swan_layout;
          now rewrite <- !app_assoc|].
  apply List.Forall_forall. intros row _. split; [reflexivity|].
  apply List.Forall_forall. intros v _ Hv.
  apply nonfinite_field; [exact Hv | lia].
Qed.

Lemma nonfinite_values_written_witness :
  exists w' pre,
    Swan.write_boundary_spec 0 1 2 "out.spc" None None nan_world =
      (w', Ok tt) /\
    w_files w' !! "out.spc"%string =
      Some (Text (pre ++ unlines (map data_fields
                                    [[S754_nan; S754_infinity true]]))) /\
    List.Forall (fun row =>
      data_fields row = concat (map (fmt_f 16 10) row) /\
      List.Forall (fun v =>
        is_finite v = false ->
        length (fmt_f 16 10 v) = 16%nat /\
        read_field (fmt_f 16 10 v) = None /\
        List.Forall (fun c => is_digit c = false) (fmt_f 16 10 v)) row)
      [[S754_nan; S754_infinity true]].
Proof.
  apply (nonfinite_values_written nan_world 0 1 2 "out.spc" None None
           [f_0_05] None 2 2 ex_locs [[S754_nan; S754_infinity true]]);
    try reflexivity; try (repeat constructor); lia.
Defined.
